(** * The pipeline demo service ([app/main.py]): a shallow embedding

    The service is a FastAPI application with six routes.  Every handler is
    a short function of the request, of three module globals fixed when the
    module is imported, and of the system clock.  The embedding follows the
    Python text handler by handler:

    - Python [str] values are lists of Unicode code points;
    - [float] values are taken through an interface ([FloatOps]) with two
      instances: IEEE binary64, which is what CPython computes with, and
      exact rationals;
    - handlers run in a small monad that threads the module globals, collects
      log records and carries a raised exception;
    - the framework (routing, body validation, rendering of the response) is
      modelled as far as the handlers depend on it.

    The second part proves the properties: first of the runtime functions
    (strings, formatting, rounding of doubles), then of the handlers. *)

From Stdlib Require Import ZArith List Bool String Ascii Lia.
From Stdlib Require Import QArith Qround Qreduction.
From Stdlib Require Import PrimFloat SpecFloat FloatOps FloatAxioms.
Import ListNotations.

Set Implicit Arguments.
Set Warnings "-inexact-float".
Local Open Scope Z_scope.

(** ** Python strings *)

Module PyStr.

(** A [str] is a sequence of code points; [len] counts code points. *)
Definition codepoint := Z.
Definition str := list codepoint.

(** Source literals are ASCII: one code point per character. *)
Fixpoint lit (s : string) : str :=
  match s with
  | EmptyString => []
  | String a s' => Z.of_N (N_of_ascii a) :: lit s'
  end.

Definition len (s : str) : Z := Z.of_nat (List.length s).

Definition eqb (s t : str) : bool :=
  if list_eq_dec Z.eq_dec s t then true else false.

(** The code points [str.isspace] and [str.strip] treat as whitespace
    (bidirectional type WS, B or S, or category Zs). *)
Definition whitespace : list codepoint :=
  [9; 10; 11; 12; 13; 28; 29; 30; 31; 32; 133; 160; 5760;
   8192; 8193; 8194; 8195; 8196; 8197; 8198; 8199; 8200; 8201; 8202;
   8232; 8233; 8239; 8287; 12288].

Definition isspace (c : codepoint) : bool := existsb (Z.eqb c) whitespace.

Fixpoint dropwhile (p : codepoint -> bool) (s : str) : str :=
  match s with
  | [] => []
  | c :: s' => if p c then dropwhile p s' else s
  end.

(** [s.strip()]: the left index moves right over whitespace, then the right
    index moves left over whitespace, and the slice between is returned. *)
Definition lstrip (s : str) : str := dropwhile isspace s.
Definition rstrip (s : str) : str := rev (dropwhile isspace (rev s)).
Definition strip (s : str) : str := rstrip (lstrip s).

(** Simple case mappings of the Unicode database of CPython 3.11 (UCD
    14.0.0): [(lo, hi, step, delta)] maps every code point [lo + k * step]
    up to [hi] to itself plus [delta]. *)
Definition simple_upper : list (Z * Z * Z * Z) :=
[
   (97, 122, 1, (-32)); (181, 181, 1, 743); (224, 246, 1, (-32));
   (248, 254, 1, (-32)); (255, 255, 1, 121); (257, 303, 2, (-1));
   (305, 305, 1, (-232)); (307, 311, 2, (-1)); (314, 328, 2, (-1));
   (331, 375, 2, (-1)); (378, 382, 2, (-1)); (383, 383, 1, (-300));
   (384, 384, 1, 195); (387, 389, 2, (-1)); (392, 392, 1, (-1));
   (396, 396, 1, (-1)); (402, 402, 1, (-1)); (405, 405, 1, 97);
   (409, 409, 1, (-1)); (410, 410, 1, 163); (414, 414, 1, 130);
   (417, 421, 2, (-1)); (424, 424, 1, (-1)); (429, 429, 1, (-1));
   (432, 432, 1, (-1)); (436, 438, 2, (-1)); (441, 441, 1, (-1));
   (445, 445, 1, (-1)); (447, 447, 1, 56); (453, 453, 1, (-1));
   (454, 454, 1, (-2)); (456, 456, 1, (-1)); (457, 457, 1, (-2));
   (459, 459, 1, (-1)); (460, 460, 1, (-2)); (462, 476, 2, (-1));
   (477, 477, 1, (-79)); (479, 495, 2, (-1)); (498, 498, 1, (-1));
   (499, 499, 1, (-2)); (501, 501, 1, (-1)); (505, 543, 2, (-1));
   (547, 563, 2, (-1)); (572, 572, 1, (-1)); (575, 576, 1, 10815);
   (578, 578, 1, (-1)); (583, 591, 2, (-1)); (592, 592, 1, 10783);
   (593, 593, 1, 10780); (594, 594, 1, 10782); (595, 595, 1, (-210));
   (596, 596, 1, (-206)); (598, 599, 1, (-205)); (601, 601, 1, (-202));
   (603, 603, 1, (-203)); (604, 604, 1, 42319); (608, 608, 1, (-205));
   (609, 609, 1, 42315); (611, 611, 1, (-207)); (613, 613, 1, 42280);
   (614, 614, 1, 42308); (616, 616, 1, (-209)); (617, 617, 1, (-211));
   (618, 618, 1, 42308); (619, 619, 1, 10743); (620, 620, 1, 42305);
   (623, 623, 1, (-211)); (625, 625, 1, 10749); (626, 626, 1, (-213));
   (629, 629, 1, (-214)); (637, 637, 1, 10727); (640, 640, 1, (-218));
   (642, 642, 1, 42307); (643, 643, 1, (-218)); (647, 647, 1, 42282);
   (648, 648, 1, (-218)); (649, 649, 1, (-69)); (650, 651, 1, (-217));
   (652, 652, 1, (-71)); (658, 658, 1, (-219)); (669, 669, 1, 42261);
   (670, 670, 1, 42258); (837, 837, 1, 84); (881, 883, 2, (-1));
   (887, 887, 1, (-1)); (891, 893, 1, 130); (940, 940, 1, (-38));
   (941, 943, 1, (-37)); (945, 961, 1, (-32)); (962, 962, 1, (-31));
   (963, 971, 1, (-32)); (972, 972, 1, (-64)); (973, 974, 1, (-63));
   (976, 976, 1, (-62)); (977, 977, 1, (-57)); (981, 981, 1, (-47));
   (982, 982, 1, (-54)); (983, 983, 1, (-8)); (985, 1007, 2, (-1));
   (1008, 1008, 1, (-86)); (1009, 1009, 1, (-80)); (1010, 1010, 1, 7);
   (1011, 1011, 1, (-116)); (1013, 1013, 1, (-96)); (1016, 1016, 1, (-1));
   (1019, 1019, 1, (-1)); (1072, 1103, 1, (-32)); (1104, 1119, 1, (-80));
   (1121, 1153, 2, (-1)); (1163, 1215, 2, (-1)); (1218, 1230, 2, (-1));
   (1231, 1231, 1, (-15)); (1233, 1327, 2, (-1)); (1377, 1414, 1, (-48));
   (4304, 4346, 1, 3008); (4349, 4351, 1, 3008); (5112, 5117, 1, (-8));
   (7296, 7296, 1, (-6254)); (7297, 7297, 1, (-6253));
   (7298, 7298, 1, (-6244)); (7299, 7300, 1, (-6242));
   (7301, 7301, 1, (-6243)); (7302, 7302, 1, (-6236));
   (7303, 7303, 1, (-6181)); (7304, 7304, 1, 35266);
   (7545, 7545, 1, 35332); (7549, 7549, 1, 3814); (7566, 7566, 1, 35384);
   (7681, 7829, 2, (-1)); (7835, 7835, 1, (-59)); (7841, 7935, 2, (-1));
   (7936, 7943, 1, 8); (7952, 7957, 1, 8); (7968, 7975, 1, 8);
   (7984, 7991, 1, 8); (8000, 8005, 1, 8); (8017, 8023, 2, 8);
   (8032, 8039, 1, 8); (8048, 8049, 1, 74); (8050, 8053, 1, 86);
   (8054, 8055, 1, 100); (8056, 8057, 1, 128); (8058, 8059, 1, 112);
   (8060, 8061, 1, 126); (8112, 8113, 1, 8); (8126, 8126, 1, (-7205));
   (8144, 8145, 1, 8); (8160, 8161, 1, 8); (8165, 8165, 1, 7);
   (8526, 8526, 1, (-28)); (8560, 8575, 1, (-16)); (8580, 8580, 1, (-1));
   (9424, 9449, 1, (-26)); (11312, 11359, 1, (-48));
   (11361, 11361, 1, (-1)); (11365, 11365, 1, (-10795));
   (11366, 11366, 1, (-10792)); (11368, 11372, 2, (-1));
   (11379, 11379, 1, (-1)); (11382, 11382, 1, (-1));
   (11393, 11491, 2, (-1)); (11500, 11502, 2, (-1));
   (11507, 11507, 1, (-1)); (11520, 11557, 1, (-7264));
   (11559, 11559, 1, (-7264)); (11565, 11565, 1, (-7264));
   (42561, 42605, 2, (-1)); (42625, 42651, 2, (-1));
   (42787, 42799, 2, (-1)); (42803, 42863, 2, (-1));
   (42874, 42876, 2, (-1)); (42879, 42887, 2, (-1));
   (42892, 42892, 1, (-1)); (42897, 42899, 2, (-1)); (42900, 42900, 1, 48);
   (42903, 42921, 2, (-1)); (42933, 42947, 2, (-1));
   (42952, 42954, 2, (-1)); (42961, 42961, 1, (-1));
   (42967, 42969, 2, (-1)); (42998, 42998, 1, (-1));
   (43859, 43859, 1, (-928)); (43888, 43967, 1, (-38864));
   (65345, 65370, 1, (-32)); (66600, 66639, 1, (-40));
   (66776, 66811, 1, (-40)); (66967, 66977, 1, (-39));
   (66979, 66993, 1, (-39)); (66995, 67001, 1, (-39));
   (67003, 67004, 1, (-39)); (68800, 68850, 1, (-64));
   (71872, 71903, 1, (-32)); (93792, 93823, 1, (-32));
   (125218, 125251, 1, (-34))
].

(** Code points whose full upper-case mapping has several code points
    (SpecialCasing): the German sharp s, ligatures, Greek with iota
    subscript. *)
Definition extended_upper : list (codepoint * list codepoint) :=
[
   (223, [83; 83]); (329, [700; 78]); (496, [74; 780]);
   (912, [921; 776; 769]); (944, [933; 776; 769]); (1415, [1333; 1362]);
   (7830, [72; 817]); (7831, [84; 776]); (7832, [87; 778]);
   (7833, [89; 778]); (7834, [65; 702]); (8016, [933; 787]);
   (8018, [933; 787; 768]); (8020, [933; 787; 769]);
   (8022, [933; 787; 834]); (8064, [7944; 921]); (8065, [7945; 921]);
   (8066, [7946; 921]); (8067, [7947; 921]); (8068, [7948; 921]);
   (8069, [7949; 921]); (8070, [7950; 921]); (8071, [7951; 921]);
   (8072, [7944; 921]); (8073, [7945; 921]); (8074, [7946; 921]);
   (8075, [7947; 921]); (8076, [7948; 921]); (8077, [7949; 921]);
   (8078, [7950; 921]); (8079, [7951; 921]); (8080, [7976; 921]);
   (8081, [7977; 921]); (8082, [7978; 921]); (8083, [7979; 921]);
   (8084, [7980; 921]); (8085, [7981; 921]); (8086, [7982; 921]);
   (8087, [7983; 921]); (8088, [7976; 921]); (8089, [7977; 921]);
   (8090, [7978; 921]); (8091, [7979; 921]); (8092, [7980; 921]);
   (8093, [7981; 921]); (8094, [7982; 921]); (8095, [7983; 921]);
   (8096, [8040; 921]); (8097, [8041; 921]); (8098, [8042; 921]);
   (8099, [8043; 921]); (8100, [8044; 921]); (8101, [8045; 921]);
   (8102, [8046; 921]); (8103, [8047; 921]); (8104, [8040; 921]);
   (8105, [8041; 921]); (8106, [8042; 921]); (8107, [8043; 921]);
   (8108, [8044; 921]); (8109, [8045; 921]); (8110, [8046; 921]);
   (8111, [8047; 921]); (8114, [8122; 921]); (8115, [913; 921]);
   (8116, [902; 921]); (8118, [913; 834]); (8119, [913; 834; 921]);
   (8124, [913; 921]); (8130, [8138; 921]); (8131, [919; 921]);
   (8132, [905; 921]); (8134, [919; 834]); (8135, [919; 834; 921]);
   (8140, [919; 921]); (8146, [921; 776; 768]); (8147, [921; 776; 769]);
   (8150, [921; 834]); (8151, [921; 776; 834]); (8162, [933; 776; 768]);
   (8163, [933; 776; 769]); (8164, [929; 787]); (8166, [933; 834]);
   (8167, [933; 776; 834]); (8178, [8186; 921]); (8179, [937; 921]);
   (8180, [911; 921]); (8182, [937; 834]); (8183, [937; 834; 921]);
   (8188, [937; 921]); (64256, [70; 70]); (64257, [70; 73]);
   (64258, [70; 76]); (64259, [70; 70; 73]); (64260, [70; 70; 76]);
   (64261, [83; 84]); (64262, [83; 84]); (64275, [1348; 1350]);
   (64276, [1348; 1333]); (64277, [1348; 1339]); (64278, [1358; 1350]);
   (64279, [1348; 1341])
].

Definition in_range (c : codepoint) (r : Z * Z * Z * Z) : bool :=
  let '(lo, hi, step, _) := r in
  (lo <=? c) && (c <=? hi) && ((c - lo) mod step =? 0).

(** The full upper-case mapping of one code point: the extended table
    first, otherwise the code point plus its delta. *)
Definition toupper_full (c : codepoint) : list codepoint :=
  match find (fun e => fst e =? c) extended_upper with
  | Some (_, u) => u
  | None =>
      match find (in_range c) simple_upper with
      | Some (_, _, _, delta) => [c + delta]
      | None => [c]
      end
  end.

(** [s.upper()] maps code point by code point and concatenates. *)
Definition upper (s : str) : str := flat_map toupper_full s.

(** No code point of [s] is whitespace. *)
Definition no_space (s : str) : bool := forallb (fun c => negb (isspace c)) s.

(** [needle in s] *)
Definition contains (needle s : str) : Prop :=
  exists pre post, s = pre ++ needle ++ post.

End PyStr.

Import PyStr.


(** ** Decimal formatting of integers *)

Module Fmt.

Definition digit (n : Z) : codepoint := 48 + n.

Definition isdigit (c : codepoint) : bool := (48 <=? c) && (c <=? 57).

Fixpoint decimal_fuel (fuel : nat) (n : Z) : str :=
  match fuel with
  | O => []
  | S fuel' =>
      if n <? 10 then [digit n]
      else decimal_fuel fuel' (n / 10) ++ [digit (n mod 10)]
  end.

(** The decimal digits of [n >= 0]; a number has no more decimal digits
    than binary ones, which bounds the recursion. *)
Definition decimal (n : Z) : str := decimal_fuel (S (Z.to_nat (Z.log2 n))) n.

(** [str(n)] for an [int]. *)
Definition str_of_int (n : Z) : str :=
  if n <? 0 then 45 :: decimal (- n) else decimal n.

(** ["%0<width>d" % n]: zeros on the left up to [width]; the sign of a
    negative number comes first and counts in the width. *)
Definition format_0d (width : nat) (n : Z) : str :=
  if n <? 0 then
    let ds := decimal (- n) in
    45 :: repeat 48 (width - 1 - List.length ds) ++ ds
  else
    let ds := decimal n in
    repeat 48 (width - List.length ds) ++ ds.

Definition hexdigit (n : Z) : codepoint := if n <? 10 then 48 + n else 87 + n.

(** ["{0:04x}".format(n)] for [0 <= n < 65536]. *)
Definition format_04x (n : Z) : str :=
  [hexdigit (n / 4096 mod 16); hexdigit (n / 256 mod 16);
   hexdigit (n / 16 mod 16); hexdigit (n mod 16)].

End Fmt.

(** ** Naive [datetime] values and [isoformat] *)

Module DateTime.

Record datetime := {
  year : Z; month : Z; day : Z;
  hour : Z; minute : Z; second : Z; microsecond : Z
}.

Definition is_leap (y : Z) : bool :=
  (y mod 4 =? 0) && (negb (y mod 100 =? 0) || (y mod 400 =? 0)).

Definition days_in_month (y m : Z) : Z :=
  if m =? 2 then (if is_leap y then 29 else 28)
  else if (m =? 4) || (m =? 6) || (m =? 9) || (m =? 11) then 30
  else 31.

(** The ranges the [datetime] constructor enforces. *)
Definition valid (d : datetime) : bool :=
  (1 <=? year d) && (year d <=? 9999) &&
  (1 <=? month d) && (month d <=? 12) &&
  (1 <=? day d) && (day d <=? days_in_month (year d) (month d)) &&
  (0 <=? hour d) && (hour d <=? 23) &&
  (0 <=? minute d) && (minute d <=? 59) &&
  (0 <=? second d) && (second d <=? 59) &&
  (0 <=? microsecond d) && (microsecond d <=? 999999).

(** [d.isoformat()] with the default separator and [timespec='auto'], for
    a datetime without tzinfo: the microseconds are written only when they
    are not zero, and there is no UTC offset to append. *)
Definition isoformat (d : datetime) : str :=
  Fmt.format_0d 4 (year d) ++ lit "-" ++ Fmt.format_0d 2 (month d) ++ lit "-"
  ++ Fmt.format_0d 2 (day d) ++ lit "T"
  ++ Fmt.format_0d 2 (hour d) ++ lit ":" ++ Fmt.format_0d 2 (minute d) ++ lit ":"
  ++ Fmt.format_0d 2 (second d)
  ++ (if microsecond d =? 0 then []
      else lit "." ++ Fmt.format_0d 6 (microsecond d)).

(** A pattern describes a shape: [d] stands for any decimal digit, every
    other character for itself. *)
Fixpoint matches (pattern s : str) : bool :=
  match pattern, s with
  | [], [] => true
  | p :: pattern', c :: s' =>
      (if p =? 100 then Fmt.isdigit c else c =? p) && matches pattern' s'
  | _, _ => false
  end.

Definition shape_us : str := lit "dddd-dd-ddTdd:dd:dd.dddddd".
Definition shape_s : str := lit "dddd-dd-ddTdd:dd:dd".

End DateTime.

Import DateTime.


(** ** Python floats

    The handlers subtract two clock readings, round the difference to two
    decimals, compare and print it.  These operations form an interface so
    that the handlers can be run on IEEE doubles and reasoned about through
    the order properties of correctly rounded arithmetic. *)

Class FloatOps (F : Type) : Type := {
  fsub : F -> F -> F;        (* x - y *)
  round2 : F -> F;           (* round(x, 2) *)
  fle : F -> F -> bool;      (* x <= y *)
  flt : F -> F -> bool;      (* x < y *)
  isfinite : F -> bool       (* math.isfinite(x) *)
}.

(** [repr(x)], which is also what an f-string field and [json.dumps] write. *)
Class FloatRepr (F : Type) : Type := { frepr : F -> str }.

(** Subtraction of a constant and rounding do not reverse the order of
    finite values: both are monotone in round-to-nearest arithmetic.  The
    laws are proved below for doubles and for exact rationals. *)
Class FloatOrder (F : Type) `{FloatOps F} : Prop := {
  fsub_mono : forall a b s : F,
    isfinite a = true -> isfinite b = true -> isfinite s = true ->
    fle a b = true -> fle (fsub a s) (fsub b s) = true;
  round2_mono : forall a b : F,
    fle a b = true -> fle (round2 a) (round2 b) = true
}.

Arguments FloatOrder F {_}.

(** The integer nearest to [num / den] for [den > 0], ties to the even one. *)
Definition round_half_even (num den : Z) : Z :=
  let q := num / den in
  match 2 * (num mod den) ?= den with
  | Lt => q
  | Gt => q + 1
  | Eq => if Z.even q then q else q + 1
  end.

(** ** Rounding to binary64

    Values are counted in units of [2 ^ -1074], the spacing of the smallest
    doubles, so that every double is an integer number of units. *)

Module Rounding.

(** The double nearest to [n / den] units of [2 ^ -1074], for [n >= 0] and
    [den > 0]: the value is written [m * 2 ^ k] units with [k] the exponent
    the format gives its binade and [m] rounded half to even; a mantissa
    rounded up to [2 ^ 53] moves to the next binade. *)
Definition round_key (n den : Z) : Z * Z :=
  let k := Z.max (Z.log2 (n / den) - 52) 0 in
  let v := round_half_even n (den * 2 ^ k) in
  if v =? 2 ^ 53 then (k + 1, 2 ^ 52) else (k, v).

(** The float with sign [s] for a key: zero for the mantissa 0, infinity
    for an exponent above the largest one. *)
Definition of_key (s : bool) (key : Z * Z) : spec_float :=
  match snd key with
  | Zpos p => if fst key <=? 2045 then S754_finite s p (fst key - 1074)
              else S754_infinity s
  | _ => S754_zero s
  end.

Definition round_units (s : bool) (n den : Z) : spec_float :=
  of_key s (round_key n den).

(** The record after [n] shifts of [m]: the quotient, the last bit shifted
    out, and whether any bit before it was set. *)
Definition shifted (m n : Z) : shr_record :=
  Build_shr_record (m / 2 ^ n)
    (if n =? 0 then false else Z.testbit m (n - 1))
    (if n =? 0 then false else negb (m mod 2 ^ (n - 1) =? 0)).

(** Keys are compared by exponent first. *)
Definition key_le (a b : Z * Z) : Prop :=
  fst a < fst b \/ (fst a = fst b /\ snd a <= snd b).

(** A key of the format: a mantissa below [2 ^ 53] that, above the lowest
    exponent, has its leading bit set. *)
Definition key_ok (a : Z * Z) : Prop :=
  0 <= fst a /\ 0 <= snd a < 2 ^ 53 /\ (0 < fst a -> 2 ^ 52 <= snd a).

(** The value of a key, in units. *)
Definition key_value (a : Z * Z) : Z := snd a * 2 ^ fst a.

(** The value of a zero or finite float in units of [2 ^ -1074]. *)
Definition units (x : spec_float) : Z :=
  match x with
  | S754_finite s m e => cond_Zopp s (Zpos m * 2 ^ (e + 1074))
  | _ => 0
  end.

Definition is_fin (x : spec_float) : bool :=
  match x with
  | S754_zero _ | S754_finite _ _ _ => true
  | _ => false
  end.

(** [r] is the rounding of [d] units: a zero of either sign for 0, and
    otherwise the nearest double with the sign of [d]. *)
Definition rounds_to (d : Z) (r : spec_float) : Prop :=
  match d with
  | Z0 => exists s, r = S754_zero s
  | Zpos p => r = round_units false (Zpos p) 1
  | Zneg p => r = round_units true (Zpos p) 1
  end.

(** The value of [x] in hundredths, rounded half to even, from its value
    in units. *)
Definition hundredths (u : Z) : Z := round_half_even (u * 100) (2 ^ 1074).

(** [round(x, 2)] on the specification of a double. *)
Definition SFround2 (x : spec_float) : spec_float :=
  match x with
  | S754_finite s m e =>
      match hundredths (Zpos m * 2 ^ (e + 1074)) with
      | Zpos p => round_units s (Zpos p * 2 ^ 1074) 100
      | _ => S754_zero s
      end
  | _ => x
  end.

End Rounding.

Import Rounding.

Module Binary64.

(** [float.__round__] with [ndigits = 2]: infinities and NaN round to
    themselves; a finite [x = m * 2^e] is first rounded, exactly and with
    ties to even, to the decimal [n / 100], and that decimal is converted
    back to the nearest double.  A result of zero keeps the sign of [x]. *)
Definition round2 (x : float) : float :=
  match Prim2SF x with
  | S754_finite s m e =>
      let n := if 0 <=? e then Zpos m * 2 ^ e * 100
               else round_half_even (Zpos m * 100) (2 ^ (- e)) in
      match n with
      | Zpos p => SF2Prim (round_units s (Zpos p * 2 ^ 1074) 100)
      | _ => if s then neg_zero else zero
      end
  | _ => x
  end.

#[global] Instance ops : FloatOps float :=
  Build_FloatOps PrimFloat.sub round2 PrimFloat.leb PrimFloat.ltb PrimFloat.is_finite.

(** [repr(x)] of a double: the shortest decimal digit string that reads back
    as [x], written with a decimal point or, for very small and very large
    magnitudes, with an exponent. *)

(** The least [d], starting from [d], with [num / den < 10 ^ d]; the search
    starts just below the estimate that the binary logarithm gives. *)
Fixpoint decpt_from (fuel : nat) (num den d : Z) : Z :=
  match fuel with
  | O => d
  | S fuel' =>
      if (if d <? 0 then num * 10 ^ (- d) <? den else num <? den * 10 ^ d)
      then d else decpt_from fuel' num den (d + 1)
  end.

(** The double nearest to [c * 10 ^ p], for [c > 0]. *)
Definition of_decimal (c : positive) (p : Z) : spec_float :=
  if p <? 0
  then round_units false (Zpos c * 2 ^ 1074) (10 ^ (- p))
  else round_units false (Zpos c * 10 ^ p * 2 ^ 1074) 1.

Definition reads_back (x : spec_float) (c p : Z) : bool :=
  match c, x, (match c with Zpos c' => of_decimal c' p | _ => S754_nan end) with
  | Zpos _, S754_finite _ m e, S754_finite _ m' e' => (Pos.eqb m m') && (e =? e')
  | _, _, _ => false
  end.

(** The shortest digits: for 1, 2, ... significant digits, the two decimals
    around [num / den] are tried; of two that read back the nearer is taken
    (the even one on a tie).  The result is the integer made of the digits
    and the power of ten it is scaled by. *)
Fixpoint shortest (fuel : nat) (x : spec_float) (num den dpt k : Z) : Z * Z :=
  match fuel with
  | O => (0, 0)
  | S fuel' =>
      let p := dpt - k in
      let n := if p <? 0 then num * 10 ^ (- p) else num in
      let d := if p <? 0 then den else den * 10 ^ p in
      let lo := n / d in
      let hi := lo + 1 in
      let up := match 2 * (n mod d) ?= d with
                | Lt => false | Gt => true | Eq => Z.odd lo end in
      match reads_back x lo p, reads_back x hi p with
      | true, true => (if up then hi else lo, p)
      | true, false => (lo, p)
      | false, true => (hi, p)
      | false, false => shortest fuel' x num den dpt (k + 1)
      end
  end.

Fixpoint strip_zeros (fuel : nat) (c p : Z) : Z * Z :=
  match fuel with
  | O => (c, p)
  | S fuel' => if c mod 10 =? 0 then strip_zeros fuel' (c / 10) (p + 1) else (c, p)
  end.

(** [format_float_short] for the ['r'] format: [digits] scaled so that the
    decimal point stands [decpt] digits from the left. *)
Definition format_short (digits : str) (decpt : Z) : str :=
  let n := len digits in
  if (decpt <=? -4) || (16 <? decpt) then
    let e := decpt - 1 in
    firstn 1 digits
    ++ (if 1 <? n then lit "." ++ skipn 1 digits else [])
    ++ lit "e" ++ (if e <? 0 then lit "-" else lit "+")
    ++ Fmt.format_0d 2 (Z.abs e)
  else if decpt <=? 0 then
    lit "0." ++ repeat 48 (Z.to_nat (- decpt)) ++ digits
  else if n <=? decpt then
    digits ++ repeat 48 (Z.to_nat (decpt - n)) ++ lit ".0"
  else
    firstn (Z.to_nat decpt) digits ++ lit "." ++ skipn (Z.to_nat decpt) digits.

Definition repr (x : float) : str :=
  match Prim2SF x with
  | S754_nan => lit "nan"
  | S754_infinity s => if s then lit "-inf" else lit "inf"
  | S754_zero s => if s then lit "-0.0" else lit "0.0"
  | S754_finite s m e =>
      let num := if e <? 0 then Zpos m else Zpos m * 2 ^ e in
      let den := if e <? 0 then 2 ^ (- e) else 1 in
      let dpt := decpt_from 8 num den
                   ((Z.log2 num - Z.log2 den - 1) * 30103 / 100000 - 1) in
      let '(c, p) := shortest 17 (S754_finite s m e) num den dpt 1 in
      let '(c', p') := strip_zeros 20 c p in
      let digits := Fmt.decimal c' in
      (if s then lit "-" else []) ++ format_short digits (p' + len digits)
  end.

#[global] Instance repr_ops : FloatRepr float := Build_FloatRepr repr.

End Binary64.

Module Exact.

(** Floats idealised as the rationals they denote: no rounding in the
    subtraction, and [round] returns the decimal itself. *)
Definition round2 (x : Q) : Q :=
  Qred (round_half_even (Qnum x * 100) (Zpos (Qden x)) # 100).

#[global] Instance ops : FloatOps Q :=
  Build_FloatOps (fun x y => Qred (x - y)) round2
    Qle_bool (fun x y => negb (Qle_bool y x)) (fun _ => true).

(** A rational is written as numerator, slash, denominator. *)
Definition repr (x : Q) : str :=
  Fmt.str_of_int (Qnum x) ++ lit "/" ++ Fmt.decimal (Zpos (Qden x)).

#[global] Instance repr_ops : FloatRepr Q := Build_FloatRepr repr.

End Exact.


(** ** UTF-8

    The server sends the text of a body encoded as UTF-8, and the test client
    decodes what it receives before it parses it. *)

Module Utf8.

(** What [str.encode("utf-8")] accepts: code points up to U+10FFFF that are
    not surrogates. *)
Definition is_scalar (c : codepoint) : bool :=
  (0 <=? c) && (c <? 1114112) && negb ((55296 <=? c) && (c <=? 57343)).

Definition encodable (s : str) : bool := forallb is_scalar s.

Definition encode_char (c : codepoint) : list Z :=
  if c <? 128 then [c]
  else if c <? 2048 then [192 + c / 64; 128 + c mod 64]
  else if c <? 65536 then [224 + c / 4096; 128 + c / 64 mod 64; 128 + c mod 64]
  else [240 + c / 262144; 128 + c / 4096 mod 64; 128 + c / 64 mod 64; 128 + c mod 64].

(** [s.encode("utf-8")]: the bytes, or [None] for the [UnicodeEncodeError]
    that a surrogate raises. *)
Definition encode (s : str) : option (list Z) :=
  if encodable s then Some (flat_map encode_char s) else None.

Definition is_continuation (b : Z) : bool := (128 <=? b) && (b <=? 191).

(** [b.decode("utf-8")]: the text, or [None] for bytes that are not the
    UTF-8 encoding of a text (a wrong or missing continuation byte, an
    overlong form, a surrogate, a code point above U+10FFFF). *)
Fixpoint decode (b : list Z) : option str :=
  match b with
  | [] => Some []
  | b0 :: r0 =>
      if (0 <=? b0) && (b0 <? 128) then option_map (cons b0) (decode r0)
      else if (194 <=? b0) && (b0 <=? 223) then
        match r0 with
        | b1 :: r1 =>
            if is_continuation b1
            then option_map (cons ((b0 - 192) * 64 + (b1 - 128))) (decode r1)
            else None
        | _ => None
        end
      else if (224 <=? b0) && (b0 <=? 239) then
        match r0 with
        | b1 :: b2 :: r2 =>
            let c := ((b0 - 224) * 64 + (b1 - 128)) * 64 + (b2 - 128) in
            if is_continuation b1 && is_continuation b2
               && (2048 <=? c) && negb ((55296 <=? c) && (c <=? 57343))
            then option_map (cons c) (decode r2)
            else None
        | _ => None
        end
      else if (240 <=? b0) && (b0 <=? 244) then
        match r0 with
        | b1 :: b2 :: b3 :: r3 =>
            let c := (((b0 - 240) * 64 + (b1 - 128)) * 64 + (b2 - 128)) * 64
                     + (b3 - 128) in
            if is_continuation b1 && is_continuation b2 && is_continuation b3
               && (65536 <=? c) && (c <? 1114112)
            then option_map (cons c) (decode r3)
            else None
        | _ => None
        end
      else None
  end.

End Utf8.

(** ** JSON values

    The Python values that travel as JSON: what [json.loads] builds from a
    request body and what a response is rendered from.  A [dict] keeps its
    items in insertion order. *)

Inductive json (F : Type) : Type :=
| JNull
| JBool (b : bool)
| JInt (n : Z)
| JFloat (x : F)
| JStr (s : str)
| JList (items : list (json F))
| JDict (items : list (str * json F)).

Arguments JNull {F}.
Arguments JBool {F} b.
Arguments JInt {F} n.
Arguments JStr {F} s.

Module Json.

(** [d.get(key)]; of two items with one key the later one is the value, as
    when [json.loads] meets a repeated member name. *)
Fixpoint get {F} (key : str) (items : list (str * json F)) : option (json F) :=
  match items with
  | [] => None
  | (k, v) :: items' =>
      match get key items' with
      | Some v' => Some v'
      | None => if PyStr.eqb k key then Some v else None
      end
  end.

(** One character of a string literal, [json.encoder.ESCAPE_DCT]: quote and
    backslash are escaped, control characters have a short or a [\uXXXX]
    form, everything else is written as it is ([ensure_ascii=False]). *)
Definition escape_char (c : codepoint) : str :=
  if c =? 34 then [92; 34]
  else if c =? 92 then [92; 92]
  else if c =? 10 then [92; 110]
  else if c =? 13 then [92; 114]
  else if c =? 9 then [92; 116]
  else if c =? 8 then [92; 98]
  else if c =? 12 then [92; 102]
  else if (0 <=? c) && (c <? 32) then [92; 117] ++ Fmt.format_04x c
  else [c].

(** [json.encoder.py_encode_basestring] *)
Definition encode_basestring (s : str) : str :=
  [34] ++ flat_map escape_char s ++ [34].

Definition join (sep : str) : list str -> str :=
  fix go (parts : list str) : str :=
    match parts with
    | [] => []
    | [p] => p
    | p :: parts' => p ++ sep ++ go parts'
    end.

Fixpoint sequence {A} (l : list (option A)) : option (list A) :=
  match l with
  | [] => Some []
  | Some a :: l' => option_map (cons a) (sequence l')
  | None :: _ => None
  end.

(** [json.dumps(v, ensure_ascii=False, allow_nan=False, indent=None,
    separators=(",", ":"))], the rendering of [JSONResponse]; [None] stands
    for the [ValueError] raised on a float that is not finite. *)
Fixpoint dumps {F} `{FloatOps F} `{FloatRepr F} (v : json F) : option str :=
  match v with
  | JNull => Some (lit "null")
  | JBool b => Some (if b then lit "true" else lit "false")
  | JInt n => Some (Fmt.str_of_int n)
  | JFloat x => if isfinite x then Some (frepr x) else None
  | JStr s => Some (encode_basestring s)
  | JList items =>
      option_map (fun parts => lit "[" ++ join (lit ",") parts ++ lit "]")
        (sequence (map dumps items))
  | JDict items =>
      option_map (fun parts => lit "{" ++ join (lit ",") parts ++ lit "}")
        (sequence (map (fun kv =>
           option_map (fun r => encode_basestring (fst kv) ++ lit ":" ++ r)
             (dumps (snd kv))) items))
  end.

(** The values that can be sent as a body: every float in them is finite
    and every text in them, the digits of the floats included, is free of
    surrogates.  These are the values for which neither [dumps] nor the
    encoding of its result raises ([dumps_renderable] below). *)
Fixpoint renderable {F} `{FloatOps F} `{FloatRepr F} (v : json F) : bool :=
  match v with
  | JNull | JBool _ | JInt _ => true
  | JFloat x => isfinite x && Utf8.encodable (frepr x)
  | JStr s => Utf8.encodable s
  | JList items => forallb renderable items
  | JDict items =>
      forallb (fun kv => Utf8.encodable (fst kv) && renderable (snd kv)) items
  end.

(** [type(v).__name__] *)
Definition type_name {F} (v : json F) : str :=
  match v with
  | JNull => lit "NoneType"
  | JBool _ => lit "bool"
  | JInt _ => lit "int"
  | JFloat _ => lit "float"
  | JStr _ => lit "str"
  | JList _ => lit "list"
  | JDict _ => lit "dict"
  end.

End Json.

(** ** The pydantic models of [main.py] *)

Module HealthResponse.
Record t (F : Type) : Type := {
  status : str;
  timestamp : str;
  uptime_seconds : F;
  version : str;
  environment : str
}.

(** Serialization of the model: fields in declaration order. *)
Definition to_json {F} (r : t F) : json F :=
  JDict [(lit "status", JStr (status r));
         (lit "timestamp", JStr (timestamp r));
         (lit "uptime_seconds", JFloat (uptime_seconds r));
         (lit "version", JStr (version r));
         (lit "environment", JStr (environment r))].
End HealthResponse.

(** A request object.  Python does not fix the type of an attribute: what
    makes [message] a [str] is the validation of the body, which builds the
    object only from a JSON string. *)
Module MessageRequest.
Record t (F : Type) : Type := { message : json F }.
End MessageRequest.

Module MessageResponse.
Record t : Type := {
  original : str;
  processed : str;
  length : Z;
  timestamp : str
}.

Definition to_json {F} (r : t) : json F :=
  JDict [(lit "original", JStr (original r));
         (lit "processed", JStr (processed r));
         (lit "length", JInt (length r));
         (lit "timestamp", JStr (timestamp r))].
End MessageResponse.


(** ** Effects of a handler

    A handler reads the module globals, writes log records and may raise.
    The state is threaded explicitly, so that "this handler does not assign
    to a global" is a statement about the handler that can be proved. *)

Inductive levelname := INFO | ERROR.

Record LogRecord := { level : levelname; msg : str }.

Inductive exn :=
| HTTPException (status_code : Z) (detail : str)
| Exception (args : str).

(** [str(e)] *)
Definition exn_str (e : exn) : str :=
  match e with
  | HTTPException status_code detail =>
      Fmt.str_of_int status_code ++ lit ": " ++ detail
  | Exception args => args
  end.

Module Eff.

Inductive outcome (A : Type) : Type :=
| Return (a : A)
| Raise (e : exn).

Arguments Raise {A} e.

Definition M (St A : Type) : Type := St -> St * list LogRecord * outcome A.

Definition ret {St A} (a : A) : M St A := fun g => (g, [], Return a).

Definition bind {St A B} (m : M St A) (k : A -> M St B) : M St B :=
  fun g =>
    let '(g1, logs1, o) := m g in
    match o with
    | Return a => let '(g2, logs2, o2) := k a g1 in (g2, logs1 ++ logs2, o2)
    | Raise e => (g1, logs1, Raise e)
    end.

(** Reading a global. *)
Definition read {St A} (global : St -> A) : M St A :=
  fun g => (g, [], Return (global g)).

(** [logger.info(text)], [logger.error(text)] *)
Definition log {St} (lvl : levelname) (text : str) : M St unit :=
  fun g => (g, [Build_LogRecord lvl text], Return tt).

Definition raise {St A} (e : exn) : M St A := fun g => (g, [], Raise e).

(** [try: body except Exception as e: handler(e)] *)
Definition try_except {St A} (body : M St A) (handler : exn -> M St A) : M St A :=
  fun g =>
    let '(g1, logs1, o) := body g in
    match o with
    | Return a => (g1, logs1, Return a)
    | Raise e => let '(g2, logs2, o2) := handler e g1 in (g2, logs1 ++ logs2, o2)
    end.

End Eff.

Import Eff.

Notation "x <- m ;; k" := (bind m (fun x => k))
  (at level 61, m at next level, right associativity).
Notation "m ;; k" := (bind m (fun _ => k))
  (at level 61, right associativity).

(** The interpreter constant [os.sys.version]. *)
Class Interpreter : Type := { sys_version : str }.

(** ** The application *)

Section Service.

Context {F : Type} `{FloatOps F} `{FloatRepr F} `{Interpreter}.

(** The module globals of [main.py] that hold the application metadata. *)
Record Globals : Type := {
  APP_START_TIME : F;
  APP_VERSION : str;
  ENVIRONMENT : str
}.

(** What the system clock shows while one request is handled: the value of
    [time.time()] and the value of [datetime.utcnow()]. *)
Record Clock : Type := {
  time_time : F;
  utcnow : datetime
}.

Inductive Response : Type :=
| JSONResponse (status_code : Z) (content : json F) (media_type : str)
| PlainTextResponse (status_code : Z) (content : str).

Definition application_json : str := lit "application/json".

Definition status_code (r : Response) : Z :=
  match r with
  | JSONResponse status_code _ _ => status_code
  | PlainTextResponse status_code _ => status_code
  end.

(** The text of the body ([Response.render], before its encoding as UTF-8),
    [None] when rendering raises. *)
Definition render (r : Response) : option str :=
  match r with
  | JSONResponse _ content _ => Json.dumps content
  | PlainTextResponse _ content => Some content
  end.

(** The bytes of the body ([Response.body]): the rendered text encoded as
    UTF-8; [None] when one of the two steps raises. *)
Definition body_bytes (r : Response) : option (list Z) :=
  match render r with
  | Some text => Utf8.encode text
  | None => None
  end.

(** [JSONResponse(content, status_code, media_type)].  The constructor
    renders the content and encodes the text, so it raises where
    [json.dumps] does (a [ValueError] for a float that is not finite) and
    where [str.encode] does (a [UnicodeEncodeError] for a surrogate, whose
    text names the character and its position; that part is left out). *)
Definition JSONResponse_init (status_code : Z) (content : json F) (media_type : str)
  : M Globals Response :=
  match Json.dumps content with
  | None => raise (Exception (lit "Out of range float values are not JSON compliant"))
  | Some text =>
      match Utf8.encode text with
      | Some _ => ret (JSONResponse status_code content media_type)
      | None => raise (Exception (lit "'utf-8' codec can't encode character: surrogates not allowed"))
      end
  end.

(** [app.title] *)
Definition app_title : str := lit "DevOps Pipeline Demo API".

Definition nl : str := [10].
Definition dq : str := [34].

(** [os.getenv(key, default)] *)
Definition getenv (environ : str -> option str) (key default : str) : str :=
  match environ key with
  | Some value => value
  | None => default
  end.

(** Import of the module: the three assignments of lines 29 to 31. *)
Definition import_main (environ : str -> option str) (now : F) : Globals :=
  {| APP_START_TIME := now;
     APP_VERSION := getenv environ (lit "APP_VERSION") (lit "1.0.0");
     ENVIRONMENT := getenv environ (lit "ENVIRONMENT") (lit "development") |}.

Definition startup_event : M Globals unit :=
  version <- read APP_VERSION ;;
  environment <- read ENVIRONMENT ;;
  log INFO ([128640] ++ lit " Starting " ++ app_title ++ lit " v" ++ version) ;;
  log INFO ([128205] ++ lit " Environment: " ++ environment) ;;
  log INFO ([9989] ++ lit " Application started successfully").

Definition shutdown_event : M Globals unit :=
  log INFO ([128721] ++ lit " Shutting down application").

Definition root : M Globals (json F) :=
  version <- read APP_VERSION ;;
  ret (JDict [(lit "message", JStr (lit "Welcome to DevOps Pipeline Demo API"));
              (lit "version", JStr version);
              (lit "docs", JStr (lit "/docs"));
              (lit "health", JStr (lit "/health"))]).

Definition health_check (clk : Clock) : M Globals (HealthResponse.t F) :=
  start <- read APP_START_TIME ;;
  let uptime := fsub (time_time clk) start in
  version <- read APP_VERSION ;;
  environment <- read ENVIRONMENT ;;
  ret {| HealthResponse.status := lit "healthy";
         HealthResponse.timestamp := isoformat (utcnow clk);
         HealthResponse.uptime_seconds := round2 uptime;
         HealthResponse.version := version;
         HealthResponse.environment := environment |}.

Definition readiness_check_except (e : exn) : M Globals Response :=
  log ERROR (lit "Readiness check failed: " ++ exn_str e) ;;
  raise (HTTPException 503 (lit "Service not ready")).

Definition readiness_check (clk : Clock) : M Globals Response :=
  try_except
    (JSONResponse_init 200
       (JDict [(lit "ready", JBool true);
               (lit "timestamp", JStr (isoformat (utcnow clk)))])
       application_json)
    readiness_check_except.

(** The f-string of [metrics]. *)
Definition metrics_output (uptime : F) (version environment : str) : str :=
  lit "# HELP app_uptime_seconds Application uptime in seconds" ++ nl
  ++ lit "# TYPE app_uptime_seconds gauge" ++ nl
  ++ lit "app_uptime_seconds " ++ frepr uptime ++ nl
  ++ nl
  ++ lit "# HELP app_info Application information" ++ nl
  ++ lit "# TYPE app_info gauge" ++ nl
  ++ lit "app_info{version=" ++ dq ++ version ++ dq
  ++ lit ",environment=" ++ dq ++ environment ++ dq ++ lit "} 1" ++ nl.

Definition metrics (clk : Clock) : M Globals Response :=
  start <- read APP_START_TIME ;;
  let uptime := fsub (time_time clk) start in
  version <- read APP_VERSION ;;
  environment <- read ENVIRONMENT ;;
  JSONResponse_init 200 (JStr (metrics_output uptime version environment))
    (lit "text/plain").

(** [obj.upper]: the lookup of the method on the object.  Of the values
    that a JSON body gives only a [str] has it; the lookup gives the [str]
    whose method it is ([self]) and raises an [AttributeError] on every
    other value.  Once it has succeeded, [original_message] is that [str]. *)
Definition getattr_upper (obj : json F) : M Globals str :=
  match obj with
  | JStr self => ret self
  | _ => raise (Exception (lit "'" ++ Json.type_name obj
                           ++ lit "' object has no attribute 'upper'"))
  end.

Definition process_message_try (clk : Clock) (request : MessageRequest.t F)
  : M Globals MessageResponse.t :=
  let original_message := MessageRequest.message request in
  self <- getattr_upper original_message ;;
  let processed_message := strip (upper self) in
  log INFO (lit "Processed message: " ++ self ++ lit " -> " ++ processed_message) ;;
  ret {| MessageResponse.original := self;
         MessageResponse.processed := processed_message;
         MessageResponse.length := len processed_message;
         MessageResponse.timestamp := isoformat (utcnow clk) |}.

Definition process_message_except (e : exn) : M Globals MessageResponse.t :=
  log ERROR (lit "Error processing message: " ++ exn_str e) ;;
  raise (HTTPException 500 (lit "Internal server error")).

Definition process_message (clk : Clock) (request : MessageRequest.t F)
  : M Globals MessageResponse.t :=
  try_except (process_message_try clk request) process_message_except.

Definition app_info (clk : Clock) : M Globals (json F) :=
  version <- read APP_VERSION ;;
  environment <- read ENVIRONMENT ;;
  start <- read APP_START_TIME ;;
  ret (JDict [(lit "application", JStr app_title);
              (lit "version", JStr version);
              (lit "environment", JStr environment);
              (lit "uptime_seconds", JFloat (round2 (fsub (time_time clk) start)));
              (lit "python_version", JStr sys_version);
              (lit "endpoints",
               JDict [(lit "health", JStr (lit "/health"));
                      (lit "ready", JStr (lit "/ready"));
                      (lit "metrics", JStr (lit "/metrics"));
                      (lit "docs", JStr (lit "/docs"));
                      (lit "process", JStr (lit "/api/process"))])]).


(** ** The framework around the handlers *)

(** What reading the body of a request gives, for a route that takes a body
    parameter.  The bytes are taken as JSON (the content type of the
    requests of the tests): [Loaded b] is the value of [json.loads], [None]
    for a request without body; [JSONDecodeError] is raised for a text that
    is not JSON, [UnicodeDecodeError] for bytes that are not a text. *)
Inductive Payload : Type :=
| Loaded (b : option (json F))
| JSONDecodeError (pos : Z) (error : str)
| UnicodeDecodeError.

(** A request as the router sees it. *)
Record Request : Type := {
  method : str;
  path : str;
  body : Payload
}.

(** One entry of the [detail] list of a 422 response. *)
Record ErrorDetails : Type := {
  type : str;
  loc : list str;
  error_msg : str;
  input : json F
}.

Definition error_json (e : ErrorDetails) : json F :=
  JDict [(lit "type", JStr (type e));
         (lit "loc", JList (map (fun s => JStr s) (loc e)));
         (lit "msg", JStr (error_msg e));
         (lit "input", input e)].

(** The entry for a body that is not JSON. *)
Definition json_invalid (pos : Z) (error : str) : json F :=
  JDict [(lit "type", JStr (lit "json_invalid"));
         (lit "loc", JList [JStr (lit "body"); JInt pos]);
         (lit "msg", JStr (lit "JSON decode error"));
         (lit "input", JDict []);
         (lit "ctx", JDict [(lit "error", JStr error)])].

(** Validation of the body parameter [request: MessageRequest] (pydantic 2,
    lax mode, on parsed JSON): a body is required and must be a dict (the
    value [null] is not one), the field [message] is required, and a [str]
    field takes a JSON string and nothing else; other members of the dict
    are ignored.  Every entry repeats the value it refuses as [input]. *)
Definition validate_MessageRequest (body : option (json F))
  : list ErrorDetails + MessageRequest.t F :=
  match body with
  | None =>
      inl [{| type := lit "missing"; loc := [lit "body"];
              error_msg := lit "Field required"; input := JNull |}]
  | Some (JDict items) =>
      match Json.get (lit "message") items with
      | None =>
          inl [{| type := lit "missing"; loc := [lit "body"; lit "message"];
                  error_msg := lit "Field required"; input := JDict items |}]
      | Some (JStr s) => inr {| MessageRequest.message := JStr s |}
      | Some v =>
          inl [{| type := lit "string_type"; loc := [lit "body"; lit "message"];
                  error_msg := lit "Input should be a valid string"; input := v |}]
      end
  | Some v =>
      inl [{| type := lit "model_attributes_type"; loc := [lit "body"];
              error_msg := lit "Input should be a valid dictionary or object to extract fields from";
              input := v |}]
  end.

(** What the framework makes of the body before it calls the handler: the
    request object, the entries of a [RequestValidationError], or no value
    at all when the body cannot be read. *)
Inductive BodyResult : Type :=
| Accepted (request : MessageRequest.t F)
| Rejected (errors : list (json F))
| Unreadable.

Definition read_body (payload : Payload) : BodyResult :=
  match payload with
  | Loaded b =>
      match validate_MessageRequest b with
      | inl errors => Rejected (map error_json errors)
      | inr request => Accepted request
      end
  | JSONDecodeError pos error => Rejected [json_invalid pos error]
  | UnicodeDecodeError => Unreadable
  end.

(** The content of the 422 response for a [RequestValidationError]. *)
Definition validation_error_content (errors : list (json F)) : json F :=
  JDict [(lit "detail", JList errors)].

(** A handler's return value that is not a [Response] is serialized and
    made the content of a [JSONResponse] with status 200, after the handler
    has returned: what the constructor raises is not raised inside the
    handler. *)
Definition serialize {A} (to_json : A -> json F) (m : M Globals A)
  : M Globals Response :=
  r <- m ;; JSONResponse_init 200 (to_json r) application_json.

(** The six routes of [main.py].  Any other request (the generated
    documentation, unknown paths, other methods) is answered by the framework
    alone and is not modelled: [None].  Only /api/process has a body
    parameter; the other routes do not read the body. *)
Definition route (clk : Clock) (req : Request) : option (M Globals Response) :=
  if PyStr.eqb (method req) (lit "GET") then
    if PyStr.eqb (path req) (lit "/") then
      Some (serialize (fun v => v) root)
    else if PyStr.eqb (path req) (lit "/health") then
      Some (serialize (@HealthResponse.to_json F) (health_check clk))
    else if PyStr.eqb (path req) (lit "/ready") then
      Some (readiness_check clk)
    else if PyStr.eqb (path req) (lit "/metrics") then
      Some (metrics clk)
    else if PyStr.eqb (path req) (lit "/api/info") then
      Some (serialize (fun v => v) (app_info clk))
    else None
  else if PyStr.eqb (method req) (lit "POST") then
    if PyStr.eqb (path req) (lit "/api/process") then
      Some (match read_body (body req) with
            | Unreadable =>
                raise (HTTPException 400 (lit "There was an error parsing the body"))
            | Rejected errors =>
                JSONResponse_init 422 (validation_error_content errors)
                  application_json
            | Accepted request =>
                serialize (@MessageResponse.to_json F) (process_message clk request)
            end)
    else None
  else None.

(** What the caller receives when the handler returned or raised: an
    [HTTPException] becomes its status code with [{"detail": detail}], any
    other exception the fixed 500 page of the server. *)
Definition respond (o : outcome Response) : Response :=
  match o with
  | Return r => r
  | Raise (HTTPException status_code detail) =>
      JSONResponse status_code (JDict [(lit "detail", JStr detail)]) application_json
  | Raise (Exception _) => PlainTextResponse 500 (lit "Internal Server Error")
  end.

(** One request against the process state [g].  Every [JSONResponse] of a
    route is made by [JSONResponse_init]: a content that cannot be rendered
    and encoded raises there and is answered with the 500 page, whatever
    status the response would have had. *)
Definition handle (g : Globals) (clk : Clock) (req : Request)
  : option (Globals * list LogRecord * Response) :=
  match route clk req with
  | Some m => let '(g', logs, o) := m g in Some (g', logs, respond o)
  | None => None
  end.

(** The requests of a process lifetime, served one after the other. *)
Fixpoint serve (g : Globals) (reqs : list (Clock * Request))
  : Globals * list (option Response) :=
  match reqs with
  | [] => (g, [])
  | (clk, req) :: reqs' =>
      match handle g clk req with
      | Some (g', _, resp) =>
          let '(g'', resps) := serve g' reqs' in (g'', Some resp :: resps)
      | None =>
          let '(g'', resps) := serve g reqs' in (g'', None :: resps)
      end
  end.

(** The process: import of the module, then the requests. *)
Definition lifetime (environ : str -> option str) (start : F)
  (reqs : list (Clock * Request)) : Globals * list (option Response) :=
  serve (import_main environ start) reqs.

(** Requests: any request with this method and path, whatever its body. *)
Definition request (m p : string) (b : option (json F)) : Request :=
  {| method := lit m; path := lit p; body := Loaded b |}.

Definition GET (p : string) : Request := request "GET" p None.

Definition POST (p : string) (b : json F) : Request := request "POST" p (Some b).

(** The response to a request, when the request is one of the six routes. *)
Definition response_of (g : Globals) (clk : Clock) (req : Request)
  : option Response :=
  option_map snd (handle g clk req).

(** The member [key] of a response whose content is a JSON object. *)
Definition field (key : str) (r : option Response) : option (json F) :=
  match r with
  | Some (JSONResponse _ (JDict items) _) => Json.get key items
  | _ => None
  end.

(** The [uptime_seconds] a response reports. *)
Definition uptime_seconds_of (r : option Response) : option F :=
  match field (lit "uptime_seconds") r with
  | Some (JFloat x) => Some x
  | _ => None
  end.

(** The [message] member of a request body, when the body is a JSON object
    that has one. *)
Definition message_field (b : option (json F)) : option (json F) :=
  match b with
  | Some (JDict items) => Json.get (lit "message") items
  | _ => None
  end.

(** The value [json.loads] gave for a payload, if it gave one. *)
Definition loaded (payload : Payload) : option (json F) :=
  match payload with
  | Loaded b => b
  | _ => None
  end.

(** The conditions under which a body that reports the configuration and an
    uptime can be sent: the version and the environment are texts without
    surrogates (an environment variable whose bytes are not UTF-8 gives
    one), and the float is finite and so is written in digits. *)
Definition sendable_config (g : Globals) : bool :=
  Utf8.encodable (APP_VERSION g) && Utf8.encodable (ENVIRONMENT g).

Definition sendable_float (x : F) : bool :=
  isfinite x && Utf8.encodable (frepr x).

End Service.

Arguments Globals F : clear implicits.
Arguments Clock F : clear implicits.
Arguments Response F : clear implicits.
Arguments Request F : clear implicits.
Arguments Payload F : clear implicits.
Arguments UnicodeDecodeError {F}.
Arguments JSONDecodeError {F} pos error.
Arguments BodyResult F : clear implicits.
Arguments Unreadable {F}.

(** An interpreter to run the examples on. *)
#[global] Instance cpython : Interpreter :=
  {| sys_version := lit "3.11.2 (main) [GCC 12.2.0]" |}.

(** A process started on 2024-01-01 at 00:00:00 UTC with an empty
    environment, and some clock readings after the start: a millisecond,
    two milliseconds, 1.234 seconds and one minute. *)
Module Sample.

Definition environ : str -> option str := fun _ => None.

Definition globals : Globals float := import_main environ 1704067200%float.

Definition clock_1ms : Clock float :=
  {| time_time := 1704067200.001%float;
     utcnow := Build_datetime 2024 1 1 0 0 0 1000 |}.

Definition clock_2ms : Clock float :=
  {| time_time := 1704067200.002%float;
     utcnow := Build_datetime 2024 1 1 0 0 0 2000 |}.

Definition clock_1s : Clock float :=
  {| time_time := 1704067201.234%float;
     utcnow := Build_datetime 2024 1 1 0 0 1 234000 |}.

Definition clock_1min : Clock float :=
  {| time_time := 1704067260%float;
     utcnow := Build_datetime 2024 1 1 0 1 0 0 |}.

(** Two calls of /health in the life of that process. *)
Definition requests : list (Clock float * Request float) :=
  [(clock_1ms, GET "/health"); (clock_1s, GET "/health")].

(** The same process and two of the readings in exact arithmetic. *)
Definition exact_start : Q := 1704067200 # 1.

Definition exact_clock_1ms : Clock Q :=
  {| time_time := 1704067200001 # 1000;
     utcnow := Build_datetime 2024 1 1 0 0 0 1000 |}.

Definition exact_clock_1s : Clock Q :=
  {| time_time := 1704067201234 # 1000;
     utcnow := Build_datetime 2024 1 1 0 0 1 234000 |}.

Definition hello : list (str * json float) :=
  [(lit "message", JStr (lit "hello world"))].

(** An environment whose [APP_VERSION] is not text: the variable holds the
    byte 0xFF, which [os.environ] gives as the lone surrogate U+DCFF. *)
Definition environ_bytes : str -> option str :=
  fun key => if PyStr.eqb key (lit "APP_VERSION") then Some [56575] else None.

(** A message with a lone surrogate, as the JSON text ["\ud800"] gives. *)
Definition surrogate : list (str * json float) :=
  [(lit "message", JStr [55296])].

End Sample.


(** ** Reading a JSON string back

    The test client parses the body it receives with [json.loads].  For
    /metrics the body is one JSON string; this is the scanner for it
    ([json.decoder.scanstring], strict mode). *)

Module JsonDecoder.

Definition hexval (d : codepoint) : option Z :=
  if (48 <=? d) && (d <=? 57) then Some (d - 48)
  else if (97 <=? d) && (d <=? 102) then Some (d - 87)
  else if (65 <=? d) && (d <=? 70) then Some (d - 55)
  else None.

(** Four hexadecimal digits, most significant first. *)
Definition hex4 (h1 h2 h3 h4 : codepoint) : option Z :=
  match hexval h1, hexval h2, hexval h3, hexval h4 with
  | Some a, Some b, Some c, Some d => Some (((a * 16 + b) * 16 + c) * 16 + d)
  | _, _, _, _ => None
  end.

(** The character after a backslash, other than [u]. *)
Definition unescape (e : codepoint) : option codepoint :=
  if e =? 34 then Some 34
  else if e =? 92 then Some 92
  else if e =? 47 then Some 47
  else if e =? 98 then Some 8
  else if e =? 102 then Some 12
  else if e =? 110 then Some 10
  else if e =? 114 then Some 13
  else if e =? 116 then Some 9
  else None.

Definition is_high_surrogate (c : Z) : bool := (55296 <=? c) && (c <=? 56319).
Definition is_low_surrogate (c : Z) : bool := (56320 <=? c) && (c <=? 57343).
Definition join_surrogates (hi lo : Z) : Z :=
  65536 + Z.lor (Z.shiftl (hi - 55296) 10) (lo - 56320).

Definition push (c : codepoint) (r : option (str * str)) : option (str * str) :=
  match r with
  | Some (decoded, rest) => Some (c :: decoded, rest)
  | None => None
  end.

(** [scanstring(s, end)] on the text after the opening quote: the decoded
    string and the text after the closing quote, [None] for a
    [JSONDecodeError].  A [\uXXXX] escape must be followed by at least one
    more character; a high surrogate is joined with a low surrogate escape
    that follows it, when that one too is followed by a character. *)
Fixpoint scanstring (s : str) : option (str * str) :=
  match s with
  | [] => None
  | d :: s1 =>
      if d =? 34 then Some ([], s1)
      else if d =? 92 then
        match s1 with
        | [] => None
        | e :: s2 =>
            if e =? 117 then
              match s2 with
              | h1 :: h2 :: h3 :: h4 :: s6 =>
                  match s6 with
                  | [] => None
                  | _ :: _ =>
                      match hex4 h1 h2 h3 h4 with
                      | None => None
                      | Some c =>
                          match s6 with
                          | b :: u :: k1 :: k2 :: k3 :: k4 :: s12 =>
                              if is_high_surrogate c && (b =? 92) && (u =? 117)
                                 && (match s12 with [] => false | _ :: _ => true end)
                              then
                                match hex4 k1 k2 k3 k4 with
                                | None => None
                                | Some c2 =>
                                    if is_low_surrogate c2
                                    then push (join_surrogates c c2) (scanstring s12)
                                    else push c (scanstring s6)
                                end
                              else push c (scanstring s6)
                          | _ => push c (scanstring s6)
                          end
                      end
                  end
              | _ => None
              end
            else
              match unescape e with
              | Some c => push c (scanstring s2)
              | None => None
              end
        end
      else if (0 <=? d) && (d <=? 31) then None
      else push d (scanstring s1)
  end.

(** The white space [json.loads] skips around a value. *)
Definition is_whitespace (c : codepoint) : bool :=
  (c =? 32) || (c =? 9) || (c =? 10) || (c =? 13).

(** [json.loads(doc)] for a document that is one string; [None] when the
    document is something else or is not valid JSON. *)
Definition loads_str (doc : str) : option str :=
  match dropwhile is_whitespace doc with
  | [] => None
  | q :: s =>
      if q =? 34 then
        match scanstring s with
        | Some (decoded, rest) =>
            match dropwhile is_whitespace rest with
            | [] => Some decoded
            | _ :: _ => None
            end
        | None => None
        end
      else None
  end.

End JsonDecoder.


(** ** More on strings *)

Module StrUtil.

(** The first and the last character of [s], if any, are not whitespace. *)
Definition trimmed (s : str) : Prop :=
  match s with [] => True | c :: _ => isspace c = false end
  /\ match rev s with [] => True | c :: _ => isspace c = false end.

(** The code points from [lo] to [hi] of a range of [simple_upper]. *)
Definition range_members (r : Z * Z * Z * Z) : list Z :=
  let '(lo, hi, _, _) := r in
  map (fun i => lo + Z.of_nat i) (seq 0 (Z.to_nat (hi - lo + 1))).

(** The number a string of decimal digits writes. *)
Definition digits_value (s : str) : Z :=
  fold_left (fun acc c => acc * 10 + (c - 48)) s 0.

(** [str.upper] on ASCII. *)
Definition ascii_upper (c : codepoint) : codepoint :=
  if (97 <=? c) && (c <=? 122) then c - 32 else c.

Definition isascii (s : str) : bool :=
  forallb (fun c => (0 <=? c) && (c <? 128)) s.

Fixpoint startswith (prefix s : str) : bool :=
  match prefix, s with
  | [], _ => true
  | p :: prefix', c :: s' => (c =? p) && startswith prefix' s'
  | _ :: _, [] => false
  end.

(** [needle in s], decided. *)
Fixpoint isin (needle s : str) : bool :=
  startswith needle s
  || match s with
     | [] => false
     | _ :: s' => isin needle s'
     end.

End StrUtil.

Import StrUtil.

(** ** The server process

    [uvicorn.run("main:app")] imports the module, runs the startup handler,
    serves the requests and runs the shutdown handler.  The log of a run is
    what the handlers wrote, in that order. *)

Section Server.

Context {F : Type} `{FloatOps F} `{FloatRepr F} `{Interpreter}.

(** The records the requests of a lifetime write. *)
Fixpoint serve_log (g : Globals F) (reqs : list (Clock F * Request F))
  : list LogRecord :=
  match reqs with
  | [] => []
  | (clk, req) :: reqs' =>
      match handle g clk req with
      | Some (g', logs, _) => logs ++ serve_log g' reqs'
      | None => serve_log g reqs'
      end
  end.

(** The requests that make [process_message] write a record: the POSTs to
    /api/process whose body has a string [message]. *)
Definition logs_message (req : Request F) : bool :=
  PyStr.eqb (method req) (lit "POST")
  && PyStr.eqb (path req) (lit "/api/process")
  && match message_field (loaded (body req)) with
     | Some (JStr _) => true
     | _ => false
     end.

Definition run (environ : str -> option str) (start : F)
  (reqs : list (Clock F * Request F)) : list LogRecord * list (option (Response F)) :=
  let g0 := import_main environ start in
  match startup_event g0 with
  | (g1, logs1, Return _) =>
      let '(g2, resps) := serve g1 reqs in
      let '(_, logs3, _) := shutdown_event g2 in
      (logs1 ++ serve_log g1 reqs ++ logs3, resps)
  | (_, logs1, Raise _) => (logs1, [])
  end.

(** The file executed as the module [name], at the clock readings [times]
    of line 29.  Executed as [main], by [from main import app] or by a
    server that imports the application, the body makes the globals of that
    module and starts nothing.  Executed as [__main__], by [python main.py],
    it makes the globals of the script and reaches line 187, where
    [uvicorn.run("main:app")] imports the file once more, as the module
    [main], with globals of its own, and serves the application of that
    module.  The result is the list of the globals made, in the order of
    their making, and the run of the server if one was started. *)
Definition run_module (name : str) (environ : str -> option str) (times : F * F)
  (reqs : list (Clock F * Request F))
  : list (Globals F) * option (list LogRecord * list (option (Response F))) :=
  let g := import_main environ (fst times) in
  if PyStr.eqb name (lit "__main__")
  then ([g; import_main environ (snd times)], Some (run environ (snd times) reqs))
  else ([g], None).

End Server.

(** ** The tests of [test_app.py] that read the body

    A test is the conjunction of its assertions, as a function of what the
    test does not control: the state of the process and the clock readings
    at its calls.  [client.get(path)] is [response_of] for a GET request. *)

Module TestApp.

Section Tests.

Context {F : Type} `{FloatOps F} `{FloatRepr F} `{Interpreter}.

(** [response.json()] for a body that is one JSON string: the text of the
    body goes over the wire as UTF-8 and is parsed by [json.loads]; [None]
    when one of the steps fails. *)
Definition json_str (response : option (Response F)) : option str :=
  match response with
  | Some r =>
      match render r with
      | Some text =>
          match Utf8.encode text with
          | Some content =>
              match Utf8.decode content with
              | Some received => JsonDecoder.loads_str received
              | None => None
              end
          | None => None
          end
      | None => None
      end
  | None => None
  end.

Definition test_metrics_format (g : Globals F) (clk : Clock F) : bool :=
  let response := response_of g clk (GET "/metrics") in
  match json_str response with
  | Some content =>
      isin (lit "app_uptime_seconds") content
      && isin (lit "app_info") content
  | None => false
  end.

End Tests.

End TestApp.

(** Bodies for /api/process and clock readings to run the properties on. *)
Module Cases.

Definition body (message : str) : list (str * json float) :=
  [(lit "message", JStr message)].

Definition padded : str := lit "  test message  ".

Definition blank : str := [32; 9; 10].

(** "straße" *)
Definition strasse : str := lit "stra" ++ [223] ++ lit "e".

(** A call of /api/info and a later call of /health. *)
Definition mixed : list (Clock float * Request float) :=
  [(Sample.clock_1ms, GET "/api/info"); (Sample.clock_1s, GET "/health")].

(** Another start of the process, a second later. *)
Definition later_globals : Globals float := import_main Sample.environ 1704067201%float.

(** Two calls of /health after that start. *)
Definition later_requests : list (Clock float * Request float) :=
  [(Sample.clock_1s, GET "/health"); (Sample.clock_1min, GET "/health")].



End Cases.


(** * Properties *)

Unset Implicit Arguments.

(** ** Upper-casing and stripping *)

Section StrFacts.

Lemma eqb_eq (s t : str) : PyStr.eqb s t = true <-> s = t.
Proof.
  unfold PyStr.eqb. destruct (list_eq_dec Z.eq_dec s t); split; congruence.
Qed.

Lemma eqb_refl (s : str) : PyStr.eqb s s = true.
Proof. now apply eqb_eq. Qed.

Lemma isspace_In (c : codepoint) : isspace c = true <-> In c whitespace.
Proof.
  unfold isspace. rewrite existsb_exists. split.
  - intros (w & Hw & E). apply Z.eqb_eq in E. now subst.
  - intros Hc. exists c. split; [assumption | apply Z.eqb_refl].
Qed.

(** No whitespace character has a case mapping. *)
Lemma toupper_space (c : codepoint) : isspace c = true -> toupper_full c = [c].
Proof.
  intros Hc. apply isspace_In in Hc.
  assert (T : forallb (fun w => PyStr.eqb (toupper_full w) [w]) whitespace = true)
    by (vm_compute; reflexivity).
  rewrite forallb_forall in T. apply eqb_eq. now apply T.
Qed.

(** No case mapping produces a whitespace character, and none is empty. *)
Lemma toupper_nonspace (c : codepoint) :
  isspace c = false -> toupper_full c <> [] /\ no_space (toupper_full c) = true.
Proof.
  intros Hc. unfold toupper_full.
  destruct (find (fun e => fst e =? c) extended_upper) as [[k u]|] eqn:E.
  - apply find_some in E. destruct E as [E _].
    assert (T : forallb (fun e => negb (PyStr.eqb (snd e) []) && no_space (snd e))
                  extended_upper = true) by (vm_compute; reflexivity).
    rewrite forallb_forall in T. specialize (T _ E). cbn [snd] in T.
    apply andb_true_iff in T. destruct T as [T1 T2]. split; [|exact T2].
    intros ->. discriminate.
  - destruct (find (in_range c) simple_upper) as [[[[lo hi] step] delta]|] eqn:E2.
    + apply find_some in E2. destruct E2 as [E2 R].
      assert (T : forallb (fun r : Z * Z * Z * Z =>
                    let '(lo, hi, _, d) := r in
                    forallb (fun w => (w <? lo + d) || (hi + d <? w)) whitespace)
                    simple_upper = true) by (vm_compute; reflexivity).
      rewrite forallb_forall in T. specialize (T _ E2). cbn beta iota in T.
      rewrite forallb_forall in T.
      split; [discriminate|]. unfold no_space. cbn [forallb]. rewrite andb_true_r.
      apply negb_true_iff. destruct (isspace (c + delta)) eqn:S; [|reflexivity].
      apply isspace_In in S. specialize (T _ S).
      unfold in_range in R. lia.
    + split; [discriminate|]. unfold no_space. cbn [forallb]. now rewrite Hc.
Qed.

Lemma upper_app (s t : str) : upper (s ++ t) = upper s ++ upper t.
Proof. unfold upper. apply flat_map_app. Qed.

Lemma lstrip_nonspace_head (c : codepoint) (s : str) :
  isspace c = false -> lstrip (c :: s) = c :: s.
Proof. intros Hc. unfold lstrip. cbn [dropwhile]. now rewrite Hc. Qed.

Lemma upper_lstrip (s : str) : upper (lstrip s) = lstrip (upper s).
Proof.
  induction s as [|c s IH]; [reflexivity|].
  destruct (isspace c) eqn:Hc.
  - change (upper (c :: s)) with (toupper_full c ++ upper s).
    rewrite (toupper_space _ Hc). unfold lstrip in *.
    cbn [app dropwhile]. now rewrite Hc.
  - rewrite (lstrip_nonspace_head _ _ Hc).
    change (upper (c :: s)) with (toupper_full c ++ upper s).
    destruct (toupper_nonspace _ Hc) as [Hne Hns].
    destruct (toupper_full c) as [|x u]; [congruence|].
    cbn in Hns. apply andb_true_iff in Hns. destruct Hns as [Hx _].
    apply negb_true_iff in Hx. cbn [app]. now rewrite (lstrip_nonspace_head _ _ Hx).
Qed.

Lemma rstrip_snoc_space (s : str) (c : codepoint) :
  isspace c = true -> rstrip (s ++ [c]) = rstrip s.
Proof.
  intros Hc. unfold rstrip. rewrite rev_app_distr.
  cbn [rev app dropwhile]. now rewrite Hc.
Qed.

Lemma rstrip_snoc_nonspace (s : str) (c : codepoint) :
  isspace c = false -> rstrip (s ++ [c]) = s ++ [c].
Proof.
  intros Hc. unfold rstrip. rewrite rev_app_distr.
  cbn [rev app dropwhile]. rewrite Hc.
  cbn [rev]. now rewrite rev_involutive.
Qed.

Lemma upper_rstrip (s : str) : upper (rstrip s) = rstrip (upper s).
Proof.
  induction s as [|c s IH] using rev_ind; [reflexivity|].
  rewrite upper_app. change (upper [c]) with (toupper_full c ++ []).
  rewrite app_nil_r. destruct (isspace c) eqn:Hc.
  - rewrite (toupper_space _ Hc). now rewrite !rstrip_snoc_space by assumption.
  - rewrite (rstrip_snoc_nonspace _ _ Hc), upper_app.
    change (upper [c]) with (toupper_full c ++ []). rewrite app_nil_r.
    destruct (toupper_nonspace _ Hc) as [Hne Hns].
    destruct (exists_last Hne) as (u & x & E). rewrite E in *.
    unfold no_space in Hns. rewrite forallb_app in Hns.
    apply andb_true_iff in Hns. destruct Hns as [_ Hx]. cbn in Hx.
    rewrite andb_true_r in Hx. apply negb_true_iff in Hx.
    rewrite app_assoc. now rewrite (rstrip_snoc_nonspace _ _ Hx).
Qed.

(** The two orders of [upper] and [strip] give the same string. *)
Lemma upper_strip_commute (s : str) : strip (upper s) = upper (strip s).
Proof. unfold strip. now rewrite upper_rstrip, upper_lstrip. Qed.

End StrFacts.


(** ** Decimal formatting and the shape of [isoformat] *)

Section FmtFacts.

Lemma decimal_fuel_digits (fuel : nat) :
  forall n, 0 <= n -> forallb Fmt.isdigit (Fmt.decimal_fuel fuel n) = true.
Proof.
  induction fuel as [|fuel IH]; intros n Hn; [reflexivity|].
  cbn [Fmt.decimal_fuel]. destruct (n <? 10) eqn:E.
  - apply Z.ltb_lt in E. cbn [forallb]. unfold Fmt.isdigit, Fmt.digit.
    rewrite andb_true_r. apply andb_true_iff. split; apply Z.leb_le; lia.
  - rewrite forallb_app, IH by (apply Z.div_pos; lia).
    cbn [forallb andb]. unfold Fmt.isdigit, Fmt.digit.
    pose proof (Z.mod_pos_bound n 10 ltac:(lia)).
    rewrite andb_true_r. apply andb_true_iff. split; apply Z.leb_le; lia.
Qed.

Lemma decimal_fuel_length (fuel : nat) :
  forall (w : nat) n,
    0 <= n < 10 ^ Z.of_nat (S w) -> Z.log2 n < Z.of_nat fuel ->
    (1 <= List.length (Fmt.decimal_fuel fuel n) <= S w)%nat.
Proof.
  induction fuel as [|fuel IH]; intros w n Hn Hf.
  - pose proof (Z.log2_nonneg n). lia.
  - cbn [Fmt.decimal_fuel]. destruct (n <? 10) eqn:E; [cbn; lia|].
    apply Z.ltb_ge in E. rewrite length_app. cbn [List.length].
    destruct w as [|w]; [change (10 ^ Z.of_nat 1) with 10 in Hn; lia|].
    assert (H10 : 0 <= n / 10 < 10 ^ Z.of_nat (S w)).
    { split; [apply Z.div_pos; lia|].
      apply Z.div_lt_upper_bound; [lia|].
      replace (Z.of_nat (S (S w))) with (Z.succ (Z.of_nat (S w))) in Hn by lia.
      rewrite Z.pow_succ_r in Hn by lia. lia. }
    assert (Hl : Z.log2 (n / 10) < Z.of_nat fuel).
    { apply Z.log2_lt_pow2; [apply Z.div_str_pos; lia|].
      apply Z.log2_lt_pow2 in Hf; [|lia].
      replace (Z.of_nat (S fuel)) with (Z.succ (Z.of_nat fuel)) in Hf by lia.
      rewrite Z.pow_succ_r in Hf by lia.
      apply Z.div_lt_upper_bound; lia. }
    specialize (IH w (n / 10) H10 Hl). lia.
Qed.

(** A number below [10 ^ width] fills exactly [width] digits. *)
Lemma format_0d_shape (w : nat) (n : Z) :
  0 <= n < 10 ^ Z.of_nat (S w) ->
  List.length (Fmt.format_0d (S w) n) = S w
  /\ forallb Fmt.isdigit (Fmt.format_0d (S w) n) = true.
Proof.
  intros Hn. unfold Fmt.format_0d.
  destruct (Z.ltb_spec n 0) as [N|_]; [lia|]. cbv zeta.
  assert (L : (1 <= List.length (Fmt.decimal n) <= S w)%nat).
  { unfold Fmt.decimal. apply decimal_fuel_length; [assumption|].
    pose proof (Z.log2_nonneg n). lia. }
  split.
  - rewrite length_app, repeat_length. unfold codepoint in *. lia.
  - rewrite forallb_app. apply andb_true_iff. split.
    + apply forallb_forall. intros x Hx. apply repeat_spec in Hx. now subst.
    + apply decimal_fuel_digits. lia.
Qed.

Lemma matches_app (p1 p2 s1 s2 : str) :
  matches p1 s1 = true -> matches p2 s2 = true ->
  matches (p1 ++ p2) (s1 ++ s2) = true.
Proof.
  revert s1. induction p1 as [|p p1 IH]; intros [|c s1] H1 H2;
    cbn in *; try discriminate; [assumption|].
  apply andb_true_iff in H1. destruct H1 as [Hc H1].
  rewrite Hc. cbn. now apply IH.
Qed.

Lemma matches_digits (s : str) :
  forallb Fmt.isdigit s = true -> matches (repeat 100 (List.length s)) s = true.
Proof.
  induction s as [|c s IH]; [reflexivity|]. cbn [forallb List.length repeat matches].
  intros H. apply andb_true_iff in H. destruct H as [Hc Hs].
  rewrite Z.eqb_refl, Hc. cbn. now apply IH.
Qed.

Lemma format_0d_matches (w : nat) (n : Z) :
  0 <= n < 10 ^ Z.of_nat (S w) ->
  matches (repeat 100 (S w)) (Fmt.format_0d (S w) n) = true.
Proof.
  intros Hn. destruct (format_0d_shape w n Hn) as [L D].
  rewrite <- L at 1. now apply matches_digits.
Qed.

Lemma matches_length (p s : str) :
  matches p s = true -> List.length s = List.length p.
Proof.
  revert s. induction p as [|c p IH]; intros [|x s] H; cbn in *;
    try discriminate; [reflexivity|].
  apply andb_true_iff in H. destruct H as [_ H]. f_equal. now apply IH.
Qed.

Lemma days_in_month_le (y m : Z) : days_in_month y m <= 31.
Proof.
  unfold days_in_month.
  destruct (m =? 2); [destruct (is_leap y); lia|].
  destruct ((m =? 4) || (m =? 6) || (m =? 9) || (m =? 11)); lia.
Qed.

(** The two shapes of [isoformat]: with six digits of microseconds when
    they are not zero, without any fraction when they are. *)
Lemma isoformat_shape (d : datetime) :
  valid d = true ->
  if microsecond d =? 0 then matches shape_s (isoformat d) = true
  else matches shape_us (isoformat d) = true.
Proof.
  intros V. unfold valid in V.
  repeat (apply andb_true_iff in V; destruct V as [V ?]).
  pose proof (days_in_month_le (year d) (month d)).
  assert (Hy := format_0d_matches 3 (year d)).
  assert (Hmo := format_0d_matches 1 (month d)).
  assert (Hd := format_0d_matches 1 (day d)).
  assert (Hh := format_0d_matches 1 (hour d)).
  assert (Hmi := format_0d_matches 1 (minute d)).
  assert (Hs := format_0d_matches 1 (second d)).
  assert (Hu := format_0d_matches 5 (microsecond d)).
  change (10 ^ Z.of_nat 4) with 10000 in Hy.
  change (10 ^ Z.of_nat 2) with 100 in Hmo, Hd, Hh, Hmi, Hs.
  change (10 ^ Z.of_nat 6) with 1000000 in Hu.
  unfold isoformat.
  assert (Sep : forall c : Z, matches [c] [c] = true \/ c = 100).
  { intros c. cbn. destruct (c =? 100) eqn:E; [right; lia|left].
    now rewrite Z.eqb_refl. }
  destruct (microsecond d =? 0).
  - change shape_s with
      (repeat 100 4%nat ++ lit "-" ++ repeat 100 2%nat ++ lit "-"
       ++ repeat 100 2%nat ++ lit "T" ++ repeat 100 2%nat ++ lit ":"
       ++ repeat 100 2%nat ++ lit ":" ++ repeat 100 2%nat ++ []).
    repeat (apply matches_app; [first [apply Hy | apply Hmo | apply Hd | apply Hh
      | apply Hmi | apply Hs | reflexivity]; lia|]).
    reflexivity.
  - change shape_us with
      (repeat 100 4%nat ++ lit "-" ++ repeat 100 2%nat ++ lit "-"
       ++ repeat 100 2%nat ++ lit "T" ++ repeat 100 2%nat ++ lit ":"
       ++ repeat 100 2%nat ++ lit ":" ++ repeat 100 2%nat
       ++ lit "." ++ repeat 100 6%nat).
    repeat (apply matches_app; [first [apply Hy | apply Hmo | apply Hd | apply Hh
      | apply Hmi | apply Hs | reflexivity]; lia|]).
    apply Hu. lia.
Qed.

End FmtFacts.


(** ** Rounding to the nearest double

    Subtraction and [round] on doubles are related to exact integer
    arithmetic on values counted in units of [2 ^ -1074], the spacing of the
    smallest doubles. *)

Section Digits.

Lemma digits2_log2 (p : positive) : Zpos (digits2_pos p) = Z.log2 (Zpos p) + 1.
Proof.
  induction p as [p IH|p IH|]; cbn [digits2_pos]; [| |reflexivity].
  - rewrite Pos2Z.inj_succ, IH.
    change (Zpos p~1) with (2 * Zpos p + 1).
    rewrite Z.log2_succ_double by lia. lia.
  - rewrite Pos2Z.inj_succ, IH.
    change (Zpos p~0) with (2 * Zpos p).
    rewrite Z.log2_double by lia. lia.
Qed.

Lemma log2_bounds (n : Z) : 0 < n -> 2 ^ Z.log2 n <= n < 2 ^ (Z.log2 n + 1).
Proof. intros H. pose proof (Z.log2_spec n H). now rewrite <- Z.add_1_r in *. Qed.

Lemma pow2_pos (k : Z) : 0 <= k -> 0 < 2 ^ k.
Proof. intros. apply Z.pow_pos_nonneg; lia. Qed.

Lemma pow2_le (a b : Z) : 0 <= a <= b -> 2 ^ a <= 2 ^ b.
Proof. intros. apply Z.pow_le_mono_r; lia. Qed.

Lemma pow2_lt (a b : Z) : 0 <= a < b -> 2 ^ a < 2 ^ b.
Proof. intros. apply Z.pow_lt_mono_r; lia. Qed.

Lemma pow2_add (a b : Z) : 0 <= a -> 0 <= b -> 2 ^ (a + b) = 2 ^ a * 2 ^ b.
Proof. intros. apply Z.pow_add_r; lia. Qed.

End Digits.

Section Shr.

Lemma iter_pos_nat {A} (f : A -> A) (p : positive) (x : A) :
  iter_pos f p x = Nat.iter (Pos.to_nat p) f x.
Proof.
  revert x. induction p as [p IH|p IH|]; intros x; cbn [iter_pos].
  - rewrite !IH, Pos2Nat.inj_xI.
    replace (S (2 * Pos.to_nat p)) with (Pos.to_nat p + (Pos.to_nat p + 1))%nat by lia.
    rewrite !Nat.iter_add. reflexivity.
  - rewrite !IH, Pos2Nat.inj_xO.
    replace (2 * Pos.to_nat p)%nat with (Pos.to_nat p + Pos.to_nat p)%nat by lia.
    rewrite Nat.iter_add. reflexivity.
  - reflexivity.
Qed.

Lemma shr_1_nonneg (m : Z) (r s : bool) :
  0 <= m ->
  shr_1 (Build_shr_record m r s) = Build_shr_record (m / 2) (Z.odd m) (r || s).
Proof.
  intros Hm. rewrite <- Z.div2_div.
  destruct m as [|[p|p|]|p]; try lia; reflexivity.
Qed.

Lemma mod_pow2_succ (m k : Z) :
  0 <= k -> m mod 2 ^ (k + 1) = m mod 2 ^ k + 2 ^ k * Z.b2z (Z.testbit m k).
Proof.
  intros Hk. rewrite Z.pow_add_r, Z.pow_1_r by lia.
  rewrite Z.rem_mul_r by (try apply Z.pow_nonzero; lia).
  now rewrite Z.testbit_spec' by lia.
Qed.

Lemma iter_shr_1 (m : Z) (n : nat) :
  0 <= m ->
  Nat.iter n shr_1 (Build_shr_record m false false) = shifted m (Z.of_nat n).
Proof.
  intros Hm. induction n as [|n IH].
  - unfold shifted. cbn. now rewrite Z.div_1_r.
  - rewrite Nat.iter_succ, IH. unfold shifted.
    rewrite shr_1_nonneg by (apply Z.div_pos; [lia|apply Z.pow_pos_nonneg; lia]).
    replace (Z.of_nat (S n)) with (Z.of_nat n + 1) by lia.
    replace (Z.of_nat n + 1 =? 0) with false by (symmetry; apply Z.eqb_neq; lia).
    replace (Z.of_nat n + 1 - 1) with (Z.of_nat n) by lia.
    f_equal.
    + rewrite Z.div_div by (try apply Z.pow_pos_nonneg; lia).
      now rewrite Z.pow_add_r by lia.
    + rewrite Z.testbit_odd, Z.shiftr_div_pow2 by lia. reflexivity.
    + destruct (Z.of_nat n =? 0) eqn:E0.
      * apply Z.eqb_eq in E0. rewrite E0. cbn. now rewrite Z.mod_1_r.
      * apply Z.eqb_neq in E0.
        pose proof (mod_pow2_succ m (Z.of_nat n - 1) ltac:(lia)) as E.
        replace (Z.of_nat n - 1 + 1) with (Z.of_nat n) in E by lia.
        pose proof (Z.mod_pos_bound m (2 ^ (Z.of_nat n - 1))
                      ltac:(apply Z.pow_pos_nonneg; lia)) as B.
        assert (P : 0 < 2 ^ (Z.of_nat n - 1)) by (apply Z.pow_pos_nonneg; lia).
        destruct (Z.testbit m (Z.of_nat n - 1)); cbn [Z.b2z orb] in *.
        -- symmetry. apply negb_true_iff, Z.eqb_neq. lia.
        -- rewrite E. now rewrite Z.mul_0_r, Z.add_0_r.
Qed.

(** Shifting [n > 0] bits out and rounding to nearest even is division by
    [2 ^ n] rounded half to even. *)
Lemma round_shifted (m n : Z) :
  0 <= m -> 0 < n ->
  round_nearest_even (shr_m (shifted m n)) (loc_of_shr_record (shifted m n))
  = round_half_even m (2 ^ n).
Proof.
  intros Hm Hn. unfold shifted, round_half_even. cbn [shr_m].
  replace (n =? 0) with false by (symmetry; apply Z.eqb_neq; lia).
  pose proof (mod_pow2_succ m (n - 1) ltac:(lia)) as E.
  replace (n - 1 + 1) with n in E by lia.
  assert (P : 0 < 2 ^ (n - 1)) by (apply Z.pow_pos_nonneg; lia).
  assert (D : 2 ^ n = 2 * 2 ^ (n - 1)).
  { replace n with (n - 1 + 1) at 1 by lia. rewrite Z.pow_add_r by lia. lia. }
  pose proof (Z.mod_pos_bound m (2 ^ (n - 1)) P) as B.
  destruct (Z.testbit m (n - 1)); cbn [Z.b2z] in E;
    destruct (m mod 2 ^ (n - 1) =? 0) eqn:Z0; cbn [negb loc_of_shr_record round_nearest_even];
    [apply Z.eqb_eq in Z0|apply Z.eqb_neq in Z0|apply Z.eqb_eq in Z0|apply Z.eqb_neq in Z0].
  - replace (2 * (m mod 2 ^ n) ?= 2 ^ n) with Eq by (symmetry; apply Z.compare_eq_iff; lia).
    reflexivity.
  - replace (2 * (m mod 2 ^ n) ?= 2 ^ n) with Gt by (symmetry; apply Z.compare_gt_iff; lia).
    reflexivity.
  - replace (2 * (m mod 2 ^ n) ?= 2 ^ n) with Lt by (symmetry; apply Z.compare_lt_iff; lia).
    reflexivity.
  - replace (2 * (m mod 2 ^ n) ?= 2 ^ n) with Lt by (symmetry; apply Z.compare_lt_iff; lia).
    reflexivity.
Qed.

End Shr.

Section HalfEven.

Lemma round_half_even_mono (n1 d1 n2 d2 : Z) :
  0 < d1 -> 0 < d2 -> n1 * d2 <= n2 * d1 ->
  round_half_even n1 d1 <= round_half_even n2 d2.
Proof.
  intros H1 H2 Hle. unfold round_half_even.
  pose proof (Z.div_mod n1 d1 ltac:(lia)) as E1.
  pose proof (Z.div_mod n2 d2 ltac:(lia)) as E2.
  pose proof (Z.mod_pos_bound n1 d1 H1) as B1.
  pose proof (Z.mod_pos_bound n2 d2 H2) as B2.
  set (q1 := n1 / d1) in *. set (r1 := n1 mod d1) in *.
  set (q2 := n2 / d2) in *. set (r2 := n2 mod d2) in *.
  rewrite E1, E2 in Hle. clearbody q1 r1 q2 r2. clear E1 E2.
  assert (Hq : q1 <= q2).
  { destruct (Z.le_gt_cases q1 q2) as [L|G]; [assumption|exfalso].
    assert (A : d1 * d2 * (q2 + 1) <= d1 * d2 * q1)
      by (apply Z.mul_le_mono_nonneg_l; nia).
    assert (B : r2 * d1 < d2 * d1) by (apply Z.mul_lt_mono_pos_r; lia).
    assert (C : 0 <= r1 * d2) by (apply Z.mul_nonneg_nonneg; lia).
    lia. }
  destruct (Z.eq_dec q1 q2) as [Eq|Nq].
  - subst q2. assert (Hr : r1 * d2 <= r2 * d1) by lia.
    destruct (Z.compare_spec (2 * r1) d1) as [C1|C1|C1],
             (Z.compare_spec (2 * r2) d2) as [C2|C2|C2];
      destruct (Z.even q1); try lia; exfalso.
    all: try (subst d1; nia).
    all: try (subst d2; nia).
    all: nia.
  - destruct (Z.compare_spec (2 * r1) d1), (Z.compare_spec (2 * r2) d2);
      destruct (Z.even q1), (Z.even q2); lia.
Qed.

Lemma round_half_even_scale (n d c : Z) :
  0 < d -> 0 < c -> round_half_even (n * c) (d * c) = round_half_even n d.
Proof.
  intros Hd Hc. assert (0 < d * c) by nia.
  apply Z.le_antisymm; apply round_half_even_mono; try assumption; nia.
Qed.

Lemma round_half_even_exact (q d : Z) : 0 < d -> round_half_even (q * d) d = q.
Proof.
  intros Hd. unfold round_half_even.
  rewrite Z.div_mul, Z.mod_mul by lia.
  replace (2 * 0 ?= d) with Lt by (symmetry; apply Z.compare_lt_iff; lia).
  reflexivity.
Qed.

Lemma round_half_even_between (n d lo hi : Z) :
  0 < d -> lo * d <= n <= hi * d -> lo <= round_half_even n d <= hi.
Proof.
  intros Hd [L U]. split.
  - rewrite <- (round_half_even_exact lo d Hd).
    apply round_half_even_mono; try assumption. nia.
  - rewrite <- (round_half_even_exact hi d Hd).
    apply round_half_even_mono; try assumption. nia.
Qed.

End HalfEven.

Section Nearest.

Lemma fexp64 (b : Z) : fexp prec emax b = Z.max (b - 53) (-1074).
Proof. reflexivity. Qed.

Lemma pos_iter_xO (m d : positive) : Zpos (Pos.iter xO m d) = Zpos m * 2 ^ Zpos d.
Proof.
  induction d as [|d IH] using Pos.peano_ind.
  - cbn. lia.
  - rewrite Pos.iter_succ, Pos2Z.inj_succ, Z.pow_succ_r by lia.
    change (Zpos (Pos.iter xO m d)~0) with (2 * Zpos (Pos.iter xO m d)). lia.
Qed.

Lemma shr_fexp_exact (m e : Z) :
  0 <= m ->
  shr_fexp prec emax m e loc_Exact
  = let k := fexp prec emax (Zdigits2 m + e) - e in
    if 0 <? k then (shifted m k, e + k)
    else (Build_shr_record m false false, e).
Proof.
  intros Hm. unfold shr_fexp, shr. cbn [shr_record_of_loc].
  set (k := fexp prec emax (Zdigits2 m + e) - e).
  destruct k as [|p|p] eqn:E; cbn zeta; try reflexivity.
  replace (0 <? Zpos p) with true by reflexivity.
  rewrite iter_pos_nat, iter_shr_1 by assumption.
  now rewrite positive_nat_Z.
Qed.

Lemma Zdigits2_log2 (m : Z) : 0 < m -> Zdigits2 m = Z.log2 m + 1.
Proof. destruct m as [|p|p]; try lia. intros _. apply digits2_log2. Qed.

Lemma log2_mul_pow2 (m j : Z) : 0 < m -> 0 <= j -> Z.log2 (m * 2 ^ j) = Z.log2 m + j.
Proof. intros. rewrite <- Z.shiftl_mul_pow2 by lia. apply Z.log2_shiftl; lia. Qed.

End Nearest.

Section BinaryRound.

Lemma round_half_even_one (m : Z) : round_half_even m 1 = m.
Proof. rewrite <- (Z.mul_1_r m) at 1. apply round_half_even_exact. lia. Qed.

Lemma round_half_even_nonneg (n d : Z) : 0 < d -> 0 <= n -> 0 <= round_half_even n d.
Proof.
  intros Hd Hn. apply (round_half_even_between n d 0 (n + 1)); [assumption|nia].
Qed.

(** What [binary_round_aux] computes from an exact mantissa. *)
Lemma binary_round_aux_exact (s : bool) (m e : Z) :
  0 < m ->
  let k1 := Z.max 0 (fexp prec emax (Zdigits2 m + e) - e) in
  let m1 := round_half_even m (2 ^ k1) in
  let e1 := e + k1 in
  let k2 := Z.max 0 (fexp prec emax (Zdigits2 m1 + e1) - e1) in
  binary_round_aux prec emax s m e loc_Exact
  = match m1 / 2 ^ k2 with
    | Z0 => S754_zero s
    | Zpos p => if e1 + k2 <=? emax - prec
                then S754_finite s p (e1 + k2) else S754_infinity s
    | Zneg _ => S754_nan
    end.
Proof.
  intros Hm k1 m1 e1 k2. unfold binary_round_aux.
  rewrite shr_fexp_exact by lia. cbv zeta.
  assert (S1 : (if 0 <? fexp prec emax (Zdigits2 m + e) - e
                then (shifted m (fexp prec emax (Zdigits2 m + e) - e),
                      e + (fexp prec emax (Zdigits2 m + e) - e))
                else (Build_shr_record m false false, e))
               = ((if 0 <? k1 then shifted m k1 else Build_shr_record m false false), e1)).
  { subst e1 k1. destruct (0 <? fexp prec emax (Zdigits2 m + e) - e) eqn:P.
    - apply Z.ltb_lt in P. rewrite Z.max_r by lia.
      replace (0 <? _) with true by (symmetry; apply Z.ltb_lt; lia). reflexivity.
    - apply Z.ltb_ge in P. rewrite Z.max_l by lia.
      cbn. now rewrite Z.add_0_r. }
  rewrite S1. clear S1.
  assert (R1 : round_nearest_even
                 (shr_m (if 0 <? k1 then shifted m k1 else Build_shr_record m false false))
                 (loc_of_shr_record
                    (if 0 <? k1 then shifted m k1 else Build_shr_record m false false))
               = m1).
  { subst m1. destruct (0 <? k1) eqn:P.
    - apply Z.ltb_lt in P. apply round_shifted; lia.
    - apply Z.ltb_ge in P. assert (k1 = 0) by (subst k1; lia).
      replace k1 with 0 by lia. cbn [shr_m loc_of_shr_record round_nearest_even].
      change (2 ^ 0) with 1. now rewrite round_half_even_one. }
  rewrite R1. clear R1.
  assert (N1 : 0 <= m1).
  { subst m1. apply round_half_even_nonneg; [apply pow2_pos; subst k1; lia|lia]. }
  rewrite shr_fexp_exact by assumption. cbv zeta.
  assert (S2 : (if 0 <? fexp prec emax (Zdigits2 m1 + e1) - e1
                then (shifted m1 (fexp prec emax (Zdigits2 m1 + e1) - e1),
                      e1 + (fexp prec emax (Zdigits2 m1 + e1) - e1))
                else (Build_shr_record m1 false false, e1))
               = ((if 0 <? k2 then shifted m1 k2 else Build_shr_record m1 false false),
                  e1 + k2)).
  { subst k2. destruct (0 <? fexp prec emax (Zdigits2 m1 + e1) - e1) eqn:P.
    - apply Z.ltb_lt in P. rewrite Z.max_r by lia.
      replace (0 <? _) with true by (symmetry; apply Z.ltb_lt; lia). reflexivity.
    - apply Z.ltb_ge in P. rewrite Z.max_l by lia.
      cbn. now rewrite Z.add_0_r. }
  rewrite S2. clear S2.
  assert (M2 : shr_m (if 0 <? k2 then shifted m1 k2 else Build_shr_record m1 false false)
               = m1 / 2 ^ k2).
  { destruct (0 <? k2) eqn:P; [reflexivity|].
    apply Z.ltb_ge in P. assert (k2 = 0) by (subst k2; lia).
    replace k2 with 0 by lia. cbn [shr_m]. change (2 ^ 0) with 1.
    now rewrite Z.div_1_r. }
  rewrite M2. reflexivity.
Qed.

End BinaryRound.

Section BinaryRoundUnits.

Lemma Zdigits2_pow2 (k : Z) : 0 <= k -> Zdigits2 (2 ^ k) = k + 1.
Proof.
  intros Hk. rewrite Zdigits2_log2 by (apply pow2_pos; lia).
  now rewrite Z.log2_pow2.
Qed.

Lemma log2_lt_pow2 (m k : Z) : 0 < m -> m < 2 ^ k -> Z.log2 m < k.
Proof. intros Hm H. now apply Z.log2_lt_pow2. Qed.

(** [binary_round_aux] on an exact mantissa whose exponent is not above
    the one of its binade is the rounding of the value in units. *)
Lemma binary_round_aux_units (s : bool) (m e : Z) :
  0 < m -> -1074 <= e -> e <= fexp prec emax (Zdigits2 m + e) ->
  binary_round_aux prec emax s m e loc_Exact
  = round_units s (m * 2 ^ (e + 1074)) 1.
Proof.
  intros Hm He Hal. rewrite binary_round_aux_exact by assumption. cbv zeta.
  rewrite Zdigits2_log2 in * by assumption. rewrite fexp64 in *.
  set (L := Z.log2 m) in *.
  pose proof (log2_bounds m Hm) as BL. fold L in BL.
  assert (HL : 0 <= L) by apply Z.log2_nonneg.
  set (E := Z.max (L + 1 + e - 53) (-1074)) in *.
  rewrite (Z.max_r 0 (E - e)) by lia.
  replace (e + (E - e)) with E by lia.
  set (k1 := E - e). assert (Hk1 : 0 <= k1) by (subst k1; lia).
  set (m1 := round_half_even m (2 ^ k1)).
  (* the mantissa after the first rounding *)
  assert (P1 : 0 < 2 ^ k1) by (apply pow2_pos; lia).
  assert (B1 : 1 <= m1 <= 2 ^ 53 /\ (0 < k1 -> 2 ^ 52 <= m1)).
  { destruct (Z.eq_dec k1 0) as [Z0|NZ].
    - assert (m1 = m).
      { subst m1. rewrite Z0. change (2 ^ 0) with 1. apply round_half_even_one. }
      assert (L <= 52) by (subst k1 E; lia).
      assert (2 ^ (L + 1) <= 2 ^ 53) by (apply pow2_le; lia).
      lia.
    - assert (k1 = L - 52) by (subst k1 E; lia).
      assert (X : 2 ^ L = 2 ^ 52 * 2 ^ k1)
        by (rewrite <- pow2_add by lia; f_equal; lia).
      assert (Y : 2 ^ (L + 1) = 2 ^ 53 * 2 ^ k1)
        by (rewrite <- pow2_add by lia; f_equal; lia).
      pose proof (round_half_even_between m (2 ^ k1) (2 ^ 52) (2 ^ 53) P1
                    ltac:(lia)) as B.
      fold m1 in B. assert (0 < 2 ^ 52) by (apply pow2_pos; lia). lia. }
  (* the right-hand side *)
  unfold round_units, round_key, of_key. rewrite Z.div_1_r, Z.mul_1_l.
  rewrite log2_mul_pow2 by lia. fold L.
  assert (Hk : Z.max (L + (e + 1074) - 52) 0 = E + 1074) by (subst E; lia).
  rewrite Hk.
  assert (V : round_half_even (m * 2 ^ (e + 1074)) (2 ^ (E + 1074)) = m1).
  { subst m1. replace (E + 1074) with (k1 + (e + 1074)) by (subst k1; lia).
    rewrite (pow2_add k1 (e + 1074)) by lia.
    apply round_half_even_scale; [assumption|apply pow2_pos; lia]. }
  rewrite V.
  destruct (Z.eq_dec m1 (2 ^ 53)) as [T|T].
  - rewrite T, Z.eqb_refl. cbn [fst snd].
    rewrite Zdigits2_pow2, fexp64 by lia.
    replace (Z.max 0 (Z.max (53 + 1 + E - 53) (-1074) - E)) with 1 by (subst E; lia).
    change (2 ^ 53 / 2 ^ 1) with (2 ^ 52). change (2 ^ 52) with (Zpos (2 ^ 52)).
    replace (E + 1074 + 1 <=? 2045) with (E + 1 <=? emax - prec).
    2:{ change (emax - prec) with 971. destruct (E + 1 <=? 971) eqn:C; symmetry;
        [apply Z.leb_le in C; apply Z.leb_le|apply Z.leb_gt in C; apply Z.leb_gt]; lia. }
    replace (E + 1074 + 1 - 1074) with (E + 1) by lia. reflexivity.
  - replace (m1 =? 2 ^ 53) with false by (symmetry; apply Z.eqb_neq; assumption).
    cbn [fst snd].
    assert (D : Z.log2 m1 < 53) by (apply log2_lt_pow2; lia).
    rewrite Zdigits2_log2, fexp64 by lia.
    replace (Z.max 0 (Z.max (Z.log2 m1 + 1 + E - 53) (-1074) - E)) with 0
      by (subst E; lia).
    change (2 ^ 0) with 1. rewrite Z.div_1_r, Z.add_0_r.
    destruct m1 as [|p|p]; try lia.
    replace (E + 1074 <=? 2045) with (E <=? emax - prec).
    2:{ change (emax - prec) with 971. destruct (E <=? 971) eqn:C; symmetry;
        [apply Z.leb_le in C; apply Z.leb_le|apply Z.leb_gt in C; apply Z.leb_gt]; lia. }
    replace (E + 1074 - 1074) with E by lia. reflexivity.
Qed.

(** [binary_round] is the rounding of the value in units. *)
Lemma binary_round_units (s : bool) (m : positive) (e : Z) :
  -1074 <= e ->
  binary_round prec emax s m e = round_units s (Zpos m * 2 ^ (e + 1074)) 1.
Proof.
  intros He. unfold binary_round, shl_align.
  rewrite digits2_log2, fexp64.
  set (L := Z.log2 (Zpos m)). assert (HL : 0 <= L) by apply Z.log2_nonneg.
  set (E := Z.max (L + 1 + e - 53) (-1074)).
  destruct (E - e) as [|p|p] eqn:D.
  - apply binary_round_aux_units; [lia|lia|].
    rewrite Zdigits2_log2, fexp64 by lia. fold L E. lia.
  - apply binary_round_aux_units; [lia|lia|].
    rewrite Zdigits2_log2, fexp64 by lia. fold L E. lia.
  - assert (Ee : e = E + Zpos p) by lia.
    rewrite binary_round_aux_units.
    + rewrite pos_iter_xO. f_equal. rewrite <- Z.mul_assoc, <- pow2_add by lia.
      do 2 f_equal. lia.
    + lia.
    + subst E. lia.
    + rewrite pos_iter_xO, Zdigits2_log2, fexp64, log2_mul_pow2 by
        (try apply Z.mul_pos_pos; try apply pow2_pos; lia).
      fold L. lia.
Qed.

End BinaryRoundUnits.

Section RoundKey.

Lemma div_bounds (n den : Z) :
  0 < den -> n / den * den <= n < (n / den + 1) * den.
Proof.
  intros Hd. pose proof (Z.div_mod n den ltac:(lia)).
  pose proof (Z.mod_pos_bound n den Hd). nia.
Qed.

Lemma round_key_facts (n den : Z) :
  0 <= n -> 0 < den ->
  let k := Z.max (Z.log2 (n / den) - 52) 0 in
  let v := round_half_even n (den * 2 ^ k) in
  0 <= v <= 2 ^ 53 /\ (0 < k -> 2 ^ 52 <= v).
Proof.
  intros Hn Hd k v.
  pose proof (div_bounds n den Hd) as Bq.
  assert (Hq : 0 <= n / den) by (apply Z.div_pos; lia).
  set (q := n / den) in *.
  assert (Pk : 0 < 2 ^ k) by (apply pow2_pos; subst k; lia).
  assert (Pd : 0 < den * 2 ^ k) by nia.
  assert (P52 : 0 < 2 ^ 52) by (apply pow2_pos; lia).
  destruct (Z.eq_dec q 0) as [Q0|Q0].
  - assert (k = 0) by (subst k; rewrite Q0; cbn; lia).
    subst v. replace k with 0 in * by lia. change (2 ^ 0) with 1 in *.
    split; [|lia].
    apply round_half_even_between; [lia|]. lia.
  - pose proof (log2_bounds q ltac:(lia)) as BL.
    set (L := Z.log2 q) in *. assert (0 <= L) by apply Z.log2_nonneg.
    destruct (Z.eq_dec k 0) as [K0|K0].
    + assert (2 ^ (L + 1) <= 2 ^ 53) by (apply pow2_le; subst k; lia).
      subst v. replace k with 0 in * by lia. change (2 ^ 0) with 1 in *.
      split; [|lia].
      apply round_half_even_between; [lia|]. nia.
    + assert (KL : L = k + 52) by (subst k; lia).
      assert (X : 2 ^ L = 2 ^ 52 * 2 ^ k)
        by (rewrite <- pow2_add by lia; f_equal; lia).
      assert (Y : 2 ^ (L + 1) = 2 ^ 53 * 2 ^ k)
        by (rewrite <- pow2_add by lia; f_equal; lia).
      assert (B : 2 ^ 52 <= v <= 2 ^ 53).
      { subst v. apply round_half_even_between; [assumption|]. nia. }
      lia.
Qed.

Lemma round_key_ok (n den : Z) : 0 <= n -> 0 < den -> key_ok (round_key n den).
Proof.
  intros Hn Hd. pose proof (round_key_facts n den Hn Hd) as [B1 B2].
  cbv zeta in B1, B2. unfold round_key, key_ok.
  set (k := Z.max (Z.log2 (n / den) - 52) 0) in *.
  set (v := round_half_even n (den * 2 ^ k)) in *.
  assert (0 <= k) by (subst k; lia).
  destruct (Z.eqb_spec v (2 ^ 53)); cbn [fst snd].
  - assert (2 ^ 52 < 2 ^ 53) by (apply pow2_lt; lia).
    assert (0 < 2 ^ 52) by (apply pow2_pos; lia). lia.
  - lia.
Qed.

Lemma round_key_mono (n1 d1 n2 d2 : Z) :
  0 <= n1 -> 0 < d1 -> 0 <= n2 -> 0 < d2 -> n1 * d2 <= n2 * d1 ->
  key_le (round_key n1 d1) (round_key n2 d2).
Proof.
  intros Hn1 Hd1 Hn2 Hd2 Hle.
  pose proof (round_key_facts n1 d1 Hn1 Hd1) as [A1 A2].
  pose proof (round_key_facts n2 d2 Hn2 Hd2) as [B1 B2].
  cbv zeta in A1, A2, B1, B2. unfold round_key, key_le.
  assert (Hq : n1 / d1 <= n2 / d2).
  { pose proof (div_bounds n1 d1 Hd1). pose proof (div_bounds n2 d2 Hd2).
    destruct (Z.le_gt_cases (n1 / d1) (n2 / d2)) as [L|G]; [assumption|exfalso].
    assert (A : d1 * d2 * (n2 / d2 + 1) <= d1 * d2 * (n1 / d1))
      by (apply Z.mul_le_mono_nonneg_l; nia).
    nia. }
  assert (Hk : Z.max (Z.log2 (n1 / d1) - 52) 0 <= Z.max (Z.log2 (n2 / d2) - 52) 0).
  { pose proof (Z.log2_le_mono _ _ Hq). lia. }
  set (k1 := Z.max (Z.log2 (n1 / d1) - 52) 0) in *.
  set (k2 := Z.max (Z.log2 (n2 / d2) - 52) 0) in *.
  set (v1 := round_half_even n1 (d1 * 2 ^ k1)) in *.
  set (v2 := round_half_even n2 (d2 * 2 ^ k2)) in *.
  assert (0 <= k1) by (subst k1; lia).
  assert (P52 : 2 ^ 52 < 2 ^ 53) by (apply pow2_lt; lia).
  destruct (Z.eq_dec k1 k2) as [Ek|Nk].
  - assert (Hv : v1 <= v2).
    { subst v1 v2. rewrite <- Ek.
      assert (0 < 2 ^ k1) by (apply pow2_pos; lia).
      apply round_half_even_mono; nia. }
    destruct (Z.eqb_spec v1 (2 ^ 53)), (Z.eqb_spec v2 (2 ^ 53)); cbn [fst snd]; lia.
  - destruct (Z.eqb_spec v1 (2 ^ 53)), (Z.eqb_spec v2 (2 ^ 53)); cbn [fst snd]; lia.
Qed.

End RoundKey.

Section Keys.

Lemma log2_eq_52 (m : Z) : 2 ^ 52 <= m < 2 ^ 53 -> Z.log2 m = 52.
Proof.
  intros B. assert (0 < 2 ^ 52) by (apply pow2_pos; lia).
  apply Z.log2_unique; [lia|]. exact B.
Qed.

(** The valid finite floats are the keys of the format that are not above
    the largest exponent. *)
Lemma valid_finite_key (s : bool) (m : positive) (e : Z) :
  valid_binary (S754_finite s m e) = true
  <-> key_ok (e + 1074, Zpos m) /\ e + 1074 <= 2045.
Proof.
  unfold SpecFloat.valid_binary, bounded, canonical_mantissa, key_ok. cbn [fst snd].
  rewrite andb_true_iff, Z.eqb_eq, Z.leb_le, fexp64, digits2_log2.
  change (emax - prec) with 971.
  pose proof (log2_bounds (Zpos m) ltac:(lia)) as BL.
  pose proof (Z.log2_nonneg (Zpos m)) as NL.
  set (L := Z.log2 (Zpos m)) in *.
  split.
  - intros [C B].
    assert (L <= 52) by lia.
    assert (2 ^ (L + 1) <= 2 ^ 53) by (apply pow2_le; lia).
    repeat split; try lia.
    intros P. assert (L = 52) by lia. subst L. rewrite <- H1. lia.
  - intros [(K1 & K2 & K3) B].
    assert (L < 53) by (apply log2_lt_pow2; lia).
    split; [|lia].
    destruct (Z.eq_dec (e + 1074) 0) as [Z0|NZ]; [lia|].
    assert (L = 52) by (apply log2_eq_52; lia). lia.
Qed.

Lemma of_key_valid (s : bool) (a : Z * Z) :
  key_ok a -> valid_binary (of_key s a) = true.
Proof.
  intros K. unfold of_key. destruct a as [k m]. cbn [fst snd] in *.
  destruct m as [|p|p]; try reflexivity.
  destruct (Z.leb_spec k 2045); [|reflexivity].
  apply valid_finite_key. replace (k - 1074 + 1074) with k by lia. now split.
Qed.

Lemma key_le_value (a b : Z * Z) :
  key_ok a -> key_ok b -> (key_le a b <-> key_value a <= key_value b).
Proof.
  intros (A1 & A2 & A3) (B1 & B2 & B3). unfold key_le, key_value.
  destruct a as [ka ma], b as [kb mb]. cbn [fst snd] in *.
  assert (Pa : 0 < 2 ^ ka) by (apply pow2_pos; lia).
  assert (Pb : 0 < 2 ^ kb) by (apply pow2_pos; lia).
  assert (below : forall k m k' m', 0 <= k < k' -> 0 <= m < 2 ^ 53 ->
            2 ^ 52 <= m' -> m * 2 ^ k < m' * 2 ^ k').
  { intros k m k' m' Hk Hm Hm'.
    assert (0 < 2 ^ k) by (apply pow2_pos; lia).
    assert (E : 2 ^ k' = 2 ^ (k' - k - 1) * 2 * 2 ^ k).
    { replace k' with ((k' - k - 1) + 1 + k) at 1 by lia.
      rewrite !pow2_add by lia. reflexivity. }
    assert (0 < 2 ^ (k' - k - 1)) by (apply pow2_pos; lia).
    change (2 ^ 53) with (2 * 2 ^ 52) in Hm. rewrite E. nia. }
  split.
  - intros [L|[E L]].
    + apply Z.lt_le_incl, below; lia.
    + subst kb. nia.
  - intros V. destruct (Z.lt_trichotomy ka kb) as [L|[E|G]].
    + now left.
    + right. split; [assumption|]. subst kb. nia.
    + exfalso. pose proof (below kb mb ka ma ltac:(lia) ltac:(lia) ltac:(lia)). lia.
Qed.

Lemma of_key_le (a b : Z * Z) :
  key_ok a -> key_ok b -> key_le a b ->
  SFleb (of_key false a) (of_key false b) = true
  /\ SFleb (of_key true b) (of_key true a) = true.
Proof.
  intros (A1 & A2 & A3) (B1 & B2 & B3) L. unfold key_le in L.
  destruct a as [ka ma], b as [kb mb]. unfold of_key. cbn [fst snd] in *.
  assert (P52 : 0 < 2 ^ 52) by (apply pow2_pos; lia).
  destruct ma as [|pa|pa], mb as [|pb|pb]; try lia;
    destruct (Z.leb_spec ka 2045), (Z.leb_spec kb 2045); try lia;
    unfold SFleb, SFcompare; try (split; reflexivity).
  split.
  - destruct (Z.compare_spec (ka - 1074) (kb - 1074)) as [E|E|E]; try lia;
      try reflexivity.
    rewrite Pos.compare_cont_spec. cbn [Pos.switch_Eq].
    destruct (Pos.compare_spec pa pb); try lia; reflexivity.
  - destruct (Z.compare_spec (kb - 1074) (ka - 1074)) as [E|E|E]; try lia;
      try reflexivity.
    rewrite Pos.compare_cont_spec. cbn [Pos.switch_Eq].
    destruct (Pos.compare_spec pb pa); try lia; reflexivity.
Qed.

(** A valid float is the rounding of its own value. *)
Lemma round_units_valid (s : bool) (m : positive) (e : Z) :
  valid_binary (S754_finite s m e) = true ->
  round_units s (Zpos m * 2 ^ (e + 1074)) 1 = S754_finite s m e.
Proof.
  intros V. apply valid_finite_key in V. destruct V as [(K1 & K2 & K3) B].
  cbn [fst snd] in *. unfold round_units, round_key, of_key.
  rewrite Z.div_1_r, Z.mul_1_l, log2_mul_pow2 by lia.
  assert (Hk : Z.max (Z.log2 (Zpos m) + (e + 1074) - 52) 0 = e + 1074).
  { destruct (Z.eq_dec (e + 1074) 0) as [Z0|NZ].
    - assert (Z.log2 (Zpos m) < 53) by (apply log2_lt_pow2; lia). lia.
    - rewrite (log2_eq_52 (Zpos m)) by lia. lia. }
  rewrite Hk, round_half_even_exact by (apply pow2_pos; lia).
  destruct (Z.eqb_spec (Zpos m) (2 ^ 53)); [lia|]. cbn [fst snd].
  destruct (Z.leb_spec (e + 1074) 2045); [|lia].
  now replace (e + 1074 - 1074) with e by lia.
Qed.

End Keys.

Section Subtraction.

Lemma valid_sign (s s' : bool) (m : positive) (e : Z) :
  valid_binary (S754_finite s m e) = true -> valid_binary (S754_finite s' m e) = true.
Proof. intros V. exact V. Qed.

Lemma valid_exponent (s : bool) (m : positive) (e : Z) :
  valid_binary (S754_finite s m e) = true -> -1074 <= e.
Proof. intros V. apply valid_finite_key in V. unfold key_ok in V. cbn in V. lia. Qed.

Lemma rounds_to_valid (s : bool) (m : positive) (e : Z) :
  valid_binary (S754_finite s m e) = true ->
  rounds_to (cond_Zopp s (Zpos m * 2 ^ (e + 1074))) (S754_finite s m e).
Proof.
  intros V. pose proof (valid_exponent s m e V) as He.
  assert (P : 0 < Zpos m * 2 ^ (e + 1074)) by (apply Z.mul_pos_pos; [lia|apply pow2_pos; lia]).
  destruct (Zpos m * 2 ^ (e + 1074)) as [|p|p] eqn:E; try lia.
  destruct s; cbn [cond_Zopp Z.opp rounds_to]; rewrite <- E;
    symmetry; now apply round_units_valid.
Qed.

Lemma shl_align_min (m : positive) (e e' : Z) :
  e' <= e -> Zpos (fst (shl_align m e e')) = Zpos m * 2 ^ (e - e').
Proof.
  intros H. unfold shl_align. destruct (e' - e) as [|p|p] eqn:D; cbn [fst]; try lia.
  - replace (e - e') with 0 by lia. cbn. lia.
  - rewrite pos_iter_xO. do 2 f_equal. lia.
Qed.

(** Subtraction of zero or finite doubles rounds the difference of their
    values. *)
Lemma SFsub_rounds (x z : spec_float) :
  valid_binary x = true -> valid_binary z = true ->
  is_fin x = true -> is_fin z = true ->
  rounds_to (units x - units z) (SFsub prec emax x z).
Proof.
  intros Vx Vz Fx Fz.
  destruct x as [sx|sx| |sx mx ex], z as [sz|sz| |sz mz ez]; try discriminate.
  - cbn. destruct sx, sz; eexists; reflexivity.
  - cbn [SFsub units]. rewrite Z.sub_0_l.
    replace (- cond_Zopp sz (Zpos mz * 2 ^ (ez + 1074)))
      with (cond_Zopp (negb sz) (Zpos mz * 2 ^ (ez + 1074))) by (destruct sz; cbn; lia).
    apply rounds_to_valid. exact Vz.
  - cbn [SFsub units]. rewrite Z.sub_0_r. now apply rounds_to_valid.
  - pose proof (valid_exponent _ _ _ Vx) as Hx.
    pose proof (valid_exponent _ _ _ Vz) as Hz.
    cbn [SFsub units]. cbv zeta.
    set (e := Z.min ex ez).
    rewrite !shl_align_min by (subst e; lia).
    assert (He : -1074 <= e) by (subst e; lia).
    assert (D : cond_Zopp sx (Zpos mx * 2 ^ (ex + 1074))
                - cond_Zopp sz (Zpos mz * 2 ^ (ez + 1074))
                = (cond_Zopp sx (Zpos mx * 2 ^ (ex - e))
                   - cond_Zopp sz (Zpos mz * 2 ^ (ez - e))) * 2 ^ (e + 1074)).
    { replace (ex + 1074) with ((ex - e) + (e + 1074)) by lia.
      replace (ez + 1074) with ((ez - e) + (e + 1074)) by lia.
      rewrite (pow2_add (ex - e) (e + 1074)), (pow2_add (ez - e) (e + 1074))
        by (subst e; lia).
      destruct sx, sz; unfold cond_Zopp; ring. }
    rewrite D.
    set (M := cond_Zopp sx (Zpos mx * 2 ^ (ex - e))
              - cond_Zopp sz (Zpos mz * 2 ^ (ez - e))).
    assert (P : 0 < 2 ^ (e + 1074)) by (apply pow2_pos; lia).
    unfold binary_normalize. destruct M as [|p|p].
    + cbn. now exists false.
    + rewrite binary_round_units by assumption.
      destruct (Zpos p * 2 ^ (e + 1074)) as [|q|q] eqn:E; try lia.
      cbn [rounds_to]. now rewrite <- E.
    + rewrite binary_round_units by assumption.
      assert (E : Zneg p * 2 ^ (e + 1074) = - (Zpos p * 2 ^ (e + 1074))) by lia.
      rewrite E.
      destruct (Zpos p * 2 ^ (e + 1074)) as [|q|q] eqn:E'; try lia.
      cbn [Z.opp rounds_to]. reflexivity.
Qed.

Lemma round_units_ok (n : positive) : key_ok (round_key (Zpos n) 1).
Proof. apply round_key_ok; lia. Qed.

Lemma SFleb_neg_pos (a b : Z * Z) :
  SFleb (of_key true a) (of_key false b) = true.
Proof.
  unfold of_key. destruct (snd a), (snd b), (fst a <=? 2045), (fst b <=? 2045);
    reflexivity.
Qed.

Lemma SFleb_zero_pos (s : bool) (b : Z * Z) :
  SFleb (S754_zero s) (of_key false b) = true.
Proof. unfold of_key. destruct (snd b), (fst b <=? 2045); reflexivity. Qed.

Lemma SFleb_neg_zero (s : bool) (a : Z * Z) :
  SFleb (of_key true a) (S754_zero s) = true.
Proof. unfold of_key. destruct (snd a), (fst a <=? 2045); reflexivity. Qed.

(** Rounding keeps the order. *)
Lemma rounds_to_mono (d1 d2 : Z) (r1 r2 : spec_float) :
  d1 <= d2 -> rounds_to d1 r1 -> rounds_to d2 r2 -> SFleb r1 r2 = true.
Proof.
  intros Hle R1 R2.
  destruct d1 as [|p1|p1], d2 as [|p2|p2]; cbn [rounds_to] in *; try lia.
  - destruct R1 as [s1 ->], R2 as [s2 ->]. reflexivity.
  - destruct R1 as [s1 ->]. subst r2. apply SFleb_zero_pos.
  - subst r1 r2. unfold round_units.
    apply of_key_le; try apply round_units_ok.
    apply round_key_mono; lia.
  - destruct R2 as [s2 ->]. subst r1. apply SFleb_neg_zero.
  - subst r1 r2. apply SFleb_neg_pos.
  - subst r1 r2. unfold round_units.
    apply of_key_le; try apply round_units_ok.
    apply round_key_mono; lia.
Qed.

(** The order of valid floats is the order of their values. *)
Lemma SFleb_units (x y : spec_float) :
  valid_binary x = true -> valid_binary y = true ->
  is_fin x = true -> is_fin y = true ->
  SFleb x y = true -> units x <= units y.
Proof.
  intros Vx Vy Fx Fy L.
  destruct x as [sx|sx| |sx mx ex], y as [sy|sy| |sy my ey]; try discriminate;
    cbn [units].
  - destruct sy; [discriminate|]. unfold cond_Zopp.
    pose proof (valid_exponent _ _ _ Vy).
    assert (0 < 2 ^ (ey + 1074)) by (apply pow2_pos; lia).
    apply Z.mul_nonneg_nonneg; lia.
  - destruct sx; [|discriminate]. unfold cond_Zopp.
    pose proof (valid_exponent _ _ _ Vx).
    assert (0 < 2 ^ (ex + 1074)) by (apply pow2_pos; lia).
    assert (0 <= Zpos mx * 2 ^ (ex + 1074)) by (apply Z.mul_nonneg_nonneg; lia).
    lia.
  - apply valid_finite_key in Vx, Vy. destruct Vx as [Kx _], Vy as [Ky _].
    pose proof (key_le_value _ _ Kx Ky) as XY.
    pose proof (key_le_value _ _ Ky Kx) as YX.
    unfold key_le, key_value in XY, YX. cbn [fst snd] in XY, YX.
    assert (Px : 0 < Zpos mx * 2 ^ (ex + 1074)).
    { apply Z.mul_pos_pos; [lia|apply pow2_pos]. unfold key_ok in Kx. cbn in Kx. lia. }
    assert (Py : 0 < Zpos my * 2 ^ (ey + 1074)).
    { apply Z.mul_pos_pos; [lia|apply pow2_pos]. unfold key_ok in Ky. cbn in Ky. lia. }
    unfold SFleb, SFcompare in L.
    destruct sx, sy; cbn [cond_Zopp]; try discriminate; try lia.
    + assert (K : ey + 1074 < ex + 1074
                  \/ ey + 1074 = ex + 1074 /\ Zpos my <= Zpos mx).
      { destruct (Z.compare_spec ex ey) as [E|E|E]; try discriminate; try lia.
        rewrite Pos.compare_cont_spec in L. cbn [Pos.switch_Eq] in L.
        destruct (Pos.compare_spec mx my); try discriminate; lia. }
      apply YX in K. lia.
    + assert (K : ex + 1074 < ey + 1074
                  \/ ex + 1074 = ey + 1074 /\ Zpos mx <= Zpos my).
      { destruct (Z.compare_spec ex ey) as [E|E|E]; try discriminate; try lia.
        rewrite Pos.compare_cont_spec in L. cbn [Pos.switch_Eq] in L.
        destruct (Pos.compare_spec mx my); try discriminate; lia. }
      apply XY in K. lia.
Qed.

(** Subtracting one value from two keeps their order. *)
Lemma SFsub_mono (x y z : spec_float) :
  valid_binary x = true -> valid_binary y = true -> valid_binary z = true ->
  is_fin x = true -> is_fin y = true -> is_fin z = true ->
  SFleb x y = true ->
  SFleb (SFsub prec emax x z) (SFsub prec emax y z) = true.
Proof.
  intros Vx Vy Vz Fx Fy Fz L.
  apply (rounds_to_mono (units x - units z) (units y - units z)).
  - pose proof (SFleb_units x y Vx Vy Fx Fy L). lia.
  - now apply SFsub_rounds.
  - now apply SFsub_rounds.
Qed.

End Subtraction.

Section Primitive.

Lemma is_finite_fin (x : float) : is_finite x = true -> is_fin (Prim2SF x) = true.
Proof.
  unfold is_finite, Prim2SF. intros F.
  apply negb_true_iff, orb_false_iff in F. destruct F as [N I]. rewrite N, I.
  destruct (is_zero x); [reflexivity|].
  destruct (Z.frexp x) as [r ex].
  destruct (shr_fexp prec emax _ _ _) as [sh e'].
  destruct (shr_m sh); reflexivity.
Qed.

(** Subtraction of doubles keeps the order of finite values. *)
Lemma b64_sub_mono (a b s : float) :
  is_finite a = true -> is_finite b = true -> is_finite s = true ->
  (a <=? b)%float = true -> (a - s <=? b - s)%float = true.
Proof.
  intros Fa Fb Fs. rewrite !leb_spec, !sub_spec.
  apply SFsub_mono; try apply Prim2SF_valid; now apply is_finite_fin.
Qed.

End Primitive.

Section Round2.

Lemma hundredths_spec (m : positive) (e : Z) :
  -1074 <= e ->
  hundredths (Zpos m * 2 ^ (e + 1074))
  = if 0 <=? e then Zpos m * 2 ^ e * 100
    else round_half_even (Zpos m * 100) (2 ^ (- e)).
Proof.
  intros He. unfold hundredths. destruct (Z.leb_spec 0 e).
  - rewrite pow2_add by lia.
    replace (Zpos m * (2 ^ e * 2 ^ 1074) * 100)
      with (Zpos m * 2 ^ e * 100 * 2 ^ 1074) by ring.
    apply round_half_even_exact. apply pow2_pos. lia.
  - replace (2 ^ 1074) with (2 ^ (- e) * 2 ^ (e + 1074))
      by (rewrite <- pow2_add by lia; f_equal; lia).
    replace (Zpos m * 2 ^ (e + 1074) * 100)
      with (Zpos m * 100 * 2 ^ (e + 1074)) by ring.
    apply round_half_even_scale; apply pow2_pos; lia.
Qed.

Lemma hundredths_mono (u v : Z) : u <= v -> hundredths u <= hundredths v.
Proof.
  intros H. unfold hundredths.
  assert (0 < 2 ^ 1074) by (apply pow2_pos; lia).
  apply round_half_even_mono; try assumption. nia.
Qed.

Lemma hundredths_nonneg (u : Z) : 0 <= u -> 0 <= hundredths u.
Proof.
  intros H. apply round_half_even_nonneg; [apply pow2_pos|]; lia.
Qed.

Lemma b64_round2_spec (x : float) :
  Prim2SF (Binary64.round2 x) = SFround2 (Prim2SF x).
Proof.
  unfold Binary64.round2, SFround2. pose proof (Prim2SF_valid x) as V.
  destruct (Prim2SF x) as [s|s| |s m e] eqn:E; try exact E.
  rewrite hundredths_spec by (now apply valid_exponent in V).
  cbv zeta.
  destruct (if 0 <=? e then _ else _) as [|p|p].
  - destruct s; reflexivity.
  - apply Prim2SF_SF2Prim. apply of_key_valid, round_key_ok; [|lia].
    apply Z.mul_nonneg_nonneg; [lia|]. apply Z.lt_le_incl, pow2_pos. lia.
  - destruct s; reflexivity.
Qed.

Lemma round_units_100_ok (p : positive) : key_ok (round_key (Zpos p * 2 ^ 1074) 100).
Proof.
  apply round_key_ok; [|lia].
  apply Z.mul_nonneg_nonneg; [lia|]. apply Z.lt_le_incl, pow2_pos. lia.
Qed.

Lemma SFleb_zero_zero (s s' : bool) : SFleb (S754_zero s) (S754_zero s') = true.
Proof. reflexivity. Qed.

(** Rounded magnitudes, compared as positive and as negative floats. *)
Lemma SFround2_magnitude (u v : Z) :
  0 <= u <= v ->
  let r := fun (s : bool) (w : Z) =>
    match hundredths w with
    | Zpos p => round_units s (Zpos p * 2 ^ 1074) 100
    | _ => S754_zero s
    end in
  SFleb (r false u) (r false v) = true /\ SFleb (r true v) (r true u) = true.
Proof.
  intros [U UV] r. subst r. cbv beta.
  pose proof (hundredths_mono u v UV) as M.
  pose proof (hundredths_nonneg u U) as N.
  assert (P : 0 < 2 ^ 1074) by (apply pow2_pos; lia).
  destruct (hundredths u) as [|p|p], (hundredths v) as [|q|q]; try lia.
  - split; reflexivity.
  - split; [apply SFleb_zero_pos|apply SFleb_neg_zero].
  - unfold round_units.
    apply of_key_le; try apply round_units_100_ok.
    apply round_key_mono; try lia; try nia.
Qed.

Lemma SFround2_sign (s : bool) (m : positive) (e : Z) :
  exists a, SFround2 (S754_finite s m e) = of_key s a
            \/ SFround2 (S754_finite s m e) = S754_zero s.
Proof.
  unfold SFround2. destruct (hundredths _).
  - exists (0, 0). now right.
  - eexists. left. reflexivity.
  - exists (0, 0). now right.
Qed.

(** Rounding to two decimals keeps the order. *)
Lemma SFround2_mono (x y : spec_float) :
  valid_binary x = true -> valid_binary y = true ->
  SFleb x y = true -> SFleb (SFround2 x) (SFround2 y) = true.
Proof.
  intros Vx Vy L.
  destruct x as [sx|sx| |sx mx ex], y as [sy|sy| |sy my ey]; try discriminate;
    try exact L.
  - (* zero, finite *)
    destruct sy; [discriminate|].
    destruct (SFround2_sign false my ey) as [a [-> | ->]];
      [apply SFleb_zero_pos|reflexivity].
  - (* infinity, finite *)
    destruct sx; [|discriminate].
    destruct (SFround2_sign sy my ey) as [a [-> | ->]]; [|reflexivity].
    unfold of_key. destruct (snd a), (fst a <=? 2045), sy; reflexivity.
  - (* finite, zero *)
    destruct sx; [|discriminate].
    destruct (SFround2_sign true mx ex) as [a [-> | ->]];
      [apply SFleb_neg_zero|reflexivity].
  - (* finite, infinity *)
    destruct sy; [discriminate|].
    destruct (SFround2_sign sx mx ex) as [a [-> | ->]]; [|reflexivity].
    unfold of_key. destruct (snd a), (fst a <=? 2045), sx; reflexivity.
  - (* finite, finite *)
    pose proof (SFleb_units _ _ Vx Vy eq_refl eq_refl L) as U.
    pose proof (valid_exponent _ _ _ Vx) as Hx.
    pose proof (valid_exponent _ _ _ Vy) as Hy.
    assert (Px : 0 < Zpos mx * 2 ^ (ex + 1074))
      by (apply Z.mul_pos_pos; [lia|apply pow2_pos; lia]).
    assert (Py : 0 < Zpos my * 2 ^ (ey + 1074))
      by (apply Z.mul_pos_pos; [lia|apply pow2_pos; lia]).
    cbn [units] in U. destruct sx, sy; cbn [cond_Zopp] in U; try lia.
    + apply (SFround2_magnitude (Zpos my * 2 ^ (ey + 1074))
               (Zpos mx * 2 ^ (ex + 1074))). lia.
    + destruct (SFround2_sign true mx ex) as [a [-> | ->]],
               (SFround2_sign false my ey) as [b [-> | ->]].
      * apply SFleb_neg_pos.
      * apply SFleb_neg_zero.
      * apply SFleb_zero_pos.
      * reflexivity.
    + apply (SFround2_magnitude (Zpos mx * 2 ^ (ex + 1074))
               (Zpos my * 2 ^ (ey + 1074))). lia.
Qed.

(** [round(x, 2)] on doubles keeps the order. *)
Lemma b64_round2_mono (a b : float) :
  (a <=? b)%float = true ->
  (Binary64.round2 a <=? Binary64.round2 b)%float = true.
Proof.
  rewrite !leb_spec, !b64_round2_spec.
  apply SFround2_mono; apply Prim2SF_valid.
Qed.

End Round2.

#[global] Instance binary64_order : FloatOrder float.
Proof.
  split.
  - exact b64_sub_mono.
  - exact b64_round2_mono.
Qed.


(** ** Exact arithmetic

    The handlers can also be read with floats idealised as rationals; the
    order laws hold there too, and the rounding step becomes visible as a
    threshold. *)

Section ExactFacts.

Lemma exact_round2_mono (a b : Q) :
  Qle_bool a b = true -> Qle_bool (Exact.round2 a) (Exact.round2 b) = true.
Proof.
  rewrite !Qle_bool_iff. intros Hle. unfold Exact.round2.
  rewrite !Qred_correct. unfold Qle in *. cbn [Qnum Qden].
  apply Z.mul_le_mono_nonneg_r; [lia|].
  apply round_half_even_mono; lia.
Qed.

Lemma exact_fsub_mono (a b s : Q) :
  Qle_bool a b = true -> Qle_bool (Qred (a - s)) (Qred (b - s)) = true.
Proof.
  rewrite !Qle_bool_iff. intros Hle. rewrite !Qred_correct.
  unfold Qminus. apply Qplus_le_compat; [assumption|apply Qle_refl].
Qed.

(** Rounding moves a value by at most one half. *)
Lemma round_half_even_near (n d : Z) :
  0 < d -> 2 * n - d <= 2 * d * round_half_even n d <= 2 * n + d.
Proof.
  intros Hd. unfold round_half_even.
  pose proof (Z.div_mod n d ltac:(lia)) as E.
  pose proof (Z.mod_pos_bound n d Hd) as B.
  set (q := n / d) in *. set (r := n mod d) in *. clearbody q r.
  destruct (Z.compare_spec (2 * r) d); [destruct (Z.even q)| |]; nia.
Qed.

(** In exact arithmetic two readings more than 0.01 apart round to
    different values. *)
Lemma exact_round2_strict (a b : Q) :
  (a + (1 # 100) < b)%Q -> (Exact.round2 a < Exact.round2 b)%Q.
Proof.
  intros Hlt. unfold Exact.round2. rewrite !Qred_correct.
  destruct a as [p1 q1], b as [p2 q2]. unfold Qlt, Qplus in *. cbn [Qnum Qden] in *.
  pose proof (round_half_even_near (p1 * 100) (Zpos q1) ltac:(lia)) as B1.
  pose proof (round_half_even_near (p2 * 100) (Zpos q2) ltac:(lia)) as B2.
  set (r1 := round_half_even (p1 * 100) (Zpos q1)) in *.
  set (r2 := round_half_even (p2 * 100) (Zpos q2)) in *. clearbody r1 r2.
  rewrite Pos2Z.inj_mul in Hlt.
  set (d1 := Zpos q1) in *. set (d2 := Zpos q2) in *.
  assert (H1 : 0 < d1) by (subst d1; lia). assert (H2 : 0 < d2) by (subst d2; lia).
  clearbody d1 d2.
  apply Z.mul_lt_mono_pos_r; [lia|].
  destruct (Z.lt_ge_cases r1 r2) as [L|G]; [assumption|exfalso].
  assert (A : 2 * d1 * d2 * r2 <= 2 * d1 * d2 * r1)
    by (apply Z.mul_le_mono_nonneg_l; nia).
  nia.
Qed.

End ExactFacts.

#[global] Instance exact_order : FloatOrder Q.
Proof.
  split.
  - intros a b s _ _ _. apply exact_fsub_mono.
  - apply exact_round2_mono.
Qed.


(** ** What [strip] removes and what [upper] produces *)

Section TrimFacts.

Lemma dropwhile_spec (p : codepoint -> bool) (s : str) :
  exists pre, s = pre ++ dropwhile p s /\ forallb p pre = true
              /\ match dropwhile p s with [] => True | c :: _ => p c = false end.
Proof.
  induction s as [|c s (pre & E & A & N)].
  - exists []. repeat split.
  - cbn [dropwhile]. destruct (p c) eqn:Pc.
    + exists (c :: pre). cbn [app forallb]. rewrite Pc, A. split; [now f_equal|now split].
    + exists []. cbn. repeat split. exact Pc.
Qed.

Lemma dropwhile_all (p : codepoint -> bool) (s : str) :
  dropwhile p s = [] <-> forallb p s = true.
Proof.
  induction s as [|c s IH]; [now split|]. cbn [dropwhile forallb].
  destruct (p c); cbn [andb]; [exact IH|]. split; discriminate.
Qed.

Lemma lstrip_spec (s : str) :
  exists pre, s = pre ++ lstrip s /\ forallb isspace pre = true
              /\ match lstrip s with [] => True | c :: _ => isspace c = false end.
Proof. apply dropwhile_spec. Qed.

Lemma rstrip_spec (s : str) :
  exists post, s = rstrip s ++ post /\ forallb isspace post = true
               /\ match rev (rstrip s) with [] => True | c :: _ => isspace c = false end.
Proof.
  unfold rstrip. destruct (dropwhile_spec isspace (rev s)) as (pre & E & A & N).
  exists (rev pre). rewrite rev_involutive. split; [|split].
  - rewrite <- rev_app_distr, <- E. now rewrite rev_involutive.
  - rewrite forallb_forall in *. intros x Hx. apply A. now apply in_rev.
  - exact N.
Qed.

(** A prefix of a string that is not empty starts like the string. *)
Lemma rstrip_head (s : str) :
  match s with [] => True | c :: _ => isspace c = false end ->
  match rstrip s with [] => True | c :: _ => isspace c = false end.
Proof.
  intros Hs. destruct (rstrip_spec s) as (post & E & _ & _).
  destruct (rstrip s) as [|c r]; [exact I|].
  rewrite E in Hs. exact Hs.
Qed.

(** [strip] takes a whitespace prefix and a whitespace suffix away, and
    these are the longest ones. *)
Lemma strip_spec (s : str) :
  exists pre post,
    s = pre ++ strip s ++ post
    /\ forallb isspace pre = true /\ forallb isspace post = true
    /\ trimmed (strip s).
Proof.
  destruct (lstrip_spec s) as (pre & E1 & A1 & N1).
  destruct (rstrip_spec (lstrip s)) as (post & E2 & A2 & N2).
  exists pre, post. unfold strip, trimmed.
  split; [now rewrite <- E2|]. split; [assumption|]. split; [assumption|].
  split; [now apply rstrip_head|assumption].
Qed.

Lemma strip_empty (s : str) : strip s = [] <-> forallb isspace s = true.
Proof.
  destruct (strip_spec s) as (pre & post & E & A & B & _). split.
  - intros Z. rewrite Z in E. rewrite E. cbn [app].
    rewrite forallb_app. now rewrite A, B.
  - intros W. unfold strip.
    assert (L : lstrip s = []) by now apply dropwhile_all.
    now rewrite L.
Qed.

Lemma strip_trimmed (s : str) : trimmed s -> strip s = s.
Proof.
  intros [Hh Hl]. unfold strip.
  assert (L : lstrip s = s).
  { destruct s as [|c s]; [reflexivity|]. now apply lstrip_nonspace_head. }
  rewrite L. unfold rstrip.
  destruct (rev s) as [|c r] eqn:E; [|cbn [dropwhile]; rewrite Hl].
  - cbn. apply (f_equal (@rev _)) in E. now rewrite rev_involutive in E.
  - rewrite <- E. apply rev_involutive.
Qed.

Lemma strip_idempotent (s : str) : strip (strip s) = strip s.
Proof.
  destruct (strip_spec s) as (_ & _ & _ & _ & _ & T). now apply strip_trimmed.
Qed.

(** Every code point has between one and three code points as its upper
    case. *)
Lemma toupper_length (c : codepoint) :
  (1 <= List.length (toupper_full c) <= 3)%nat.
Proof.
  unfold toupper_full.
  destruct (find (fun e => fst e =? c) extended_upper) as [[k u]|] eqn:E.
  - apply find_some in E. destruct E as [E _].
    assert (T : forallb (fun e => (1 <=? List.length (snd e))%nat
                                  && (List.length (snd e) <=? 3)%nat)
                  extended_upper = true) by (vm_compute; reflexivity).
    rewrite forallb_forall in T. specialize (T _ E). cbn [snd] in T.
    apply andb_true_iff in T. destruct T as [T1 T2].
    apply Nat.leb_le in T1, T2. now split.
  - destruct (find (in_range c) simple_upper) as [[[[lo hi] step] delta]|];
      cbn [List.length]; lia.
Qed.

Lemma upper_length (s : str) :
  (List.length s <= List.length (upper s) <= 3 * List.length s)%nat.
Proof.
  induction s as [|c s IH]; [cbn; lia|].
  change (upper (c :: s)) with (toupper_full c ++ upper s).
  rewrite length_app. cbn [List.length].
  pose proof (toupper_length c). lia.
Qed.

Lemma upper_empty (s : str) : upper s = [] <-> s = [].
Proof.
  split; [|now intros ->]. intros E.
  pose proof (upper_length s) as L. rewrite E in L. cbn in L.
  destruct s; [reflexivity|cbn in L; lia].
Qed.

Lemma in_range_member (c : codepoint) (r : Z * Z * Z * Z) :
  in_range c r = true -> In c (range_members r).
Proof.
  destruct r as [[[lo hi] step] delta]. unfold in_range, range_members.
  intros R. apply andb_true_iff in R. destruct R as [R _].
  apply andb_true_iff in R. destruct R as [R1 R2].
  apply Z.leb_le in R1, R2. apply in_map_iff.
  exists (Z.to_nat (c - lo)). split; [lia|]. apply in_seq. lia.
Qed.

(** An upper-case mapping is made of code points that are their own upper
    case. *)
Lemma toupper_fixed (c : codepoint) : upper (toupper_full c) = toupper_full c.
Proof.
  unfold toupper_full.
  destruct (find (fun e => fst e =? c) extended_upper) as [[k u]|] eqn:E.
  - apply find_some in E. destruct E as [E _].
    assert (T : forallb (fun e => PyStr.eqb (upper (snd e)) (snd e))
                  extended_upper = true) by (vm_compute; reflexivity).
    rewrite forallb_forall in T. specialize (T _ E). now apply eqb_eq in T.
  - destruct (find (in_range c) simple_upper) as [[[[lo hi] step] delta]|] eqn:E2.
    + apply find_some in E2. destruct E2 as [E2 R].
      assert (T : forallb (fun r : Z * Z * Z * Z =>
                    forallb (fun x => negb (in_range x r)
                                      || PyStr.eqb (upper [x + snd r]) [x + snd r])
                            (range_members r))
                    simple_upper = true) by (vm_compute; reflexivity).
      rewrite forallb_forall in T. specialize (T _ E2).
      rewrite forallb_forall in T. specialize (T c (in_range_member _ _ R)).
      rewrite R in T. cbn [negb orb snd] in T. now apply eqb_eq in T.
    + unfold upper. cbn [flat_map]. rewrite app_nil_r.
      unfold toupper_full. now rewrite E, E2.
Qed.

Lemma upper_idempotent (s : str) : upper (upper s) = upper s.
Proof.
  induction s as [|c s IH]; [reflexivity|].
  change (upper (c :: s)) with (toupper_full c ++ upper s).
  now rewrite upper_app, toupper_fixed, IH.
Qed.

(** On ASCII the mapping moves the 26 small letters and nothing else. *)
Lemma toupper_ascii (c : codepoint) :
  0 <= c < 128 ->
  toupper_full c = [ascii_upper c].
Proof.
  intros B.
  assert (T : forallb (fun x => PyStr.eqb (toupper_full x) [ascii_upper x])
                (map Z.of_nat (seq 0 128)) = true) by (vm_compute; reflexivity).
  rewrite forallb_forall in T. apply eqb_eq, T.
  apply in_map_iff. exists (Z.to_nat c). split; [lia|]. apply in_seq. lia.
Qed.

Lemma upper_ascii (s : str) :
  isascii s = true -> upper s = map ascii_upper s.
Proof.
  unfold isascii. induction s as [|c s IH]; [reflexivity|]. cbn [forallb]. intros A.
  apply andb_true_iff in A. destruct A as [Hc A].
  apply andb_true_iff in Hc. destruct Hc as [H0 H1].
  apply Z.leb_le in H0. apply Z.ltb_lt in H1.
  change (upper (c :: s)) with (toupper_full c ++ upper s).
  rewrite toupper_ascii by lia. cbn [app map]. now rewrite IH.
Qed.

Lemma strip_sublist (s : str) (p : codepoint -> bool) :
  forallb p s = true -> forallb p (strip s) = true.
Proof.
  intros A. destruct (strip_spec s) as (pre & post & E & _).
  rewrite E, !forallb_app in A.
  apply andb_true_iff in A. destruct A as [_ A].
  apply andb_true_iff in A. now destruct A.
Qed.

End TrimFacts.

(** ** Substrings, and reading a JSON string back *)

Section DecodeFacts.

Lemma startswith_spec (p s : str) :
  startswith p s = true <-> exists post, s = p ++ post.
Proof.
  revert s. induction p as [|c p IH]; intros s.
  - split; [intros _; now exists s|reflexivity].
  - destruct s as [|x s]; cbn [startswith].
    + split; [discriminate|intros (post & E); discriminate].
    + rewrite andb_true_iff, Z.eqb_eq, IH. split.
      * intros (-> & post & ->). now exists post.
      * intros (post & E). injection E as -> ->. split; [reflexivity|now exists post].
Qed.

Lemma isin_contains (needle s : str) :
  isin needle s = true <-> contains needle s.
Proof.
  unfold contains. induction s as [|x s IH].
  - cbn [isin]. rewrite orb_false_r, startswith_spec. split.
    + intros (post & E). now exists [], post.
    + intros (pre & post & E). destruct pre; [now exists post|discriminate].
  - cbn [isin]. rewrite orb_true_iff, startswith_spec, IH. split.
    + intros [(post & E)|(pre & post & E)].
      * now exists [], post.
      * exists (x :: pre), post. now rewrite E.
    + intros (pre & post & E). destruct pre as [|y pre].
      * left. now exists post.
      * right. injection E as _ E. now exists pre, post.
Qed.

(** A [\uXXXX] escape of a code point that is not a surrogate. *)
Lemma scanstring_u (h1 h2 h3 h4 c : Z) (tail : str) :
  JsonDecoder.hex4 h1 h2 h3 h4 = Some c ->
  JsonDecoder.is_high_surrogate c = false ->
  tail <> [] ->
  JsonDecoder.scanstring (92 :: 117 :: h1 :: h2 :: h3 :: h4 :: tail)
  = JsonDecoder.push c (JsonDecoder.scanstring tail).
Proof.
  intros Hx Hs Ht. destruct tail as [|t0 tail]; [congruence|].
  cbn [JsonDecoder.scanstring].
  change (92 =? 34) with false. change (92 =? 92) with true.
  change (117 =? 117) with true. cbv iota. rewrite Hx, Hs. cbn [andb].
  destruct tail as [|t1 [|t2 [|t3 [|t4 [|t5 tail]]]]]; reflexivity.
Qed.

Lemma format_04x_hex4 (c : Z) :
  0 <= c < 32 ->
  exists h1 h2 h3 h4,
    Fmt.format_04x c = [h1; h2; h3; h4]
    /\ JsonDecoder.hex4 h1 h2 h3 h4 = Some c.
Proof.
  intros B.
  assert (T : forallb (fun x =>
                match Fmt.format_04x x with
                | [h1; h2; h3; h4] =>
                    match JsonDecoder.hex4 h1 h2 h3 h4 with
                    | Some y => y =? x
                    | None => false
                    end
                | _ => false
                end) (map Z.of_nat (seq 0 32)) = true) by (vm_compute; reflexivity).
  rewrite forallb_forall in T.
  assert (I : In c (map Z.of_nat (seq 0 32))).
  { apply in_map_iff. exists (Z.to_nat c). split; [lia|]. apply in_seq. lia. }
  specialize (T c I). unfold Fmt.format_04x in *.
  do 4 eexists. split; [reflexivity|].
  destruct (JsonDecoder.hex4 _ _ _ _) as [y|]; [|discriminate].
  apply Z.eqb_eq in T. now subst.
Qed.

(** The scanner undoes the escaping of one character. *)
Lemma scanstring_escape_char (c : codepoint) (tail : str) :
  tail <> [] ->
  JsonDecoder.scanstring (Json.escape_char c ++ tail)
  = JsonDecoder.push c (JsonDecoder.scanstring tail).
Proof.
  intros Ht. unfold Json.escape_char.
  destruct (Z.eqb_spec c 34) as [->|N34]; [reflexivity|].
  destruct (Z.eqb_spec c 92) as [->|N92]; [reflexivity|].
  destruct (Z.eqb_spec c 10) as [->|N10]; [reflexivity|].
  destruct (Z.eqb_spec c 13) as [->|N13]; [reflexivity|].
  destruct (Z.eqb_spec c 9) as [->|N9]; [reflexivity|].
  destruct (Z.eqb_spec c 8) as [->|N8]; [reflexivity|].
  destruct (Z.eqb_spec c 12) as [->|N12]; [reflexivity|].
  destruct ((0 <=? c) && (c <? 32)) eqn:Ctl.
  - apply andb_true_iff in Ctl. destruct Ctl as [C0 C1].
    apply Z.leb_le in C0. apply Z.ltb_lt in C1.
    destruct (format_04x_hex4 c ltac:(lia)) as (h1 & h2 & h3 & h4 & E & Hx).
    rewrite E. cbn [app]. apply scanstring_u; [assumption| |assumption].
    unfold JsonDecoder.is_high_surrogate.
    apply andb_false_iff. left. apply Z.leb_gt. lia.
  - cbn [app JsonDecoder.scanstring].
    destruct (Z.eqb_spec c 34); [contradiction|].
    destruct (Z.eqb_spec c 92); [contradiction|].
    replace ((0 <=? c) && (c <=? 31)) with false; [reflexivity|].
    rewrite <- Ctl. f_equal.
    destruct (Z.leb_spec c 31), (Z.ltb_spec c 32); try reflexivity; lia.
Qed.

Lemma scanstring_escaped (s rest : str) :
  JsonDecoder.scanstring (flat_map Json.escape_char s ++ 34 :: rest) = Some (s, rest).
Proof.
  induction s as [|c s IH]; [reflexivity|].
  cbn [flat_map]. rewrite <- app_assoc.
  rewrite scanstring_escape_char, IH; [reflexivity|].
  destruct (flat_map Json.escape_char s); discriminate.
Qed.

(** [json.loads(json.dumps(s)) == s] for every string. *)
Lemma loads_encode_basestring (s : str) :
  JsonDecoder.loads_str (Json.encode_basestring s) = Some s.
Proof.
  unfold JsonDecoder.loads_str, Json.encode_basestring.
  cbn [app dropwhile]. change (JsonDecoder.is_whitespace 34) with false. cbv iota.
  change (34 =? 34) with true. cbv iota.
  now rewrite scanstring_escaped.
Qed.

End DecodeFacts.

(** ** No small letter is left *)

Section NoSmall.

(** No upper-case mapping contains one of the letters a to z. *)
Lemma toupper_no_small (c : codepoint) :
  forallb (fun u => negb ((97 <=? u) && (u <=? 122))) (toupper_full c) = true.
Proof.
  unfold toupper_full.
  destruct (find (fun e => fst e =? c) extended_upper) as [[k u]|] eqn:E.
  - apply find_some in E. destruct E as [E _].
    assert (T : forallb (fun e => forallb (fun u => negb ((97 <=? u) && (u <=? 122)))
                                    (snd e)) extended_upper = true)
      by (vm_compute; reflexivity).
    rewrite forallb_forall in T. exact (T _ E).
  - destruct (find (in_range c) simple_upper) as [[[[lo hi] step] delta]|] eqn:E2.
    + apply find_some in E2. destruct E2 as [E2 R].
      assert (T : forallb (fun r : Z * Z * Z * Z =>
                    forallb (fun x => negb ((97 <=? x + snd r) && (x + snd r <=? 122)))
                            (range_members r))
                    simple_upper = true) by (vm_compute; reflexivity).
      rewrite forallb_forall in T. specialize (T _ E2).
      rewrite forallb_forall in T. specialize (T c (in_range_member _ _ R)).
      cbn [snd] in T. cbn [forallb]. now rewrite T.
    + cbn [forallb]. rewrite andb_true_r. apply negb_true_iff.
      destruct ((97 <=? c) && (c <=? 122)) eqn:B; [exfalso|reflexivity].
      apply andb_true_iff in B. destruct B as [B1 B2].
      apply Z.leb_le in B1, B2.
      assert (T : forallb (fun x => match find (in_range x) simple_upper with
                                    | Some _ => true
                                    | None => false
                                    end) (range_members (97, 122, 1, 0)) = true)
        by (vm_compute; reflexivity).
      rewrite forallb_forall in T.
      assert (I : In c (range_members (97, 122, 1, 0))).
      { apply in_range_member. unfold in_range.
        rewrite Z.mod_1_r. apply andb_true_iff. split; [|reflexivity].
        apply andb_true_iff. split; apply Z.leb_le; lia. }
      specialize (T c I). now rewrite E2 in T.
Qed.

Lemma upper_no_small (s : str) :
  forallb (fun u => negb ((97 <=? u) && (u <=? 122))) (upper s) = true.
Proof.
  induction s as [|c s IH]; [reflexivity|].
  change (upper (c :: s)) with (toupper_full c ++ upper s).
  rewrite forallb_app. apply andb_true_iff. split; [apply toupper_no_small|exact IH].
Qed.

End NoSmall.

(** ** UTF-8 and the escapes of JSON *)

Ltac decide_tests :=
  repeat match goal with
         | |- context [?a <=? ?b] =>
             first [ replace (a <=? b) with true by (symmetry; apply Z.leb_le; lia)
                   | replace (a <=? b) with false by (symmetry; apply Z.leb_gt; lia) ]
         | |- context [?a <? ?b] =>
             first [ replace (a <? b) with true by (symmetry; apply Z.ltb_lt; lia)
                   | replace (a <? b) with false by (symmetry; apply Z.ltb_ge; lia) ]
         end.

Section Utf8Facts.

(** Decoding undoes the encoding of one code point. *)
Lemma decode_encode_char (c : codepoint) (r : list Z) :
  Utf8.is_scalar c = true ->
  Utf8.decode (Utf8.encode_char c ++ r) = option_map (cons c) (Utf8.decode r).
Proof.
  unfold Utf8.is_scalar, Utf8.encode_char. intros S.
  apply andb_true_iff in S. destruct S as [S NS].
  apply andb_true_iff in S. destruct S as [S0 S1].
  apply Z.leb_le in S0. apply Z.ltb_lt in S1. apply negb_true_iff in NS.
  pose proof (Z.div_mod c 64 ltac:(lia)) as D1.
  pose proof (Z.mod_pos_bound c 64 ltac:(lia)) as B1.
  pose proof (Z.div_mod (c / 64) 64 ltac:(lia)) as D2.
  pose proof (Z.mod_pos_bound (c / 64) 64 ltac:(lia)) as B2.
  pose proof (Z.div_mod (c / 4096) 64 ltac:(lia)) as D3.
  pose proof (Z.mod_pos_bound (c / 4096) 64 ltac:(lia)) as B3.
  assert (Q2 : c / 64 / 64 = c / 4096) by (rewrite Z.div_div by lia; reflexivity).
  assert (Q3 : c / 4096 / 64 = c / 262144) by (rewrite Z.div_div by lia; reflexivity).
  rewrite Q2 in D2. rewrite Q3 in D3.
  assert (M3 : c / 4096 mod 64 = c / 4096 - 64 * (c / 262144)) by lia.
  set (q1 := c / 64) in *. set (m1 := c mod 64) in *.
  set (q2 := c / 4096) in *. set (m2 := q1 mod 64) in *.
  set (q3 := c / 262144) in *. set (m3 := q2 mod 64) in *.
  destruct (Z.ltb_spec c 128).
  - cbn [app Utf8.decode]. decide_tests. reflexivity.
  - destruct (Z.ltb_spec c 2048).
    + cbn [app Utf8.decode]. unfold Utf8.is_continuation.
      replace ((192 + q1 - 192) * 64 + (128 + m1 - 128)) with c by lia.
      decide_tests. reflexivity.
    + destruct (Z.ltb_spec c 65536).
      * cbn [app Utf8.decode]. cbv zeta. unfold Utf8.is_continuation.
        replace (((224 + q2 - 224) * 64 + (128 + m2 - 128)) * 64 + (128 + m1 - 128))
          with c by lia.
        rewrite NS. decide_tests. reflexivity.
      * cbn [app Utf8.decode]. cbv zeta. unfold Utf8.is_continuation.
        replace ((((240 + q3 - 240) * 64 + (128 + m3 - 128)) * 64 + (128 + m2 - 128)) * 64
                 + (128 + m1 - 128)) with c by lia.
        decide_tests. reflexivity.
Qed.

(** [text.encode("utf-8").decode("utf-8") == text] *)
Lemma decode_encode (s : str) (content : list Z) :
  Utf8.encode s = Some content -> Utf8.decode content = Some s.
Proof.
  unfold Utf8.encode, Utf8.encodable.
  destruct (forallb Utf8.is_scalar s) eqn:E; [|discriminate].
  intros C. injection C as <-. induction s as [|c s IH]; [reflexivity|].
  cbn [forallb] in E. apply andb_true_iff in E. destruct E as [Ec Es].
  cbn [flat_map]. rewrite decode_encode_char, IH by assumption. reflexivity.
Qed.

Lemma encodable_app (s t : str) :
  Utf8.encodable (s ++ t) = Utf8.encodable s && Utf8.encodable t.
Proof. apply forallb_app. Qed.

Lemma encodable_escape_char (c : codepoint) :
  Utf8.is_scalar c = true -> Utf8.encodable (Json.escape_char c) = true.
Proof.
  intros S. unfold Json.escape_char.
  repeat match goal with
         | |- context [if ?a =? ?b then _ else _] => destruct (a =? b); [reflexivity|]
         end.
  destruct ((0 <=? c) && (c <? 32)) eqn:Ctl.
  - apply andb_true_iff in Ctl. destruct Ctl as [C0 C1].
    apply Z.leb_le in C0. apply Z.ltb_lt in C1.
    assert (T : forallb (fun x => Utf8.encodable ([92; 117] ++ Fmt.format_04x x))
                  (map Z.of_nat (seq 0 32)) = true) by (vm_compute; reflexivity).
    rewrite forallb_forall in T. apply T.
    apply in_map_iff. exists (Z.to_nat c). split; [lia|]. apply in_seq. lia.
  - unfold Utf8.encodable. cbn [forallb]. now rewrite S.
Qed.

Lemma encodable_encode_basestring (s : str) :
  Utf8.encodable s = true -> Utf8.encodable (Json.encode_basestring s) = true.
Proof.
  intros E. unfold Json.encode_basestring. rewrite !encodable_app.
  apply andb_true_iff. split; [reflexivity|].
  apply andb_true_iff. split; [|reflexivity].
  unfold Utf8.encodable in *. induction s as [|c s IH]; [reflexivity|].
  cbn [forallb flat_map] in *. apply andb_true_iff in E. destruct E as [Ec Es].
  rewrite forallb_app. apply andb_true_iff. split; [|now apply IH].
  now apply encodable_escape_char.
Qed.

End Utf8Facts.

(** ** Timestamps tell clock readings apart *)

Section TimestampFacts.

Lemma digits_value_snoc (s : str) (c : codepoint) :
  digits_value (s ++ [c]) = digits_value s * 10 + (c - 48).
Proof. unfold digits_value. now rewrite fold_left_app. Qed.

Lemma digits_value_decimal_fuel (fuel : nat) :
  forall n, 0 <= n -> Z.log2 n < Z.of_nat fuel ->
            digits_value (Fmt.decimal_fuel fuel n) = n.
Proof.
  induction fuel as [|fuel IH]; intros n Hn Hf.
  - pose proof (Z.log2_nonneg n). lia.
  - cbn [Fmt.decimal_fuel]. destruct (n <? 10) eqn:E.
    + unfold digits_value, Fmt.digit. cbn [fold_left]. lia.
    + apply Z.ltb_ge in E. rewrite digits_value_snoc, IH.
      * unfold Fmt.digit. pose proof (Z.div_mod n 10 ltac:(lia)). lia.
      * apply Z.div_pos; lia.
      * apply Z.log2_lt_pow2; [apply Z.div_str_pos; lia|].
        apply Z.log2_lt_pow2 in Hf; [|lia].
        replace (Z.of_nat (S fuel)) with (Z.succ (Z.of_nat fuel)) in Hf by lia.
        rewrite Z.pow_succ_r in Hf by lia.
        apply Z.div_lt_upper_bound; lia.
Qed.

Lemma digits_value_zeros (k : nat) (s : str) :
  digits_value (repeat 48 k ++ s) = digits_value s.
Proof.
  unfold digits_value. rewrite fold_left_app. f_equal.
  induction k as [|k IH]; [reflexivity|]. cbn [repeat fold_left].
  exact IH.
Qed.

(** The digits that [format_0d] writes give the number back. *)
Lemma digits_value_format_0d (w : nat) (n : Z) :
  0 <= n -> digits_value (Fmt.format_0d w n) = n.
Proof.
  intros Hn. unfold Fmt.format_0d.
  destruct (Z.ltb_spec n 0) as [N|_]; [lia|]. cbv zeta. rewrite digits_value_zeros.
  unfold Fmt.decimal. apply digits_value_decimal_fuel; [assumption|].
  pose proof (Z.log2_nonneg n). lia.
Qed.

Lemma app_inj_length (a a' b b' : str) :
  List.length a = List.length a' -> a ++ b = a' ++ b' -> a = a' /\ b = b'.
Proof.
  revert a'. induction a as [|x a IH]; intros [|x' a'] L E; cbn in *;
    try discriminate; [now split|].
  injection E as -> E. injection L as L.
  destruct (IH a' L E) as [-> ->]. now split.
Qed.

(** A field of [isoformat] followed by more text: equal texts have equal
    fields. *)
Lemma field_inj (w : nat) (n n' : Z) (rest rest' : str) :
  0 <= n < 10 ^ Z.of_nat (S w) -> 0 <= n' < 10 ^ Z.of_nat (S w) ->
  Fmt.format_0d (S w) n ++ rest = Fmt.format_0d (S w) n' ++ rest' ->
  n = n' /\ rest = rest'.
Proof.
  intros B B' E.
  destruct (format_0d_shape w n B) as [L _].
  destruct (format_0d_shape w n' B') as [L' _].
  apply app_inj_length in E; [|congruence]. destruct E as [E R].
  split; [|exact R].
  rewrite <- (digits_value_format_0d (S w) n), <- (digits_value_format_0d (S w) n') by lia.
  now rewrite E.
Qed.

(** [isoformat] gives different texts for different valid datetimes. *)
Lemma isoformat_injective (d d' : datetime) :
  valid d = true -> valid d' = true ->
  isoformat d = isoformat d' -> d = d'.
Proof.
  intros V V' E. unfold valid in V, V'.
  repeat (apply andb_true_iff in V; destruct V as [V ?]).
  repeat (apply andb_true_iff in V'; destruct V' as [V' ?]).
  pose proof (days_in_month_le (year d) (month d)).
  pose proof (days_in_month_le (year d') (month d')).
  unfold isoformat in E.
  apply field_inj in E; [|change (10 ^ Z.of_nat 4) with 10000; lia..].
  destruct E as [Ey E]. injection E as E.
  apply field_inj in E; [|change (10 ^ Z.of_nat 2) with 100; lia..].
  destruct E as [Emo E]. injection E as E.
  apply field_inj in E; [|change (10 ^ Z.of_nat 2) with 100; lia..].
  destruct E as [Ed E]. injection E as E.
  apply field_inj in E; [|change (10 ^ Z.of_nat 2) with 100; lia..].
  destruct E as [Eh E]. injection E as E.
  apply field_inj in E; [|change (10 ^ Z.of_nat 2) with 100; lia..].
  destruct E as [Emi E]. injection E as E.
  apply field_inj in E; [|change (10 ^ Z.of_nat 2) with 100; lia..].
  destruct E as [Es E].
  assert (Eu : microsecond d = microsecond d').
  { destruct (Z.eqb_spec (microsecond d) 0) as [Z0|N0],
             (Z.eqb_spec (microsecond d') 0) as [Z0'|N0']; try discriminate.
    - congruence.
    - injection E as E. rewrite <- (app_nil_r (Fmt.format_0d 6 (microsecond d))) in E.
      rewrite <- (app_nil_r (Fmt.format_0d 6 (microsecond d'))) in E.
      apply field_inj in E; [|change (10 ^ Z.of_nat 6) with 1000000; lia..].
      now destruct E. }
  destruct d, d'. cbn in *. congruence.
Qed.

End TimestampFacts.

(** ** The sign of the uptime on doubles *)

Section UptimeSign.

Lemma SFleb_zero_sign (s s' : bool) (y : spec_float) :
  SFleb (S754_zero s) y = SFleb (S754_zero s') y.
Proof. destruct y; reflexivity. Qed.

(** A finite double minus itself is a zero. *)
Lemma b64_sub_self (s : float) :
  is_finite s = true -> exists z, Prim2SF (s - s) = S754_zero z.
Proof.
  intros Fs. rewrite sub_spec.
  pose proof (SFsub_rounds (Prim2SF s) (Prim2SF s) (Prim2SF_valid s) (Prim2SF_valid s)
                (is_finite_fin s Fs) (is_finite_fin s Fs)) as R.
  rewrite Z.sub_diag in R. exact R.
Qed.

End UptimeSign.

(** ** How far apart two doubles must be to round apart *)

Section Spacing.

(** The value of the key that [round_key] gives, and its exponent. *)
Lemma round_key_value (n den : Z) :
  0 <= n -> 0 < den ->
  let k := Z.max (Z.log2 (n / den) - 52) 0 in
  key_value (round_key n den) = round_half_even n (den * 2 ^ k) * 2 ^ k
  /\ k <= fst (round_key n den) <= k + 1.
Proof.
  intros Hn Hd k. unfold round_key, key_value. fold k.
  assert (Hk : 0 <= k) by (subst k; lia).
  destruct (Z.eqb_spec (round_half_even n (den * 2 ^ k)) (2 ^ 53)) as [E|E];
    cbn [fst snd].
  - rewrite E. split; [|lia]. rewrite pow2_add by lia.
    change (2 ^ 53) with (2 ^ 52 * 2 ^ 1). ring.
  - split; [reflexivity|lia].
Qed.

(** The key is within half a unit of its last place of the number. *)
Lemma round_key_error (n den : Z) :
  0 <= n -> 0 < den ->
  let a := round_key n den in
  2 * n - den * 2 ^ fst a <= 2 * (key_value a * den) <= 2 * n + den * 2 ^ fst a.
Proof.
  intros Hn Hd a. subst a.
  destruct (round_key_value n den Hn Hd) as [V K]. cbv zeta in V, K.
  set (k := Z.max (Z.log2 (n / den) - 52) 0) in *.
  assert (Hk : 0 <= k) by (subst k; lia).
  assert (Pk : 0 < 2 ^ k) by (apply pow2_pos; lia).
  assert (Pd : 0 < den * 2 ^ k) by nia.
  pose proof (round_half_even_near n (den * 2 ^ k) Pd) as N.
  assert (M : 2 ^ k <= 2 ^ fst (round_key n den)) by (apply pow2_le; lia).
  rewrite V. set (v := round_half_even n (den * 2 ^ k)) in *.
  set (f := 2 ^ fst (round_key n den)) in *. clearbody v f k. nia.
Qed.

Lemma round_key_exponent (n den B : Z) :
  0 <= n -> 0 < den -> 0 <= B -> n < den * 2 ^ (B + 53) ->
  fst (round_key n den) <= B + 1.
Proof.
  intros Hn Hd HB Hlt.
  destruct (round_key_value n den Hn Hd) as [_ K]. cbv zeta in K.
  assert (Q : n / den < 2 ^ (B + 53)) by (apply Z.div_lt_upper_bound; lia).
  assert (Q0 : 0 <= n / den) by (apply Z.div_pos; lia).
  destruct (Z.eq_dec (n / den) 0) as [Z0|NZ].
  - rewrite Z0 in K. cbn in K. lia.
  - pose proof (log2_lt_pow2 (n / den) (B + 53) ltac:(lia) Q). lia.
Qed.

Lemma key_exponent_bound (a : Z * Z) (K : Z) :
  key_ok a -> 0 <= K -> key_value a < 2 ^ (53 + K) -> fst a <= K.
Proof.
  intros (A1 & A2 & A3) HK V. unfold key_value in V.
  destruct (Z.le_gt_cases (fst a) K) as [L|G]; [assumption|exfalso].
  specialize (A3 ltac:(lia)).
  assert (P : 2 ^ (K + 1) <= 2 ^ fst a) by (apply pow2_le; lia).
  assert (E : 2 ^ (53 + K) = 2 ^ 52 * 2 ^ (K + 1))
    by (rewrite <- pow2_add by lia; f_equal; lia).
  assert (0 < 2 ^ 52) by (apply pow2_pos; lia).
  assert (0 < 2 ^ (K + 1)) by (apply pow2_pos; lia).
  rewrite E in V. nia.
Qed.

Lemma units_of_key (a : Z * Z) :
  key_ok a -> fst a <= 2045 -> units (of_key false a) = key_value a.
Proof.
  intros (_ & K & _) B.
  destruct a as [k [|p|p]]; unfold of_key, key_value; cbn [fst snd] in *.
  - reflexivity.
  - destruct (Z.leb_spec k 2045); [|lia]. cbn [units cond_Zopp].
    now replace (k - 1074 + 1074) with k by lia.
  - lia.
Qed.

Lemma zero_lt_of_key (s : bool) (b : Z * Z) :
  0 < snd b -> SFltb (S754_zero s) (of_key false b) = true.
Proof.
  intros P. unfold of_key. destruct (snd b); try lia.
  destruct (fst b <=? 2045); reflexivity.
Qed.

(** Keys of the format compare like the floats they stand for. *)
Lemma of_key_lt (a b : Z * Z) :
  key_ok a -> key_ok b -> fst b <= 2045 -> key_value a < key_value b ->
  SFltb (of_key false a) (of_key false b) = true.
Proof.
  intros Ka Kb B V.
  assert (L : key_le a b) by (apply key_le_value; try assumption; lia).
  destruct Ka as (A1 & A2 & A3), Kb as (B1 & B2 & B3).
  unfold key_le in L. unfold key_value in V.
  destruct a as [ka ma], b as [kb mb]. unfold of_key. cbn [fst snd] in *.
  assert (Pa : 0 < 2 ^ ka) by (apply pow2_pos; lia).
  assert (Pb : 0 < 2 ^ kb) by (apply pow2_pos; lia).
  destruct ma as [|pa|pa], mb as [|pb|pb]; try lia.
  - destruct (Z.leb_spec kb 2045); reflexivity.
  - destruct (Z.leb_spec ka 2045), (Z.leb_spec kb 2045); try lia.
    unfold SFltb, SFcompare.
    destruct (Z.compare_spec (ka - 1074) (kb - 1074)) as [E|E|E]; try lia;
      try reflexivity.
    rewrite Pos.compare_cont_spec. cbn [Pos.switch_Eq].
    assert (ka = kb) by lia. subst kb.
    destruct (Pos.compare_spec pa pb); try reflexivity; nia.
Qed.

(** Two different numbers of hundredths below [2 ^ 47] are rounded to
    different doubles. *)
Lemma round_units_100_strict (n1 n2 : Z) :
  0 < n1 < n2 -> n2 <= 2 ^ 47 ->
  SFltb (round_units false (n1 * 2 ^ 1074) 100)
        (round_units false (n2 * 2 ^ 1074) 100) = true.
Proof.
  intros [P1 L] B. unfold round_units.
  assert (PU : 0 < 2 ^ 1074) by (apply pow2_pos; lia).
  assert (N1 : 0 <= n1 * 2 ^ 1074) by nia.
  assert (N2 : 0 <= n2 * 2 ^ 1074) by nia.
  assert (X : 2 ^ (1062 + 53) = 2 ^ 41 * 2 ^ 1074)
    by (rewrite <- pow2_add by lia; reflexivity).
  assert (P41 : 2 ^ 47 < 100 * 2 ^ 41) by reflexivity.
  assert (F2 : fst (round_key (n2 * 2 ^ 1074) 100) <= 1063).
  { apply (round_key_exponent _ _ 1062); try lia; rewrite X; nia. }
  assert (F1 : fst (round_key (n1 * 2 ^ 1074) 100) <= 1063).
  { apply (round_key_exponent _ _ 1062); try lia; rewrite X; nia. }
  pose proof (round_key_ok _ 100 N1 ltac:(lia)) as K1.
  pose proof (round_key_ok _ 100 N2 ltac:(lia)) as K2.
  pose proof (round_key_error _ 100 N1 ltac:(lia)) as E1.
  pose proof (round_key_error _ 100 N2 ltac:(lia)) as E2.
  cbv zeta in E1, E2.
  pose proof (round_key_mono (n1 * 2 ^ 1074) 100 (n2 * 2 ^ 1074) 100
                N1 ltac:(lia) N2 ltac:(lia) ltac:(nia)) as M.
  apply key_le_value in M; try assumption.
  set (a1 := round_key (n1 * 2 ^ 1074) 100) in *.
  set (a2 := round_key (n2 * 2 ^ 1074) 100) in *.
  apply of_key_lt; try assumption; [lia|].
  destruct (Z.eq_dec (key_value a1) (key_value a2)) as [E|NE]; [exfalso|lia].
  assert (Q1 : 2 ^ fst a1 <= 2 ^ 1063) by (apply pow2_le; destruct K1; lia).
  assert (Q2 : 2 ^ fst a2 <= 2 ^ 1063) by (apply pow2_le; destruct K2; lia).
  assert (Y : 2 ^ 1074 = 2048 * 2 ^ 1063) by reflexivity.
  rewrite E in E1. clearbody a1 a2.
  set (V := key_value a2) in *. set (q1 := 2 ^ fst a1) in *. set (q2 := 2 ^ fst a2) in *.
  set (U := 2 ^ 1074) in *. set (W := 2 ^ 1063) in *.
  clearbody V q1 q2 U W. nia.
Qed.

Lemma hundredths_near (u : Z) :
  2 * (u * 100) - 2 ^ 1074 <= 2 * 2 ^ 1074 * hundredths u <= 2 * (u * 100) + 2 ^ 1074.
Proof.
  unfold hundredths. apply round_half_even_near. apply pow2_pos. lia.
Qed.

(** [round(x, 2)] tells two values apart that are at least [2 ^ -6] apart,
    when they are between 0 and [2 ^ 40]. *)
Lemma SFround2_strict (x y : spec_float) :
  valid_binary x = true -> valid_binary y = true ->
  is_fin x = true -> is_fin y = true ->
  0 <= units x -> units x + 2 ^ 1068 <= units y -> units y <= 2 ^ 1114 ->
  SFltb (SFround2 x) (SFround2 y) = true.
Proof.
  intros Vx Vy Fx Fy X0 G B.
  assert (PU : 0 < 2 ^ 1074) by (apply pow2_pos; lia).
  assert (P68 : 0 < 2 ^ 1068) by (apply pow2_pos; lia).
  assert (Y68 : 2 ^ 1074 = 64 * 2 ^ 1068) by reflexivity.
  assert (Y114 : 2 ^ 1114 = 2 ^ 40 * 2 ^ 1074) by reflexivity.
  pose proof (hundredths_near (units x)) as Nx.
  pose proof (hundredths_near (units y)) as Ny.
  pose proof (hundredths_nonneg (units x) X0) as Hx.
  assert (S : hundredths (units x) < hundredths (units y)).
  { set (nx := hundredths (units x)) in *. set (ny := hundredths (units y)) in *.
    set (ux := units x) in *. set (uy := units y) in *.
    set (U := 2 ^ 1074) in *. set (W := 2 ^ 1068) in *.
    clearbody nx ny ux uy U W. nia. }
  assert (T : hundredths (units y) <= 2 ^ 47).
  { assert (P47 : 100 * 2 ^ 40 + 1 < 2 ^ 47) by reflexivity.
    set (ny := hundredths (units y)) in *. set (uy := units y) in *.
    set (U := 2 ^ 1074) in *. set (A := 2 ^ 40) in *. set (C := 2 ^ 47) in *.
    clearbody ny uy U A C. nia. }
  destruct y as [sy|sy| |sy my ey]; try discriminate; cbn [units] in *; [lia|].
  destruct sy; cbn [cond_Zopp] in *; [lia|].
  cbn [SFround2].
  destruct (hundredths (Zpos my * 2 ^ (ey + 1074))) as [|q|q] eqn:Eq; try lia.
  assert (Zy : 0 < snd (round_key (Zpos q * 2 ^ 1074) 100)).
  { pose proof (round_units_100_ok q) as K.
    pose proof (round_key_error (Zpos q * 2 ^ 1074) 100 ltac:(lia) ltac:(lia)) as E.
    cbv zeta in E. unfold key_value in E. destruct K as (K1 & K2 & K3).
    destruct (Z.eq_dec (snd (round_key (Zpos q * 2 ^ 1074) 100)) 0) as [Z0|]; [|lia].
    exfalso. rewrite Z0 in *.
    destruct (Z.eq_dec (fst (round_key (Zpos q * 2 ^ 1074) 100)) 0) as [F0|F0].
    - rewrite F0 in E. change (2 ^ 0) with 1 in E.
      assert (1 * 2 ^ 1074 <= Zpos q * 2 ^ 1074) by (apply Z.mul_le_mono_nonneg_r; lia).
      assert (200 < 2 ^ 1074) by reflexivity. lia.
    - assert (0 < 2 ^ 52) by (apply pow2_pos; lia). lia. }
  destruct x as [sx|sx| |sx mx ex]; try discriminate; cbn [units] in *.
  - cbn [SFround2]. now apply zero_lt_of_key.
  - pose proof (valid_exponent _ _ _ Vx) as Ex.
    assert (0 < Zpos mx * 2 ^ (ex + 1074))
      by (apply Z.mul_pos_pos; [lia|apply pow2_pos; lia]).
    destruct sx; cbn [cond_Zopp] in *; [lia|]. cbn [SFround2].
    destruct (hundredths (Zpos mx * 2 ^ (ex + 1074))) as [|p|p] eqn:Ep; try lia.
    + now apply zero_lt_of_key.
    + apply round_units_100_strict; lia.
Qed.

End Spacing.

(** ** Differences of clock readings *)

Section Differences.

Lemma rounds_to_pos (d : Z) : 0 < d -> rounds_to d (round_units false d 1).
Proof. intros P. destruct d; try lia. reflexivity. Qed.

(** The rounding of a difference below [2 ^ (K + 53)] units: a finite
    double within [2 ^ K] units of it. *)
Lemma rounds_to_units (d : Z) (r : spec_float) (K : Z) :
  rounds_to d r -> 0 <= d -> d < 2 ^ (K + 53) -> 0 <= K <= 2044 ->
  is_fin r = true /\ valid_binary r = true /\ 0 <= units r
  /\ 2 * d - 2 ^ (K + 1) <= 2 * units r <= 2 * d + 2 ^ (K + 1).
Proof.
  intros R D0 DK HK.
  assert (PK : 0 < 2 ^ (K + 1)) by (apply pow2_pos; lia).
  destruct d as [|p|p]; try lia; cbn [rounds_to] in R.
  - destruct R as [s ->]. cbn. repeat split; lia.
  - subst r. unfold round_units.
    pose proof (round_key_ok (Zpos p) 1 ltac:(lia) ltac:(lia)) as Ok.
    pose proof (round_key_exponent (Zpos p) 1 K ltac:(lia) ltac:(lia) ltac:(lia)
                  ltac:(lia)) as Fk.
    pose proof (round_key_error (Zpos p) 1 ltac:(lia) ltac:(lia)) as E.
    cbv zeta in E. set (a := round_key (Zpos p) 1) in *.
    assert (Q : 2 ^ fst a <= 2 ^ (K + 1)) by (apply pow2_le; destruct Ok; lia).
    rewrite (units_of_key a Ok ltac:(lia)).
    split; [|split; [now apply of_key_valid|split]].
    + unfold of_key. destruct (snd a); try reflexivity.
      destruct (Z.leb_spec (fst a) 2045); [reflexivity|lia].
    + unfold key_value. destruct Ok as (O1 & O2 & _).
      apply Z.mul_nonneg_nonneg; [lia|]. apply Z.lt_le_incl, pow2_pos. lia.
    + lia.
Qed.

(** Between two finite doubles in the order of doubles. *)
Lemma SFleb_between (a r b : spec_float) :
  valid_binary a = true -> valid_binary r = true -> valid_binary b = true ->
  is_fin a = true -> is_fin b = true ->
  SFleb a r = true -> SFleb r b = true -> units a <= units b.
Proof.
  intros Va Vr Vb Fa Fb L1 L2.
  destruct r as [sr|sr| |sr mr er].
  - pose proof (SFleb_units _ _ Va Vr Fa eq_refl L1).
    pose proof (SFleb_units _ _ Vr Vb eq_refl Fb L2). lia.
  - destruct sr.
    + destruct a; discriminate.
    + destruct b; discriminate.
  - destruct a; discriminate.
  - pose proof (SFleb_units _ _ Va Vr Fa eq_refl L1).
    pose proof (SFleb_units _ _ Vr Vb eq_refl Fb L2). lia.
Qed.

(** A rounding that is not below the double [c] comes from a number above
    every double below [c]. *)
Lemma rounds_to_above (d : Z) (r c : spec_float) (m : positive) (e : Z) :
  rounds_to d r -> valid_binary r = true ->
  valid_binary c = true -> is_fin c = true ->
  valid_binary (S754_finite false m e) = true ->
  units (S754_finite false m e) < units c ->
  SFleb c r = true ->
  units (S754_finite false m e) < d.
Proof.
  intros R Vr Vc Fc Vl Lt L.
  destruct (Z.lt_ge_cases (units (S754_finite false m e)) d) as [G|G]; [assumption|].
  exfalso.
  pose proof (rounds_to_valid false m e Vl) as Rl.
  pose proof (rounds_to_mono _ _ _ _ G R Rl) as M.
  pose proof (SFleb_between c r _ Vc Vr Vl Fc eq_refl L M). lia.
Qed.

(** A rounding that is not above the double [c] comes from a number below
    every double above [c]. *)
Lemma rounds_to_below (d : Z) (r c : spec_float) (m : positive) (e : Z) :
  rounds_to d r -> valid_binary r = true ->
  valid_binary c = true -> is_fin c = true ->
  valid_binary (S754_finite false m e) = true ->
  units c < units (S754_finite false m e) ->
  SFleb r c = true ->
  d < units (S754_finite false m e).
Proof.
  intros R Vr Vc Fc Vl Lt L.
  destruct (Z.lt_ge_cases d (units (S754_finite false m e))) as [G|G]; [assumption|].
  exfalso.
  pose proof (rounds_to_valid false m e Vl) as Rl.
  pose proof (rounds_to_mono _ _ _ _ G Rl R) as M.
  pose proof (SFleb_between _ r c Vl Vr Vc eq_refl Fc M L). lia.
Qed.

End Differences.

(** ** Rounding twice *)

Section RoundTwice.

Lemma round_half_even_unique (n d q : Z) :
  0 < d -> 2 * q * d - d < 2 * n < 2 * q * d + d -> round_half_even n d = q.
Proof.
  intros Hd [L U]. pose proof (round_half_even_near n d Hd) as N.
  set (r := round_half_even n d) in *. clearbody r.
  assert (r < q + 1) by nia. assert (q - 1 < r) by nia. lia.
Qed.

(** A number strictly within half a unit in the last place of a double,
    and not below the lower end of its binade, is rounded to that double. *)
Lemma round_key_nearest (n den k v : Z) :
  0 < den -> key_ok (k, v) -> 0 < v ->
  2 * (v * 2 ^ k * den) - den * 2 ^ k < 2 * n < 2 * (v * 2 ^ k * den) + den * 2 ^ k ->
  (0 < k -> v = 2 ^ 52 -> v * 2 ^ k * den <= n) ->
  round_key n den = (k, v).
Proof.
  intros Hd (K1 & K2 & K3) Hv [L U] Edge. cbn [fst snd] in *.
  assert (Pk : 0 < 2 ^ k) by (apply pow2_pos; lia).
  assert (P52 : 0 < 2 ^ 52) by (apply pow2_pos; lia).
  assert (P53 : 2 ^ 53 = 2 * 2 ^ 52) by reflexivity.
  assert (Hn : 0 < n) by nia.
  assert (Q : Z.max (Z.log2 (n / den) - 52) 0 = k).
  { destruct (Z.eq_dec k 0) as [Z0|NZ].
    - subst k. change (2 ^ 0) with 1 in *.
      assert (n / den < 2 ^ 53) by (apply Z.div_lt_upper_bound; nia).
      assert (0 <= n / den) by (apply Z.div_pos; lia).
      destruct (Z.eq_dec (n / den) 0) as [D0|D0]; [rewrite D0; reflexivity|].
      pose proof (log2_lt_pow2 (n / den) 53 ltac:(lia) ltac:(lia)). lia.
    - specialize (K3 ltac:(lia)).
      assert (Lo : 2 ^ (52 + k) <= n / den).
      { apply Z.div_le_lower_bound; [lia|]. rewrite pow2_add by lia.
        destruct (Z.eq_dec v (2 ^ 52)) as [E|NE].
        - specialize (Edge ltac:(lia) E). rewrite E in Edge. nia.
        - nia. }
      assert (Hi : n / den < 2 ^ (53 + k)).
      { apply Z.div_lt_upper_bound; [lia|]. rewrite pow2_add by lia. nia. }
      assert (P : 0 < 2 ^ (52 + k)) by (apply pow2_pos; lia).
      assert (Z.log2 (n / den) = 52 + k).
      { apply Z.log2_unique; [lia|]. split; [assumption|].
        now replace (Z.succ (52 + k)) with (53 + k) by lia. }
      lia. }
  unfold round_key. rewrite Q.
  assert (V : round_half_even n (den * 2 ^ k) = v)
    by (apply round_half_even_unique; nia).
  rewrite V. destruct (Z.eqb_spec v (2 ^ 53)); [lia|reflexivity].
Qed.

(** A value that [round(x, 2)] gave is rounded to itself. *)
Lemma SFround2_idempotent (x : spec_float) :
  SFround2 (SFround2 x) = SFround2 x.
Proof.
  destruct x as [s|s| |s m e]; try reflexivity.
  cbn [SFround2].
  destruct (hundredths (Zpos m * 2 ^ (e + 1074))) as [|p|p]; try reflexivity.
  clear m e.
  assert (PU : 0 < 2 ^ 1074) by (apply pow2_pos; lia).
  assert (Np : 0 <= Zpos p * 2 ^ 1074) by nia.
  pose proof (round_units_100_ok p) as Ok.
  pose proof (round_key_error (Zpos p * 2 ^ 1074) 100 Np ltac:(lia)) as E.
  cbv zeta in E. unfold round_units.
  destruct (round_key (Zpos p * 2 ^ 1074) 100) as [k v] eqn:Ek.
  unfold key_value in E. cbn [fst snd] in E.
  unfold of_key at 2. unfold of_key at 1. cbn [fst snd].
  destruct v as [|v|v]; try reflexivity.
  destruct (Z.leb_spec k 2045) as [Hk|Hk]; [|reflexivity].
  cbn [SFround2]. replace (k - 1074 + 1074) with k by lia.
  destruct Ok as (K1 & K2 & K3). cbn [fst snd] in K1, K2, K3.
  assert (Pk : 0 < 2 ^ k) by (apply pow2_pos; lia).
  destruct (Z.le_gt_cases k 1067) as [Small|Large].
  - (* the spacing of doubles is below a hundredth: the same hundredths *)
    assert (Q : 2 ^ k <= 2 ^ 1067) by (apply pow2_le; lia).
    assert (Y : 2 ^ 1074 = 128 * 2 ^ 1067) by reflexivity.
    assert (P67 : 0 < 2 ^ 1067) by (apply pow2_pos; lia).
    assert (N : hundredths (Zpos v * 2 ^ k) = Zpos p).
    { unfold hundredths. apply round_half_even_unique; [assumption|].
      set (V := Zpos v * 2 ^ k) in *. set (q := 2 ^ k) in *.
      set (U := 2 ^ 1074) in *. set (W := 2 ^ 1067) in *.
      clearbody V q U W. nia. }
    rewrite N. unfold round_units. rewrite Ek. unfold of_key. cbn [fst snd].
    destruct (Z.leb_spec k 2045); [|lia].
    reflexivity.
  - (* the doubles are multiples of [2 ^ -6]: the double is the nearest one
       to its own hundredths *)
    specialize (K3 ltac:(lia)).
    assert (P52 : 0 < 2 ^ 52) by (apply pow2_pos; lia).
    assert (Y : 2 ^ 1074 = 64 * 2 ^ 1068) by reflexivity.
    assert (P68 : 0 < 2 ^ 1068) by (apply pow2_pos; lia).
    assert (Xk : 2 ^ k = 2 ^ (k - 1068) * 2 ^ 1068)
      by (rewrite <- pow2_add by lia; f_equal; lia).
    assert (Pj : 0 < 2 ^ (k - 1068)) by (apply pow2_pos; lia).
    set (W := Zpos v * 2 ^ (k - 1068) * 100).
    assert (HW : hundredths (Zpos v * 2 ^ k) = round_half_even W 64).
    { unfold hundredths. rewrite Y, Xk.
      replace (Zpos v * (2 ^ (k - 1068) * 2 ^ 1068) * 100) with (W * 2 ^ 1068)
        by (subst W; ring).
      apply round_half_even_scale; lia. }
    pose proof (round_half_even_near W 64 ltac:(lia)) as Nw.
    assert (W64 : 64 <= W) by (subst W; nia).
    assert (Pn : 0 < round_half_even W 64) by lia.
    rewrite HW. destruct (round_half_even W 64) as [|q|q] eqn:Eq; try lia.
    unfold round_units.
    rewrite (round_key_nearest (Zpos q * 2 ^ 1074) 100 k (Zpos v)).
    + unfold of_key. cbn [fst snd]. destruct (Z.leb_spec k 2045); [|lia].
      now replace (k - 1074 + 1074) with k by lia.
    + lia.
    + repeat split; cbn [fst snd]; lia.
    + lia.
    + rewrite Y, Xk. subst W.
      set (j := 2 ^ (k - 1068)) in *. set (A := 2 ^ 1068) in *.
      clearbody j A. nia.
    + intros _ Ev. rewrite Y, Xk.
      assert (Wm : W = (Zpos v * 2 ^ (k - 1068) * 100 / 64) * 64).
      { subst W. rewrite Ev.
        replace (2 ^ 52 * 2 ^ (k - 1068) * 100) with (2 ^ 46 * 2 ^ (k - 1068) * 100 * 64)
          by (change (2 ^ 52) with (2 ^ 46 * 64); ring).
        now rewrite Z.div_mul by lia. }
      rewrite Wm in Eq. rewrite round_half_even_exact in Eq by lia.
      rewrite <- Eq.
      pose proof (Z.div_mod (Zpos v * 2 ^ (k - 1068) * 100) 64 ltac:(lia)) as DM.
      fold W in Wm, DM |- *.
      set (j := 2 ^ (k - 1068)) in *. set (A := 2 ^ 1068) in *.
      clearbody j A. nia.
Qed.

End RoundTwice.

(** ** The rounded uptime is finite *)

Section Finite.

Lemma SFcompare_refl (s : bool) (m : positive) (e : Z) :
  SFcompare (S754_finite s m e) (S754_finite s m e) = Some Eq.
Proof.
  cbn [SFcompare]. rewrite Z.compare_refl, Pos.compare_cont_refl.
  destruct s; reflexivity.
Qed.

Lemma is_fin_finite (x : float) : is_fin (Prim2SF x) = true -> is_finite x = true.
Proof.
  unfold is_finite, is_nan, is_infinity. rewrite !eqb_spec, abs_spec.
  change (Prim2SF infinity) with (S754_infinity false).
  destruct (Prim2SF x) as [s|s| |s m e]; try discriminate; intros _.
  - reflexivity.
  - unfold SFeqb. rewrite SFcompare_refl. reflexivity.
Qed.

Lemma round_key_scale (n den c : Z) :
  0 <= n -> 0 < den -> 0 < c -> round_key (n * c) (den * c) = round_key n den.
Proof.
  intros Hn Hd Hc. unfold round_key.
  rewrite Z.div_mul_cancel_r by lia.
  set (k := Z.max (Z.log2 (n / den) - 52) 0).
  assert (Pk : 0 < 2 ^ k) by (apply pow2_pos; subst k; lia).
  replace (den * c * 2 ^ k) with (den * 2 ^ k * c) by ring.
  rewrite round_half_even_scale by nia. reflexivity.
Qed.

(** [round(x, 2)] of a finite double is a finite double. *)
Lemma SFround2_fin (x : spec_float) :
  valid_binary x = true -> is_fin x = true -> is_fin (SFround2 x) = true.
Proof.
  intros V Fx. destruct x as [s|s| |s m e]; try discriminate; [reflexivity|].
  cbn [SFround2]. pose proof (valid_exponent _ _ _ V) as He.
  assert (PU : 0 < 2 ^ 1074) by (apply pow2_pos; lia).
  destruct (Z.le_gt_cases 0 e) as [Big|Small].
  - (* an integer: its hundredths are exact *)
    rewrite hundredths_spec by assumption.
    destruct (Z.leb_spec 0 e); [|lia].
    assert (Pe : 0 < 2 ^ e) by (apply pow2_pos; lia).
    destruct (Zpos m * 2 ^ e * 100) as [|p|p] eqn:Ep; try lia.
    rewrite <- Ep. unfold round_units.
    replace (Zpos m * 2 ^ e * 100 * 2 ^ 1074)
      with (Zpos m * 2 ^ (e + 1074) * 100) by (rewrite pow2_add by lia; ring).
    rewrite <- (Z.mul_1_l 100) at 2.
    rewrite round_key_scale by (try apply Z.mul_nonneg_nonneg; try apply Z.lt_le_incl;
                                try apply pow2_pos; lia).
    fold (round_units s (Zpos m * 2 ^ (e + 1074)) 1).
    now rewrite round_units_valid.
  - (* below [2 ^ 53]: far from the largest double *)
    pose proof (hundredths_near (Zpos m * 2 ^ (e + 1074))) as N.
    destruct (hundredths (Zpos m * 2 ^ (e + 1074))) as [|p|p]; try reflexivity.
    apply valid_finite_key in V. destruct V as [(K1 & K2 & K3) _]. cbn [fst snd] in *.
    assert (Q : 2 ^ (e + 1074) <= 2 ^ 1073) by (apply pow2_le; lia).
    assert (Y : 2 ^ 1074 = 2 * 2 ^ 1073) by reflexivity.
    assert (P73 : 0 < 2 ^ 1073) by (apply pow2_pos; lia).
    assert (Pe : 0 < 2 ^ (e + 1074)) by (apply pow2_pos; lia).
    assert (X : 2 ^ (1100 + 53) = 2 ^ 80 * 2 ^ 1073) by reflexivity.
    assert (P80 : 2 ^ 53 * 2 < 2 ^ 80) by reflexivity.
    assert (Fk : fst (round_key (Zpos p * 2 ^ 1074) 100) <= 1101).
    { apply (round_key_exponent _ _ 1100); try lia.
      rewrite X.
      set (q := 2 ^ (e + 1074)) in *. set (A := 2 ^ 1073) in *.
      set (U := 2 ^ 1074) in *. set (B := 2 ^ 53) in *. set (C := 2 ^ 80) in *.
      clearbody q A U B C. nia. }
    unfold round_units, of_key. destruct (snd _); try reflexivity.
    destruct (Z.leb_spec (fst (round_key (Zpos p * 2 ^ 1074) 100)) 2045);
      [reflexivity|lia].
Qed.

End Finite.

(** ** What can be sent *)

Section Sendable.

Lemma isascii_encodable (s : str) : isascii s = true -> Utf8.encodable s = true.
Proof.
  unfold isascii, Utf8.encodable. intros A. apply forallb_forall. intros c I.
  rewrite forallb_forall in A. specialize (A c I).
  apply andb_true_iff in A. destruct A as [A0 A1].
  apply Z.leb_le in A0. apply Z.ltb_lt in A1.
  unfold Utf8.is_scalar.
  replace (0 <=? c) with true by (symmetry; apply Z.leb_le; lia).
  replace (c <? 1114112) with true by (symmetry; apply Z.ltb_lt; lia).
  replace (55296 <=? c) with false by (symmetry; apply Z.leb_gt; lia).
  reflexivity.
Qed.

Lemma isascii_app (s t : str) : isascii (s ++ t) = isascii s && isascii t.
Proof. apply forallb_app. Qed.

Lemma isdigit_isascii (s : str) : forallb Fmt.isdigit s = true -> isascii s = true.
Proof.
  unfold isascii. intros D. apply forallb_forall. intros c I.
  rewrite forallb_forall in D. specialize (D c I). unfold Fmt.isdigit in D.
  apply andb_true_iff in D. destruct D as [D0 D1].
  apply Z.leb_le in D0, D1.
  apply andb_true_iff. split; [apply Z.leb_le|apply Z.ltb_lt]; lia.
Qed.

Lemma isascii_repeat (c : codepoint) (k : nat) :
  0 <= c < 128 -> isascii (repeat c k) = true.
Proof.
  intros B. unfold isascii. apply forallb_forall. intros x I.
  apply repeat_spec in I. subst x.
  apply andb_true_iff. split; [apply Z.leb_le|apply Z.ltb_lt]; lia.
Qed.

Lemma isascii_decimal (n : Z) : 0 <= n -> isascii (Fmt.decimal n) = true.
Proof.
  intros Hn. apply isdigit_isascii. unfold Fmt.decimal.
  now apply decimal_fuel_digits.
Qed.

Lemma isascii_str_of_int (n : Z) : isascii (Fmt.str_of_int n) = true.
Proof.
  unfold Fmt.str_of_int. destruct (Z.ltb_spec n 0).
  - change (45 :: Fmt.decimal (- n)) with ([45] ++ Fmt.decimal (- n)).
    rewrite isascii_app, isascii_decimal by lia. reflexivity.
  - now apply isascii_decimal.
Qed.

(** [format_0d] writes ASCII whatever the number. *)
Lemma isascii_format_0d (w : nat) (n : Z) : isascii (Fmt.format_0d w n) = true.
Proof.
  unfold Fmt.format_0d. destruct (Z.ltb_spec n 0); cbv zeta.
  - change (45 :: ?l) with ([45] ++ l).
    rewrite !isascii_app, isascii_repeat, isascii_decimal by lia. reflexivity.
  - rewrite isascii_app, isascii_repeat, isascii_decimal by lia. reflexivity.
Qed.

(** A timestamp is ASCII, whatever the fields of the datetime. *)
Lemma isascii_isoformat (d : datetime) : isascii (isoformat d) = true.
Proof.
  unfold isoformat. rewrite !isascii_app, !isascii_format_0d.
  destruct (microsecond d =? 0); [reflexivity|].
  rewrite isascii_app, isascii_format_0d. reflexivity.
Qed.

Lemma encodable_isoformat (d : datetime) : Utf8.encodable (isoformat d) = true.
Proof. apply isascii_encodable, isascii_isoformat. Qed.

(** Escaping neither hides nor makes a code point that cannot be encoded. *)
Lemma encodable_escape_char_eq (c : codepoint) :
  Utf8.encodable (Json.escape_char c) = Utf8.is_scalar c.
Proof.
  destruct (Utf8.is_scalar c) eqn:S; [now apply encodable_escape_char|].
  unfold Json.escape_char.
  assert (N : c < 0 \/ 55296 <= c).
  { unfold Utf8.is_scalar in S.
    destruct (Z.leb_spec 0 c); [|lia].
    destruct (Z.ltb_spec c 1114112); [|lia].
    destruct (Z.leb_spec 55296 c); [lia|]. discriminate. }
  repeat match goal with
         | |- context [if ?a =? ?b then _ else _] =>
             destruct (Z.eqb_spec a b); [lia|]
         end.
  destruct (Z.leb_spec 0 c), (Z.ltb_spec c 32); cbn [andb]; try lia;
    unfold Utf8.encodable; cbn [forallb]; now rewrite S.
Qed.

Lemma encodable_escaped (s : str) :
  Utf8.encodable (flat_map Json.escape_char s) = Utf8.encodable s.
Proof.
  induction s as [|c s IH]; [reflexivity|].
  cbn [flat_map]. rewrite encodable_app, encodable_escape_char_eq, IH. reflexivity.
Qed.

Lemma encodable_encode_basestring_eq (s : str) :
  Utf8.encodable (Json.encode_basestring s) = Utf8.encodable s.
Proof.
  unfold Json.encode_basestring. rewrite !encodable_app, encodable_escaped.
  cbn. now rewrite andb_true_r.
Qed.

Lemma encodable_join (sep : str) (parts : list str) :
  Utf8.encodable sep = true ->
  Utf8.encodable (Json.join sep parts) = forallb Utf8.encodable parts.
Proof.
  intros S. induction parts as [|p parts IH]; [reflexivity|].
  destruct parts as [|q parts].
  - cbn. now rewrite andb_true_r.
  - change (Json.join sep (p :: q :: parts)) with (p ++ sep ++ Json.join sep (q :: parts)).
    rewrite !encodable_app, S, IH. reflexivity.
Qed.

End Sendable.

Section JsonInduction.

Context {F : Type} (P : json F -> Prop).

Lemma json_induction :
  P JNull -> (forall b, P (JBool b)) -> (forall n, P (JInt n)) ->
  (forall x, P (JFloat x)) -> (forall s, P (JStr s)) ->
  (forall items, Forall P items -> P (JList items)) ->
  (forall items, Forall (fun kv => P (snd kv)) items -> P (JDict items)) ->
  forall v, P v.
Proof.
  intros Hn Hb Hi Hf Hs Hl Hd. fix IH 1. intros [|b|n|x|s|items|items].
  - exact Hn.
  - apply Hb.
  - apply Hi.
  - apply Hf.
  - apply Hs.
  - apply Hl. induction items as [|v items IHi]; constructor; [apply IH|exact IHi].
  - apply Hd. induction items as [|[k v] items IHi]; constructor; [apply IH|exact IHi].
Qed.

End JsonInduction.

Section Rendering.

Context {F : Type} `{FloatOps F} `{FloatRepr F}.

Lemma sequence_encodable (l : list (option str)) :
  match Json.sequence l with
  | Some parts => forallb Utf8.encodable parts
  | None => false
  end
  = forallb (fun o => match o with Some t => Utf8.encodable t | None => false end) l.
Proof.
  induction l as [|[t|] l IH]; [reflexivity| |reflexivity].
  cbn [Json.sequence forallb]. rewrite <- IH.
  destruct (Json.sequence l) as [parts|]; cbn; [reflexivity|].
  now rewrite andb_false_r.
Qed.

(** [renderable] tells whether a value can be rendered and encoded. *)
Lemma dumps_renderable (v : json F) :
  match Json.dumps v with
  | Some text => Utf8.encodable text
  | None => false
  end = Json.renderable v.
Proof.
  induction v as [|b|n|x|s|items IH|items IH] using json_induction.
  - reflexivity.
  - destruct b; reflexivity.
  - cbn [Json.dumps Json.renderable]. apply isascii_encodable, isascii_str_of_int.
  - cbn [Json.dumps Json.renderable]. destruct (isfinite x); reflexivity.
  - cbn [Json.dumps Json.renderable]. apply encodable_encode_basestring_eq.
  - cbn [Json.dumps Json.renderable].
    transitivity (match Json.sequence (map Json.dumps items) with
                  | Some parts => forallb Utf8.encodable parts
                  | None => false
                  end).
    + destruct (Json.sequence (map Json.dumps items)) as [parts|]; [|reflexivity].
      cbn [option_map]. rewrite !encodable_app, encodable_join by reflexivity.
      cbn. now rewrite andb_true_r.
    + rewrite sequence_encodable.
      induction IH as [|v items Hv _ IHi]; [reflexivity|].
      cbn [map forallb]. now rewrite Hv, IHi.
  - cbn [Json.dumps Json.renderable].
    transitivity (match Json.sequence
                          (map (fun kv : str * json F =>
                                  option_map (fun r => Json.encode_basestring (fst kv)
                                                       ++ lit ":" ++ r)
                                    (Json.dumps (snd kv))) items) with
                  | Some parts => forallb Utf8.encodable parts
                  | None => false
                  end).
    + destruct (Json.sequence _) as [parts|]; [|reflexivity].
      cbn [option_map]. rewrite !encodable_app, encodable_join by reflexivity.
      cbn. now rewrite andb_true_r.
    + rewrite sequence_encodable.
      induction IH as [|[k v] items Hv _ IHi]; [reflexivity|].
      cbn [map forallb fst snd] in *. rewrite IHi, <- Hv.
      destruct (Json.dumps v) as [t|]; cbn [option_map].
      * rewrite !encodable_app, encodable_encode_basestring_eq. cbn [Utf8.encodable forallb].
        reflexivity.
      * now rewrite andb_false_r.
Qed.



End Rendering.

(** ** The text of a float *)

Section ReprFacts.

Lemma isascii_firstn (k : nat) (s : str) : isascii s = true -> isascii (firstn k s) = true.
Proof.
  unfold isascii. intros A. apply forallb_forall. intros c I.
  rewrite forallb_forall in A. apply A.
  rewrite <- (firstn_skipn k s). apply in_or_app. now left.
Qed.

Lemma isascii_skipn (k : nat) (s : str) : isascii s = true -> isascii (skipn k s) = true.
Proof.
  unfold isascii. intros A. apply forallb_forall. intros c I.
  rewrite forallb_forall in A. apply A.
  rewrite <- (firstn_skipn k s). apply in_or_app. now right.
Qed.

Lemma shortest_nonneg (fuel : nat) (x : spec_float) (num den dpt : Z) :
  0 <= num -> 0 < den ->
  forall k, 0 <= fst (Binary64.shortest fuel x num den dpt k).
Proof.
  intros Hn Hd. induction fuel as [|fuel IH]; intros k; [cbn; lia|].
  cbn [Binary64.shortest]. cbv zeta.
  set (p := dpt - k).
  set (n := if p <? 0 then num * 10 ^ (- p) else num).
  set (d := if p <? 0 then den else den * 10 ^ p).
  assert (N : 0 <= n).
  { subst n. destruct (Z.ltb_spec p 0); [|assumption].
    apply Z.mul_nonneg_nonneg; [assumption|]. apply Z.pow_nonneg. lia. }
  assert (D : 0 < d).
  { subst d. destruct (Z.ltb_spec p 0); [assumption|].
    apply Z.mul_pos_pos; [assumption|]. apply Z.pow_pos_nonneg; lia. }
  pose proof (Z.div_pos n d N D) as Q.
  destruct (Binary64.reads_back x (n / d) p), (Binary64.reads_back x (n / d + 1) p);
    cbn [fst]; try lia; [|apply IH].
  destruct (match 2 * (n mod d) ?= d with Lt => false | Gt => true | Eq => Z.odd (n / d) end);
    lia.
Qed.

Lemma strip_zeros_nonneg (fuel : nat) :
  forall c p, 0 <= c -> 0 <= fst (Binary64.strip_zeros fuel c p).
Proof.
  induction fuel as [|fuel IH]; intros c p Hc; [exact Hc|].
  cbn [Binary64.strip_zeros]. destruct (c mod 10 =? 0); [|exact Hc].
  apply IH. apply Z.div_pos; lia.
Qed.

Lemma isascii_format_short (digits : str) (decpt : Z) :
  isascii digits = true -> isascii (Binary64.format_short digits decpt) = true.
Proof.
  intros A. unfold Binary64.format_short. cbv zeta.
  destruct ((decpt <=? -4) || (16 <? decpt)).
  - rewrite !isascii_app, isascii_firstn, isascii_format_0d by assumption.
    destruct (1 <? len digits); [rewrite isascii_app, isascii_skipn by assumption|];
      destruct (decpt - 1 <? 0); reflexivity.
  - destruct (decpt <=? 0).
    + rewrite !isascii_app, isascii_repeat, A by lia. reflexivity.
    + destruct (len digits <=? decpt).
      * rewrite !isascii_app, isascii_repeat, A by lia. reflexivity.
      * rewrite !isascii_app, isascii_firstn, isascii_skipn by assumption. reflexivity.
Qed.

(** [repr] of a double is ASCII: a sign, digits, a point, an exponent, or
    one of the words inf and nan. *)
Lemma b64_repr_isascii (x : float) : isascii (Binary64.repr x) = true.
Proof.
  unfold Binary64.repr. destruct (Prim2SF x) as [s|s| |s m e].
  - destruct s; reflexivity.
  - destruct s; reflexivity.
  - reflexivity.
  - cbv zeta.
    set (num := if e <? 0 then Zpos m else Zpos m * 2 ^ e).
    set (den := if e <? 0 then 2 ^ (- e) else 1).
    assert (N : 0 <= num).
    { subst num. destruct (Z.ltb_spec e 0); [lia|].
      apply Z.mul_nonneg_nonneg; [lia|]. apply Z.pow_nonneg. lia. }
    assert (D : 0 < den).
    { subst den. destruct (Z.ltb_spec e 0); [|lia]. apply Z.pow_pos_nonneg; lia. }
    pose proof (shortest_nonneg 17 (S754_finite s m e) num den
                  (Binary64.decpt_from 8 num den
                     ((Z.log2 num - Z.log2 den - 1) * 30103 / 100000 - 1)) N D 1) as Sh.
    destruct (Binary64.shortest _ _ _ _ _ _) as [c p]. cbn [fst] in Sh.
    pose proof (strip_zeros_nonneg 20 c p Sh) as St.
    destruct (Binary64.strip_zeros 20 c p) as [c' p']. cbn [fst] in St.
    rewrite isascii_app, isascii_format_short by now apply isascii_decimal.
    destruct s; reflexivity.
Qed.

Lemma b64_repr_encodable (x : float) : Utf8.encodable (frepr x) = true.
Proof. apply isascii_encodable, b64_repr_isascii. Qed.

Lemma exact_repr_encodable (x : Q) : Utf8.encodable (frepr x) = true.
Proof.
  apply isascii_encodable. cbn [frepr Exact.repr_ops]. unfold Exact.repr.
  rewrite !isascii_app, isascii_str_of_int, isascii_decimal by lia. reflexivity.
Qed.

End ReprFacts.

(** ** The handlers *)

(** Comparisons of literal methods and paths are computed. *)
Ltac decide_route :=
  repeat match goal with
         | |- context [PyStr.eqb (lit ?a) (lit ?b)] =>
             let v := eval vm_compute in (PyStr.eqb (lit a) (lit b)) in
             change (PyStr.eqb (lit a) (lit b)) with v
         end;
  cbv iota.

(** The rendering test of a content: literal texts are computed. *)
Ltac decide_renderable :=
  cbn [Json.renderable forallb fst snd];
  repeat match goal with
         | |- context [Utf8.encodable (lit ?a)] =>
             let v := eval vm_compute in (Utf8.encodable (lit a)) in
             change (Utf8.encodable (lit a)) with v
         end;
  rewrite ?encodable_isoformat; cbn [andb]; rewrite ?andb_true_r.

Section ServiceFacts.

Context {F : Type} `{FloatOps F} `{FloatRepr F} `{Interpreter}.

(** The constructor returns the response when the content can be sent and
    raises otherwise; it touches neither the globals nor the log. *)
Lemma JSONResponse_init_spec (status : Z) (content : json F) (media_type : str)
  (g : Globals F) :
  (Json.renderable content = true
   /\ JSONResponse_init status content media_type g
      = (g, [], Return (JSONResponse status content media_type)))
  \/ (Json.renderable content = false
      /\ exists e, JSONResponse_init status content media_type g
                   = (g, [], Raise (Exception e))).
Proof.
  unfold JSONResponse_init. rewrite <- dumps_renderable.
  destruct (Json.dumps content) as [text|].
  - unfold Utf8.encode. destruct (Utf8.encodable text).
    + left. split; reflexivity.
    + right. split; [reflexivity|]. eexists. reflexivity.
  - right. split; [reflexivity|]. eexists. reflexivity.
Qed.

Lemma respond_init (status : Z) (content : json F) (media_type : str) (g : Globals F) :
  exists o,
    JSONResponse_init status content media_type g = (g, [], o)
    /\ respond o = if Json.renderable content
                   then JSONResponse status content media_type
                   else PlainTextResponse 500 (lit "Internal Server Error").
Proof.
  destruct (JSONResponse_init_spec status content media_type g) as [[R E]|[R [e E]]];
    rewrite R, E; eexists; split; reflexivity.
Qed.

(** A handler that returns a value: the value is serialized and handed to
    the constructor after the handler has returned. *)
Lemma serialize_spec {A} (to_json : A -> json F) (m : M (Globals F) A)
  (g g1 : Globals F) (logs : list LogRecord) (a : A) :
  m g = (g1, logs, Return a) ->
  exists o,
    serialize to_json m g = (g1, logs, o)
    /\ respond o = if Json.renderable (to_json a)
                   then JSONResponse 200 (to_json a) application_json
                   else PlainTextResponse 500 (lit "Internal Server Error").
Proof.
  intros E. unfold serialize, bind. rewrite E.
  destruct (respond_init 200 (to_json a) application_json g1) as (o & E1 & R).
  rewrite E1, app_nil_r. now exists o.
Qed.

Lemma handle_serialized {A} (to_json : A -> json F) (m : M (Globals F) A)
  (g g1 : Globals F) (logs : list LogRecord) (a : A) :
  m g = (g1, logs, Return a) ->
  (let '(g', logs', o) := serialize to_json m g in Some (g', logs', respond o))
  = Some (g1, logs,
      if Json.renderable (to_json a)
      then JSONResponse 200 (to_json a) application_json
      else PlainTextResponse 500 (lit "Internal Server Error")).
Proof.
  intros E. destruct (serialize_spec to_json m g g1 logs a E) as (o & E1 & R).
  now rewrite E1, R.
Qed.

Lemma handle_root (g : Globals F) (clk : Clock F) (payload : Payload F) :
  let content :=
    JDict [(lit "message", JStr (lit "Welcome to DevOps Pipeline Demo API"));
           (lit "version", JStr (APP_VERSION g));
           (lit "docs", JStr (lit "/docs"));
           (lit "health", JStr (lit "/health"))] in
  handle g clk {| method := lit "GET"; path := lit "/"; body := payload |}
  = Some (g, [],
      if Json.renderable content then JSONResponse 200 content application_json
      else PlainTextResponse 500 (lit "Internal Server Error")).
Proof.
  intros content. unfold handle, route. cbn [method path body].
  decide_route. now rewrite (handle_serialized (fun v => v) root g g [] content).
Qed.

Lemma handle_health (g : Globals F) (clk : Clock F) (payload : Payload F) :
  let content :=
    JDict [(lit "status", JStr (lit "healthy"));
           (lit "timestamp", JStr (isoformat (utcnow clk)));
           (lit "uptime_seconds",
            JFloat (round2 (fsub (time_time clk) (APP_START_TIME g))));
           (lit "version", JStr (APP_VERSION g));
           (lit "environment", JStr (ENVIRONMENT g))] in
  handle g clk {| method := lit "GET"; path := lit "/health"; body := payload |}
  = Some (g, [],
      if Json.renderable content then JSONResponse 200 content application_json
      else PlainTextResponse 500 (lit "Internal Server Error")).
Proof.
  intros content. unfold handle, route. cbn [method path body].
  decide_route.
  now rewrite (handle_serialized (@HealthResponse.to_json F) (health_check clk) g g []
                 {| HealthResponse.status := lit "healthy";
                    HealthResponse.timestamp := isoformat (utcnow clk);
                    HealthResponse.uptime_seconds :=
                      round2 (fsub (time_time clk) (APP_START_TIME g));
                    HealthResponse.version := APP_VERSION g;
                    HealthResponse.environment := ENVIRONMENT g |}).
Qed.

Lemma handle_info (g : Globals F) (clk : Clock F) (payload : Payload F) :
  let content :=
    JDict [(lit "application", JStr app_title);
           (lit "version", JStr (APP_VERSION g));
           (lit "environment", JStr (ENVIRONMENT g));
           (lit "uptime_seconds",
            JFloat (round2 (fsub (time_time clk) (APP_START_TIME g))));
           (lit "python_version", JStr sys_version);
           (lit "endpoints",
            JDict [(lit "health", JStr (lit "/health"));
                   (lit "ready", JStr (lit "/ready"));
                   (lit "metrics", JStr (lit "/metrics"));
                   (lit "docs", JStr (lit "/docs"));
                   (lit "process", JStr (lit "/api/process"))])] in
  handle g clk {| method := lit "GET"; path := lit "/api/info"; body := payload |}
  = Some (g, [],
      if Json.renderable content then JSONResponse 200 content application_json
      else PlainTextResponse 500 (lit "Internal Server Error")).
Proof.
  intros content. unfold handle, route. cbn [method path body].
  decide_route. now rewrite (handle_serialized (fun v => v) (app_info clk) g g [] content).
Qed.

Lemma handle_metrics (g : Globals F) (clk : Clock F) (payload : Payload F) :
  let content :=
    JStr (metrics_output (fsub (time_time clk) (APP_START_TIME g))
            (APP_VERSION g) (ENVIRONMENT g)) in
  handle g clk {| method := lit "GET"; path := lit "/metrics"; body := payload |}
  = Some (g, [],
      if Json.renderable content then JSONResponse 200 content (lit "text/plain")
      else PlainTextResponse 500 (lit "Internal Server Error")).
Proof.
  intros content. unfold handle, route. cbn [method path body].
  decide_route.
  destruct (respond_init 200 content (lit "text/plain") g) as (o & E & R).
  cbv beta iota zeta delta [metrics bind read]. fold content.
  now rewrite E, R.
Qed.

(** The content of /ready can always be sent: the constructor in the [try]
    does not raise. *)
Lemma readiness_check_returns (g : Globals F) (clk : Clock F) :
  readiness_check clk g
  = (g, [], Return (JSONResponse 200
                      (JDict [(lit "ready", JBool true);
                              (lit "timestamp", JStr (isoformat (utcnow clk)))])
                      application_json)).
Proof.
  unfold readiness_check, try_except.
  destruct (JSONResponse_init_spec 200
              (JDict [(lit "ready", JBool (F:=F) true);
                      (lit "timestamp", JStr (isoformat (utcnow clk)))])
              application_json g) as [[R E]|[R _]].
  - now rewrite E.
  - cbn [Json.renderable forallb fst snd] in R.
    rewrite encodable_isoformat in R. discriminate R.
Qed.

Lemma handle_ready (g : Globals F) (clk : Clock F) (payload : Payload F) :
  handle g clk {| method := lit "GET"; path := lit "/ready"; body := payload |}
  = Some (g, [],
      JSONResponse 200
        (JDict [(lit "ready", JBool true);
                (lit "timestamp", JStr (isoformat (utcnow clk)))])
        application_json).
Proof.
  unfold handle, route. cbn [method path body]. decide_route.
  now rewrite readiness_check_returns.
Qed.

(** A body with a string [message]: the handler runs, writes its record and
    returns; the response is made afterwards. *)
Lemma process_message_returns (g : Globals F) (clk : Clock F) (message : str) :
  process_message clk {| MessageRequest.message := JStr message |} g
  = (g,
     [Build_LogRecord INFO
        (lit "Processed message: " ++ message ++ lit " -> " ++ strip (upper message))],
     Return {| MessageResponse.original := message;
               MessageResponse.processed := strip (upper message);
               MessageResponse.length := len (strip (upper message));
               MessageResponse.timestamp := isoformat (utcnow clk) |}).
Proof. reflexivity. Qed.

Lemma renderable_root (g : Globals F) :
  Json.renderable
    (JDict (F:=F) [(lit "message", JStr (lit "Welcome to DevOps Pipeline Demo API"));
            (lit "version", JStr (APP_VERSION g));
            (lit "docs", JStr (lit "/docs"));
            (lit "health", JStr (lit "/health"))])
  = Utf8.encodable (APP_VERSION g).
Proof. decide_renderable. reflexivity. Qed.

Lemma renderable_health (g : Globals F) (clk : Clock F) (u : F) :
  Json.renderable
    (JDict [(lit "status", JStr (lit "healthy"));
            (lit "timestamp", JStr (isoformat (utcnow clk)));
            (lit "uptime_seconds", JFloat u);
            (lit "version", JStr (APP_VERSION g));
            (lit "environment", JStr (ENVIRONMENT g))])
  = sendable_float u && sendable_config g.
Proof. decide_renderable. reflexivity. Qed.

Lemma renderable_info (g : Globals F) (u : F) :
  Json.renderable
    (JDict [(lit "application", JStr app_title);
            (lit "version", JStr (APP_VERSION g));
            (lit "environment", JStr (ENVIRONMENT g));
            (lit "uptime_seconds", JFloat u);
            (lit "python_version", JStr sys_version);
            (lit "endpoints",
             JDict [(lit "health", JStr (lit "/health"));
                    (lit "ready", JStr (lit "/ready"));
                    (lit "metrics", JStr (lit "/metrics"));
                    (lit "docs", JStr (lit "/docs"));
                    (lit "process", JStr (lit "/api/process"))])])
  = sendable_config g && sendable_float u && Utf8.encodable sys_version.
Proof.
  decide_renderable. change (Utf8.encodable app_title) with true.
  unfold sendable_config, sendable_float. cbn [andb].
  now rewrite <- !andb_assoc.
Qed.

Lemma renderable_metrics (uptime : F) (version environment : str) :
  Json.renderable (JStr (F:=F) (metrics_output uptime version environment))
  = Utf8.encodable (frepr uptime)
    && (Utf8.encodable version && Utf8.encodable environment).
Proof.
  cbn [Json.renderable]. unfold metrics_output, nl, dq. rewrite !encodable_app.
  repeat match goal with
         | |- context [Utf8.encodable (lit ?a)] =>
             let v := eval vm_compute in (Utf8.encodable (lit a)) in
             change (Utf8.encodable (lit a)) with v
         end.
  change (Utf8.encodable [10]) with true. change (Utf8.encodable [34]) with true.
  cbn [andb]. rewrite ?andb_true_r. reflexivity.
Qed.

(** Upper-casing does not make a surrogate. *)
Lemma is_scalar_toupper (c : codepoint) :
  Utf8.is_scalar c = true -> Utf8.encodable (toupper_full c) = true.
Proof.
  intros S. unfold toupper_full.
  destruct (find (fun e => fst e =? c) extended_upper) as [[k u]|] eqn:E.
  - apply find_some in E. destruct E as [E _].
    assert (T : forallb (fun e => Utf8.encodable (snd e)) extended_upper = true)
      by (vm_compute; reflexivity).
    rewrite forallb_forall in T. exact (T _ E).
  - destruct (find (in_range c) simple_upper) as [[[[lo hi] step] delta]|] eqn:E2.
    + apply find_some in E2. destruct E2 as [E2 R].
      assert (T : forallb (fun r : Z * Z * Z * Z =>
                    forallb (fun x => Utf8.is_scalar (x + snd r)) (range_members r))
                    simple_upper = true) by (vm_compute; reflexivity).
      rewrite forallb_forall in T. specialize (T _ E2).
      rewrite forallb_forall in T. specialize (T c (in_range_member _ _ R)).
      cbn [snd] in T. unfold Utf8.encodable. cbn [forallb]. now rewrite T.
    + unfold Utf8.encodable. cbn [forallb]. now rewrite S.
Qed.

Lemma encodable_upper (s : str) :
  Utf8.encodable s = true -> Utf8.encodable (upper s) = true.
Proof.
  induction s as [|c s IH]; [reflexivity|].
  change (upper (c :: s)) with (toupper_full c ++ upper s).
  unfold Utf8.encodable at 1. cbn [forallb]. intros E.
  apply andb_true_iff in E. destruct E as [Ec Es].
  rewrite encodable_app, is_scalar_toupper, IH by assumption. reflexivity.
Qed.

Lemma encodable_processed (message : str) :
  Utf8.encodable message = true -> Utf8.encodable (strip (upper message)) = true.
Proof.
  intros E. apply strip_sublist. now apply encodable_upper.
Qed.

Lemma renderable_processed (clk : Clock F) (message : str) :
  Json.renderable
    (JDict (F:=F) [(lit "original", JStr message);
            (lit "processed", JStr (strip (upper message)));
            (lit "length", JInt (len (strip (upper message))));
            (lit "timestamp", JStr (isoformat (utcnow clk)))])
  = Utf8.encodable message.
Proof.
  decide_renderable. destruct (Utf8.encodable message) eqn:E; [|reflexivity].
  now rewrite encodable_processed.
Qed.

(** POST /api/process with a string [message]. *)
Lemma handle_process (g : Globals F) (clk : Clock F)
  (items : list (str * json F)) (message : str) :
  Json.get (lit "message") items = Some (JStr message) ->
  handle g clk (POST "/api/process" (JDict items))
  = Some (g,
      [Build_LogRecord INFO
         (lit "Processed message: " ++ message ++ lit " -> " ++ strip (upper message))],
      if Utf8.encodable message
      then JSONResponse 200
             (JDict [(lit "original", JStr message);
                     (lit "processed", JStr (strip (upper message)));
                     (lit "length", JInt (len (strip (upper message))));
                     (lit "timestamp", JStr (isoformat (utcnow clk)))])
             application_json
      else PlainTextResponse 500 (lit "Internal Server Error")).
Proof.
  intros E. unfold handle, route, POST, request. cbn [method path body].
  decide_route. unfold read_body, validate_MessageRequest. rewrite E.
  rewrite (handle_serialized (@MessageResponse.to_json F)
             (process_message clk {| MessageRequest.message := JStr message |})
             g g _ _ (process_message_returns g clk message)).
  unfold MessageResponse.to_json.
  cbn [MessageResponse.original MessageResponse.processed
       MessageResponse.length MessageResponse.timestamp].
  now rewrite renderable_processed.
Qed.

(** The body is accepted exactly when it is a JSON object with a string
    [message]; the request object holds that string. *)
Lemma read_body_accepted (payload : Payload F) (r : MessageRequest.t F) :
  read_body payload = Accepted r <->
  exists s, message_field (loaded payload) = Some (JStr s)
            /\ r = {| MessageRequest.message := JStr s |}.
Proof.
  unfold read_body, validate_MessageRequest, message_field, loaded.
  destruct payload as [[v|]|pos error|].
  2-4: split; [discriminate|intros (s' & E & _); discriminate E].
  destruct v as [| | | | | |items].
  1-6: split; [discriminate|intros (s' & E & _); discriminate E].
  destruct (Json.get (lit "message") items) as [[| | | |t| |]|].
  1-4, 6-8: split; [discriminate|intros (s' & E & _); discriminate E].
  split.
  - intros E. injection E as <-. now exists t.
  - intros (s' & E & ->). injection E as <-. reflexivity.
Qed.

Lemma read_body_unreadable (payload : Payload F) :
  read_body payload = Unreadable <-> payload = UnicodeDecodeError.
Proof.
  unfold read_body, validate_MessageRequest.
  destruct payload as [[v|]|pos error|].
  2-3: split; discriminate.
  2: split; reflexivity.
  destruct v as [| | | | | |items].
  1-6: split; discriminate.
  destruct (Json.get (lit "message") items) as [[| | | |s| |]|]; split; discriminate.
Qed.

(** The body is rejected when it can be read and has no string [message]. *)
Lemma read_body_rejected (payload : Payload F) :
  (exists errors, read_body payload = Rejected errors) <->
  payload <> UnicodeDecodeError
  /\ forall s, message_field (loaded payload) <> Some (JStr s).
Proof.
  split.
  - intros (errors & E). split.
    + intros ->. discriminate E.
    + intros s Es.
      assert (A : read_body payload = Accepted {| MessageRequest.message := JStr s |})
        by (apply read_body_accepted; now exists s).
      rewrite A in E. discriminate E.
  - intros (N & M). destruct (read_body payload) as [r|errors|] eqn:E.
    + apply read_body_accepted in E. destruct E as (s & Es & _). now elim (M s).
    + now exists errors.
    + apply read_body_unreadable in E. now elim N.
Qed.

(** POST /api/process with a body that is rejected: the handler does not
    run, and the entries go into a 422 response, if they can be sent. *)
Lemma handle_rejected (g : Globals F) (clk : Clock F) (payload : Payload F)
  (errors : list (json F)) :
  read_body payload = Rejected errors ->
  handle g clk {| method := lit "POST"; path := lit "/api/process"; body := payload |}
  = Some (g, [],
      if Json.renderable (validation_error_content errors)
      then JSONResponse 422 (validation_error_content errors) application_json
      else PlainTextResponse 500 (lit "Internal Server Error")).
Proof.
  intros E. unfold handle, route. cbn [method path body]. decide_route. rewrite E.
  destruct (respond_init 422 (validation_error_content errors) application_json g)
    as (o & E1 & R).
  now rewrite E1, R.
Qed.

Lemma handle_unreadable (g : Globals F) (clk : Clock F) :
  handle g clk {| method := lit "POST"; path := lit "/api/process";
                  body := UnicodeDecodeError |}
  = Some (g, [],
      JSONResponse 400
        (JDict [(lit "detail", JStr (lit "There was an error parsing the body"))])
        application_json).
Proof. reflexivity. Qed.

(** POST /api/process, whatever the body: what is logged and what is
    answered. *)
Lemma handle_post (g : Globals F) (clk : Clock F) (payload : Payload F) :
  handle g clk {| method := lit "POST"; path := lit "/api/process"; body := payload |}
  = Some (g,
      match message_field (loaded payload) with
      | Some (JStr s) =>
          [Build_LogRecord INFO
             (lit "Processed message: " ++ s ++ lit " -> " ++ strip (upper s))]
      | _ => []
      end,
      match read_body payload with
      | Accepted request =>
          match MessageRequest.message request with
          | JStr s =>
              if Utf8.encodable s
              then JSONResponse 200
                     (JDict [(lit "original", JStr s);
                             (lit "processed", JStr (strip (upper s)));
                             (lit "length", JInt (len (strip (upper s))));
                             (lit "timestamp", JStr (isoformat (utcnow clk)))])
                     application_json
              else PlainTextResponse 500 (lit "Internal Server Error")
          | _ => PlainTextResponse 500 (lit "Internal Server Error")
          end
      | Rejected errors =>
          if Json.renderable (validation_error_content errors)
          then JSONResponse 422 (validation_error_content errors) application_json
          else PlainTextResponse 500 (lit "Internal Server Error")
      | Unreadable =>
          JSONResponse 400
            (JDict [(lit "detail", JStr (lit "There was an error parsing the body"))])
            application_json
      end).
Proof.
  destruct (read_body payload) as [r|errors|] eqn:E.
  - apply read_body_accepted in E. destruct E as (s & Es & ->).
    rewrite Es. cbn [MessageRequest.message].
    destruct payload as [[[| | | | | |items]|]|pos error|]; try discriminate Es.
    cbn [loaded message_field] in Es.
    exact (handle_process g clk items s Es).
  - assert (M : forall s, message_field (loaded payload) <> Some (JStr s))
      by (apply read_body_rejected; now exists errors).
    rewrite (handle_rejected g clk payload errors E).
    destruct (message_field (loaded payload)) as [[| | | |s| |]|]; try reflexivity.
    now elim (M s).
  - apply read_body_unreadable in E. subst payload. reflexivity.
Qed.

(** No step of a handler assigns to a module global: the state after a
    computation made of reads, log records, raised exceptions and responses
    is the state before it. *)
Lemma bind_state {A B} (m : M (Globals F) A) (k : A -> M (Globals F) B) :
  (forall g, fst (fst (m g)) = g) -> (forall a g, fst (fst (k a g)) = g) ->
  forall g, fst (fst (bind m k g)) = g.
Proof.
  intros Hm Hk g. unfold bind. specialize (Hm g).
  destruct (m g) as [[g1 logs1] [a|e]]; cbn [fst] in *; subst g1; [|reflexivity].
  specialize (Hk a g). destruct (k a g) as [[g2 logs2] o2]. exact Hk.
Qed.

Lemma try_except_state {A} (body : M (Globals F) A) (handler : exn -> M (Globals F) A) :
  (forall g, fst (fst (body g)) = g) -> (forall e g, fst (fst (handler e g)) = g) ->
  forall g, fst (fst (try_except body handler g)) = g.
Proof.
  intros Hb Hh g. unfold try_except. specialize (Hb g).
  destruct (body g) as [[g1 logs1] [a|e]]; cbn [fst] in *; subst g1; [reflexivity|].
  specialize (Hh e g). destruct (handler e g) as [[g2 logs2] o2]. exact Hh.
Qed.

Lemma JSONResponse_init_state (status : Z) (content : json F) (media_type : str)
  (g : Globals F) :
  fst (fst (JSONResponse_init status content media_type g)) = g.
Proof.
  destruct (JSONResponse_init_spec status content media_type g) as [[_ E]|[_ [e E]]];
    now rewrite E.
Qed.

Lemma route_state (clk : Clock F) (req : Request F) (m : M (Globals F) (Response F)) :
  route clk req = Some m -> forall g, fst (fst (m g)) = g.
Proof.
  assert (Init : forall status content media_type (g : Globals F),
             fst (fst (JSONResponse_init status content media_type g)) = g)
    by apply JSONResponse_init_state.
  unfold route.
  repeat match goal with
         | |- context [if ?c then _ else _] => destruct c
         end; try discriminate; intros E; injection E as <-.
  6: destruct (read_body (body req)) as [r|errors|]; [|apply Init|reflexivity].
  all: unfold serialize, root, health_check, readiness_check, metrics, app_info,
         process_message, process_message_try.
  all: repeat first [ apply Init
                    | apply bind_state
                    | apply try_except_state
                    | intros ?; apply bind_state
                    | intros ?; apply Init
                    | intros ? ?; apply Init
                    | intros ?; reflexivity
                    | intros ? ?; reflexivity ].
  intros g. destruct (MessageRequest.message r); reflexivity.
Qed.

(** No handler assigns to a module global. *)
Lemma handle_globals (g g' : Globals F) (clk : Clock F) (req : Request F)
  (logs : list LogRecord) (r : Response F) :
  handle g clk req = Some (g', logs, r) -> g' = g.
Proof.
  unfold handle. destruct (route clk req) as [m|] eqn:E; [|discriminate].
  pose proof (route_state clk req m E g) as S.
  destruct (m g) as [[g1 logs1] o]. cbn [fst] in S.
  intros Q. injection Q as <- _ _. exact S.
Qed.

Lemma serve_globals (reqs : list (Clock F * Request F)) (g : Globals F) :
  fst (serve g reqs) = g.
Proof.
  revert g. induction reqs as [|[clk req] reqs IH]; intros g; [reflexivity|].
  cbn [serve]. destruct (handle g clk req) as [[[g' logs] r]|] eqn:E.
  - apply handle_globals in E. subst g'.
    specialize (IH g). destruct (serve g reqs). exact IH.
  - specialize (IH g). destruct (serve g reqs). exact IH.
Qed.

(** Every response of a lifetime is computed from the globals the process
    started with. *)
Lemma serve_responses (reqs : list (Clock F * Request F)) (g : Globals F) :
  snd (serve g reqs) = map (fun cr => response_of g (fst cr) (snd cr)) reqs.
Proof.
  revert g. induction reqs as [|[clk req] reqs IH]; intros g; [reflexivity|].
  cbn [serve map fst snd]. unfold response_of at 1.
  destruct (handle g clk req) as [[[g' logs] r]|] eqn:E.
  - apply handle_globals in E. subst g'.
    specialize (IH g). destruct (serve g reqs). cbn in *. now rewrite IH.
  - specialize (IH g). destruct (serve g reqs). cbn in *. now rewrite IH.
Qed.

Lemma lifetime_nth (environ : str -> option str) (start : F)
  (reqs : list (Clock F * Request F)) (i : nat) (clk : Clock F) (req : Request F) :
  nth_error reqs i = Some (clk, req) ->
  nth_error (snd (lifetime environ start reqs)) i
  = Some (response_of (import_main environ start) clk req).
Proof.
  intros E. unfold lifetime. rewrite serve_responses.
  rewrite nth_error_map, E. reflexivity.
Qed.

(** The requests that have a route. *)
Lemma route_cases (clk : Clock F) (req : Request F) :
  route clk req = None
  \/ (method req = lit "GET"
      /\ (path req = lit "/" \/ path req = lit "/health" \/ path req = lit "/ready"
          \/ path req = lit "/metrics" \/ path req = lit "/api/info"))
  \/ (method req = lit "POST" /\ path req = lit "/api/process").
Proof.
  unfold route.
  destruct (PyStr.eqb (method req) (lit "GET")) eqn:G.
  - apply eqb_eq in G.
    destruct (PyStr.eqb (path req) (lit "/")) eqn:P1;
      [apply eqb_eq in P1; right; left; tauto|].
    destruct (PyStr.eqb (path req) (lit "/health")) eqn:P2;
      [apply eqb_eq in P2; right; left; tauto|].
    destruct (PyStr.eqb (path req) (lit "/ready")) eqn:P3;
      [apply eqb_eq in P3; right; left; tauto|].
    destruct (PyStr.eqb (path req) (lit "/metrics")) eqn:P4;
      [apply eqb_eq in P4; right; left; tauto|].
    destruct (PyStr.eqb (path req) (lit "/api/info")) eqn:P5;
      [apply eqb_eq in P5; right; left; tauto|].
    now left.
  - destruct (PyStr.eqb (method req) (lit "POST")) eqn:P; [|now left].
    apply eqb_eq in P.
    destruct (PyStr.eqb (path req) (lit "/api/process")) eqn:Q; [|now left].
    apply eqb_eq in Q. right; right. tauto.
Qed.

(** The exposition text of /metrics. *)
Lemma metrics_contains_uptime (uptime : F) (version environment : str) :
  contains (lit "app_uptime_seconds " ++ frepr uptime)
    (metrics_output uptime version environment).
Proof.
  exists (lit "# HELP app_uptime_seconds Application uptime in seconds" ++ nl
          ++ lit "# TYPE app_uptime_seconds gauge" ++ nl).
  eexists. unfold metrics_output. rewrite <- !app_assoc. reflexivity.
Qed.

Lemma metrics_contains_name (uptime : F) (version environment : str) :
  contains (lit "app_uptime_seconds") (metrics_output uptime version environment).
Proof.
  exists (lit "# HELP "). eexists. unfold metrics_output.
  change (lit "# HELP app_uptime_seconds Application uptime in seconds")
    with (lit "# HELP " ++ lit "app_uptime_seconds"
          ++ lit " Application uptime in seconds").
  rewrite <- !app_assoc. reflexivity.
Qed.

Lemma metrics_contains_info (uptime : F) (version environment : str) :
  contains (lit "app_info{version=" ++ dq ++ version ++ dq
            ++ lit ",environment=" ++ dq ++ environment ++ dq ++ lit "} 1")
    (metrics_output uptime version environment).
Proof.
  exists (lit "# HELP app_uptime_seconds Application uptime in seconds" ++ nl
          ++ lit "# TYPE app_uptime_seconds gauge" ++ nl
          ++ lit "app_uptime_seconds " ++ frepr uptime ++ nl ++ nl
          ++ lit "# HELP app_info Application information" ++ nl
          ++ lit "# TYPE app_info gauge" ++ nl).
  exists nl. unfold metrics_output. rewrite <- !app_assoc. reflexivity.
Qed.

Lemma metrics_contains_app_info (uptime : F) (version environment : str) :
  contains (lit "app_info") (metrics_output uptime version environment).
Proof.
  exists (lit "# HELP app_uptime_seconds Application uptime in seconds" ++ nl
          ++ lit "# TYPE app_uptime_seconds gauge" ++ nl
          ++ lit "app_uptime_seconds " ++ frepr uptime ++ nl ++ nl
          ++ lit "# HELP ").
  eexists. unfold metrics_output.
  change (lit "# HELP app_info Application information")
    with (lit "# HELP " ++ lit "app_info" ++ lit " Application information").
  rewrite <- !app_assoc. reflexivity.
Qed.

Lemma encodable_metrics_output (uptime : F) (version environment : str) :
  Utf8.encodable (frepr uptime) = true ->
  Utf8.encodable version = true -> Utf8.encodable environment = true ->
  Utf8.encodable (metrics_output uptime version environment) = true.
Proof.
  intros Eu Ev Ee. unfold metrics_output.
  rewrite !encodable_app, Eu, Ev, Ee. reflexivity.
Qed.

Lemma metrics_gauge_line (uptime : F) (version environment : str) :
  contains (nl ++ lit "app_uptime_seconds " ++ frepr uptime ++ nl)
    (metrics_output uptime version environment).
Proof.
  exists (lit "# HELP app_uptime_seconds Application uptime in seconds" ++ nl
          ++ lit "# TYPE app_uptime_seconds gauge").
  eexists. unfold metrics_output. rewrite <- !app_assoc. reflexivity.
Qed.

End ServiceFacts.

Section ValidationFacts.

Context {F : Type} `{FloatOps F} `{FloatRepr F} `{Interpreter}.


Lemma rejected_missing (errors : list (json F)) :
  read_body (Loaded None) = Rejected errors ->
  Json.renderable (validation_error_content errors) = true.
Proof.
  unfold read_body, validate_MessageRequest. intros E. injection E as <-. reflexivity.
Qed.

End ValidationFacts.

(** ** The uptime of two calls, on doubles *)

Section UptimeDoubles.

(** The rounded uptime of a finite uptime can be written. *)
Lemma b64_sendable_uptime (x : float) :
  is_finite x = true -> sendable_float (Binary64.round2 x) = true.
Proof.
  intros Fx. unfold sendable_float. cbn [isfinite Binary64.ops].
  rewrite b64_repr_encodable, andb_true_r.
  apply is_fin_finite. rewrite b64_round2_spec.
  apply SFround2_fin; [apply Prim2SF_valid|now apply is_finite_fin].
Qed.

(** Two clock readings at least 0.05 s apart, in a process that has been up
    for no more than [2 ^ 32] seconds, give different rounded uptimes. *)
Lemma b64_uptime_strict (s t1 t2 : float) :
  is_finite s = true -> is_finite t1 = true -> is_finite t2 = true ->
  PrimFloat.leb s t1 = true ->
  PrimFloat.leb 0.05 (t2 - t1) = true ->
  PrimFloat.leb (t2 - s) 0x1p32 = true ->
  PrimFloat.ltb (Binary64.round2 (t1 - s)) (Binary64.round2 (t2 - s)) = true.
Proof.
  intros Fs F1 F2 L Gap Up.
  rewrite ltb_spec, !b64_round2_spec. rewrite !leb_spec in *.
  rewrite !sub_spec in *. unfold SF64sub in *.
  pose proof (Prim2SF_valid s) as Vs. pose proof (Prim2SF_valid t1) as V1.
  pose proof (Prim2SF_valid t2) as V2.
  apply is_finite_fin in Fs, F1, F2.
  pose proof (SFleb_units _ _ Vs V1 Fs F1 L) as U1.
  pose proof (SFsub_rounds _ _ V2 V1 F2 F1) as R21.
  pose proof (SFsub_rounds _ _ V1 Vs F1 Fs) as R1.
  pose proof (SFsub_rounds _ _ V2 Vs F2 Fs) as R2.
  assert (V21 : valid_binary (SFsub prec emax (Prim2SF t2) (Prim2SF t1)) = true)
    by (rewrite <- sub_spec; apply Prim2SF_valid).
  assert (Vx : valid_binary (SFsub prec emax (Prim2SF t1) (Prim2SF s)) = true)
    by (rewrite <- sub_spec; apply Prim2SF_valid).
  assert (Vy : valid_binary (SFsub prec emax (Prim2SF t2) (Prim2SF s)) = true)
    by (rewrite <- sub_spec; apply Prim2SF_valid).
  (* the second reading is more than 2^-5 s after the first *)
  pose proof (rounds_to_above _ _ (Prim2SF 0.05) (2 ^ 52) (-57) R21 V21
                eq_refl eq_refl eq_refl eq_refl Gap) as G.
  change (units (S754_finite false (2 ^ 52) (-57))) with (2 ^ 1069) in G.
  (* the uptime at the second call is below 2^33 s *)
  pose proof (rounds_to_below _ _ (Prim2SF 0x1p32) (2 ^ 52) (-19) R2 Vy
                eq_refl eq_refl eq_refl eq_refl Up) as B.
  change (units (S754_finite false (2 ^ 52) (-19))) with (2 ^ 1107) in B.
  set (S := units (Prim2SF s)) in *.
  set (T1 := units (Prim2SF t1)) in *. set (T2 := units (Prim2SF t2)) in *.
  assert (P69 : 0 < 2 ^ 1069) by (apply pow2_pos; lia).
  destruct (rounds_to_units _ _ 1054 R1 ltac:(lia) ltac:(change (1054 + 53) with 1107; lia)
              ltac:(lia)) as (Fx & _ & X0 & Ex).
  destruct (rounds_to_units _ _ 1054 R2 ltac:(lia) ltac:(change (1054 + 53) with 1107; lia)
              ltac:(lia)) as (Fy & _ & _ & Ey).
  change (1054 + 1) with 1055 in Ex, Ey.
  assert (Y69 : 2 ^ 1069 = 2 * 2 ^ 1068) by reflexivity.
  assert (Y68 : 2 ^ 1068 = 8192 * 2 ^ 1055) by reflexivity.
  assert (Y107 : 2 ^ 1107 = 2 ^ 52 * 2 ^ 1055) by reflexivity.
  assert (Y114 : 2 ^ 1114 = 2 ^ 59 * 2 ^ 1055) by reflexivity.
  assert (P55 : 0 < 2 ^ 1055) by (apply pow2_pos; lia).
  assert (P52 : 2 ^ 52 + 1 < 2 ^ 59) by reflexivity.
  apply SFround2_strict; try assumption.
  - set (A := 2 ^ 1055) in *. set (C := 2 ^ 52) in *. set (E := 2 ^ 59) in *.
    clearbody A C E. lia.
  - set (A := 2 ^ 1055) in *. set (C := 2 ^ 52) in *. set (E := 2 ^ 59) in *.
    clearbody A C E. nia.
Qed.

End UptimeDoubles.

(** ** The claims *)

Section Claims.

Context {F : Type} `{FloatOps F} `{FloatRepr F} `{Interpreter}.

(** C1, as amended: for a body whose [message] is a string that UTF-8 can
    encode, POST /api/process answers 200 with [original] the message
    unchanged, [processed] the message upper-cased and then stripped, which
    is also the message stripped and then upper-cased, and [length] the
    number of characters of [processed]; a message with a lone surrogate is
    answered with the 500 page of the server.  "hello world" gives
    "HELLO WORLD" of length 11, the empty string gives the empty string of
    length 0, and "  test message  " gives "TEST MESSAGE". *)
Theorem process_message_transforms (g : Globals F) (clk : Clock F)
  (items : list (str * json F)) (message : str) :
  Json.get (lit "message") items = Some (JStr message) ->
  response_of g clk (POST "/api/process" (JDict items))
  = Some (if Utf8.encodable message
          then JSONResponse 200
                 (JDict [(lit "original", JStr message);
                         (lit "processed", JStr (strip (upper message)));
                         (lit "length", JInt (len (strip (upper message))));
                         (lit "timestamp", JStr (isoformat (utcnow clk)))])
                 application_json
          else PlainTextResponse 500 (lit "Internal Server Error"))
  /\ strip (upper message) = upper (strip message)
  /\ (strip (upper (lit "hello world")) = lit "HELLO WORLD"
      /\ len (strip (upper (lit "hello world"))) = 11)
  /\ (strip (upper (lit "")) = lit "" /\ len (strip (upper (lit ""))) = 0)
  /\ strip (upper (lit "  test message  ")) = lit "TEST MESSAGE".
Proof.
  intros E. split; [|split; [apply upper_strip_commute|repeat split]].
  unfold response_of. now rewrite (handle_process g clk items message E).
Qed.

(** C2, as amended: GET /health answers 200 with [status] "healthy",
    [version] and [environment] the values of the module globals, and
    [uptime_seconds] the clock reading minus the start time, rounded to 2
    decimals, when the version and the environment are texts that UTF-8 can
    encode and the uptime is finite; otherwise it answers with the 500 page
    of the server. *)
Theorem health_check_response (g : Globals F) (clk : Clock F) (b : option (json F)) :
  response_of g clk (request "GET" "/health" b)
  = Some (if sendable_config g
             && sendable_float (round2 (fsub (time_time clk) (APP_START_TIME g)))
          then JSONResponse 200
                 (JDict [(lit "status", JStr (lit "healthy"));
                         (lit "timestamp", JStr (isoformat (utcnow clk)));
                         (lit "uptime_seconds",
                          JFloat (round2 (fsub (time_time clk) (APP_START_TIME g))));
                         (lit "version", JStr (APP_VERSION g));
                         (lit "environment", JStr (ENVIRONMENT g))])
                 application_json
          else PlainTextResponse 500 (lit "Internal Server Error")).
Proof.
  unfold response_of. rewrite (handle_health g clk (Loaded b)). cbv zeta.
  rewrite renderable_health, andb_comm. reflexivity.
Qed.


End Claims.

Section Claims2.

Context {F : Type} `{FloatOps F} `{FloatRepr F} `{Interpreter}.

(** C6: GET /ready answers 200 with [ready] true and a timestamp, for every
    state and clock; the [except] branch, which would answer 503 "Service
    not ready", is never entered: nothing is logged and nothing raised. *)
Theorem readiness_always_ready (g : Globals F) (clk : Clock F) (b : option (json F)) :
  handle g clk (request "GET" "/ready" b)
  = Some (g, [],
      JSONResponse 200
        (JDict [(lit "ready", JBool true);
                (lit "timestamp", JStr (isoformat (utcnow clk)))])
        application_json)
  /\ readiness_check clk g
     = (g, [], Return (JSONResponse 200
                         (JDict [(lit "ready", JBool true);
                                 (lit "timestamp", JStr (isoformat (utcnow clk)))])
                         application_json))
  /\ (forall e : exn,
        respond (snd (readiness_check_except e g))
        = JSONResponse 503 (JDict [(lit "detail", JStr (lit "Service not ready"))])
            application_json).
Proof.
  split; [apply (handle_ready g clk (Loaded b))|]. split; [apply readiness_check_returns|].
  intros e. reflexivity.
Qed.

(** C9: for a body with a string [message] the request object holds that
    string, and the handler of /api/process returns: it writes its INFO
    record and raises nothing, so the [except] branch is not entered, no
    ERROR record is written, and the response is not the 500 "Internal
    server error" of that branch (it is 200, or the 500 page of the server
    when the message cannot be encoded, which is decided after the handler
    has returned).  The branch is real: for a request object whose
    [message] is not a string the lookup of [upper] raises, and for whatever
    the body of the [try] raises the caller gets 500 with the fixed detail
    "Internal server error"; the text of the exception goes to the log
    only. *)
Theorem process_message_never_faults (g : Globals F) (clk : Clock F)
  (items : list (str * json F)) (s : str) :
  Json.get (lit "message") items = Some (JStr s) ->
  read_body (Loaded (Some (JDict items))) = Accepted {| MessageRequest.message := JStr s |}
  /\ process_message clk {| MessageRequest.message := JStr s |} g
     = (g,
        [Build_LogRecord INFO
           (lit "Processed message: " ++ s ++ lit " -> " ++ strip (upper s))],
        Return {| MessageResponse.original := s;
                  MessageResponse.processed := strip (upper s);
                  MessageResponse.length := len (strip (upper s));
                  MessageResponse.timestamp := isoformat (utcnow clk) |})
  /\ (exists logs r,
        handle g clk (POST "/api/process" (JDict items)) = Some (g, logs, r)
        /\ Forall (fun record => level record = INFO) logs
        /\ r <> JSONResponse 500
                  (JDict [(lit "detail", JStr (lit "Internal server error"))])
                  application_json
        /\ (status_code r = 200 \/ r = PlainTextResponse 500 (lit "Internal Server Error")))
  /\ (forall v : json F,
        (forall t, v <> JStr t) ->
        process_message clk {| MessageRequest.message := v |} g
        = (g,
           [Build_LogRecord ERROR
              (lit "Error processing message: '" ++ Json.type_name v
               ++ lit "' object has no attribute 'upper'")],
           Raise (HTTPException 500 (lit "Internal server error"))))
  /\ (forall (body : M (Globals F) MessageResponse.t) g1 logs1 e,
        body g = (g1, logs1, Raise e) ->
        exists o,
          serialize (@MessageResponse.to_json F)
            (try_except body process_message_except) g
          = (g1,
             logs1 ++ [Build_LogRecord ERROR (lit "Error processing message: " ++ exn_str e)],
             o)
          /\ respond o
             = JSONResponse 500
                 (JDict [(lit "detail", JStr (lit "Internal server error"))])
                 application_json).
Proof.
  intros E. split.
  { apply read_body_accepted. exists s. split; [exact E|reflexivity]. }
  split; [apply process_message_returns|]. split.
  { rewrite (handle_process g clk items s E). do 2 eexists. split; [reflexivity|].
    split; [repeat constructor|].
    destruct (Utf8.encodable s); split; try discriminate; [now left|now right]. }
  split.
  - intros v N. destruct v as [| | | |t| |]; try reflexivity. now elim (N t).
  - intros body g1 logs1 e E1. eexists.
    unfold serialize, bind, try_except. rewrite E1. cbn. split; reflexivity.
Qed.

(** C8, as amended: the timestamp of /health, /ready and /api/process is
    [isoformat] of the UTC clock reading; it has the shape
    YYYY-MM-DDTHH:MM:SS.ffffff when the microseconds of the reading are not
    zero and the shape YYYY-MM-DDTHH:MM:SS when they are zero, and in both
    cases nothing follows the time (no timezone suffix).  This is for
    responses that can be sent: a message, a version and an environment that
    UTF-8 can encode, and a finite uptime. *)
Theorem timestamp_shape (g : Globals F) (clk : Clock F) (b : option (json F))
  (items : list (str * json F)) (message : str) :
  valid (utcnow clk) = true ->
  Json.get (lit "message") items = Some (JStr message) ->
  Utf8.encodable message = true ->
  sendable_config g = true ->
  sendable_float (round2 (fsub (time_time clk) (APP_START_TIME g))) = true ->
  let ts := isoformat (utcnow clk) in
  field (lit "timestamp") (response_of g clk (request "GET" "/health" b))
  = Some (JStr ts)
  /\ field (lit "timestamp") (response_of g clk (request "GET" "/ready" b))
     = Some (JStr ts)
  /\ field (lit "timestamp") (response_of g clk (POST "/api/process" (JDict items)))
     = Some (JStr ts)
  /\ (if microsecond (utcnow clk) =? 0
      then matches shape_s ts = true
      else matches shape_us ts = true).
Proof.
  intros V E Em Sc Sf ts. split; [|split; [|split]].
  - unfold response_of. rewrite (handle_health g clk (Loaded b)). cbv zeta.
    rewrite renderable_health, Sc, Sf. reflexivity.
  - unfold response_of. now rewrite (handle_ready g clk (Loaded b)).
  - unfold response_of. rewrite (handle_process g clk items message E), Em. reflexivity.
  - now apply isoformat_shape.
Qed.

(** C7, as amended: the configuration is made by the body of the module,
    [APP_VERSION] and [ENVIRONMENT] from the environment with the defaults
    "1.0.0" and "development", once for each execution of the file: once
    when the file is imported as [main], twice when it is run as a script,
    where the server answers from the second one.  No request changes it:
    the globals after any number of requests are those of the start, every
    response is computed from them, and the version and the environment that
    /, /health, /metrics and /api/info return, when they can be sent, are
    those values. *)
Theorem config_fixed_at_startup (name : str) (environ : str -> option str)
  (times : F * F) (reqs : list (Clock F * Request F)) :
  let made := fst (run_module name environ times reqs) in
  let g0 := last made (import_main environ (fst times)) in
  Forall (fun g =>
            APP_VERSION g = match environ (lit "APP_VERSION") with
                            | Some v => v | None => lit "1.0.0" end
            /\ ENVIRONMENT g = match environ (lit "ENVIRONMENT") with
                               | Some v => v | None => lit "development" end) made
  /\ (name = lit "__main__" ->
      map APP_START_TIME made = [fst times; snd times]
      /\ snd (run_module name environ times reqs) = Some (run environ (snd times) reqs)
      /\ snd (run environ (snd times) reqs)
         = map (fun cr => response_of g0 (fst cr) (snd cr)) reqs)
  /\ (name <> lit "__main__" ->
      made = [import_main environ (fst times)]
      /\ snd (run_module name environ times reqs) = None)
  /\ (forall g clk req g' logs r, handle g clk req = Some (g', logs, r) -> g' = g)
  /\ (forall k, fst (serve g0 (firstn k reqs)) = g0)
  /\ (forall clk b,
        let u := round2 (fsub (time_time clk) (APP_START_TIME g0)) in
        field (lit "version") (response_of g0 clk (request "GET" "/" b))
        = (if Utf8.encodable (APP_VERSION g0)
           then Some (JStr (APP_VERSION g0)) else None)
        /\ field (lit "version") (response_of g0 clk (request "GET" "/health" b))
           = (if sendable_config g0 && sendable_float u
              then Some (JStr (APP_VERSION g0)) else None)
        /\ field (lit "environment") (response_of g0 clk (request "GET" "/health" b))
           = (if sendable_config g0 && sendable_float u
              then Some (JStr (ENVIRONMENT g0)) else None)
        /\ field (lit "version") (response_of g0 clk (request "GET" "/api/info" b))
           = (if sendable_config g0 && sendable_float u && Utf8.encodable sys_version
              then Some (JStr (APP_VERSION g0)) else None)
        /\ field (lit "environment") (response_of g0 clk (request "GET" "/api/info" b))
           = (if sendable_config g0 && sendable_float u && Utf8.encodable sys_version
              then Some (JStr (ENVIRONMENT g0)) else None)
        /\ exists text,
             response_of g0 clk (request "GET" "/metrics" b)
             = Some (if Utf8.encodable
                          (frepr (fsub (time_time clk) (APP_START_TIME g0)))
                        && sendable_config g0
                     then JSONResponse 200 (JStr text) (lit "text/plain")
                     else PlainTextResponse 500 (lit "Internal Server Error"))
             /\ contains (lit "app_info{version=" ++ dq ++ APP_VERSION g0 ++ dq
                          ++ lit ",environment=" ++ dq ++ ENVIRONMENT g0 ++ dq
                          ++ lit "} 1") text).
Proof.
  intros made g0. split; [|split; [|split; [|split; [|split]]]].
  - subst made. unfold run_module. destruct (PyStr.eqb name (lit "__main__"));
      cbn [fst]; repeat constructor.
  - intros ->. subst g0 made. unfold run_module.
    change (PyStr.eqb (lit "__main__") (lit "__main__")) with true. cbn [fst snd map last].
    split; [reflexivity|]. split; [reflexivity|].
    unfold run. cbn [startup_event].
    set (g1 := import_main environ (snd times)).
    change (APP_START_TIME g1) with (snd times).
    pose proof (serve_responses reqs g1) as S.
    change (startup_event g1)
      with (g1,
            [Build_LogRecord INFO
               ([128640] ++ lit " Starting " ++ app_title ++ lit " v" ++ APP_VERSION g1);
             Build_LogRecord INFO ([128205] ++ lit " Environment: " ++ ENVIRONMENT g1);
             Build_LogRecord INFO ([9989] ++ lit " Application started successfully")],
            Return tt).
    cbv iota. destruct (serve g1 reqs) as [g2 resps]. exact S.
  - intros N. subst made. unfold run_module.
    destruct (PyStr.eqb name (lit "__main__")) eqn:E; [|split; reflexivity].
    apply eqb_eq in E. now elim N.
  - intros g clk req g' logs r. apply handle_globals.
  - intros k. apply serve_globals.
  - intros clk b u. unfold response_of. repeat split.
    + rewrite (handle_root g0 clk (Loaded b)). cbv zeta. rewrite renderable_root.
      now destruct (Utf8.encodable (APP_VERSION g0)).
    + rewrite (handle_health g0 clk (Loaded b)). cbv zeta.
      rewrite renderable_health. fold u. rewrite andb_comm.
      now destruct (sendable_config g0 && sendable_float u).
    + rewrite (handle_health g0 clk (Loaded b)). cbv zeta.
      rewrite renderable_health. fold u. rewrite andb_comm.
      now destruct (sendable_config g0 && sendable_float u).
    + rewrite (handle_info g0 clk (Loaded b)). cbv zeta.
      rewrite renderable_info. fold u.
      now destruct (sendable_config g0 && sendable_float u && Utf8.encodable sys_version).
    + rewrite (handle_info g0 clk (Loaded b)). cbv zeta.
      rewrite renderable_info. fold u.
      now destruct (sendable_config g0 && sendable_float u && Utf8.encodable sys_version).
    + eexists. split; [|apply metrics_contains_info].
      rewrite (handle_metrics g0 clk (Loaded b)). cbv zeta.
      rewrite renderable_metrics. reflexivity.
Qed.

End Claims2.

(** ** The uptime on IEEE doubles *)

Section ClaimsOnDoubles.

Context `{Interpreter}.

(** C4, as amended: GET /metrics answers 200 when the version and the
    environment are texts that UTF-8 can encode, and with the 500 page of
    the server otherwise.  The content is the exposition text: it contains
    [app_uptime_seconds], a line made of that name and the [repr] of the
    clock reading minus the start time, and the line
    [app_info{version="<v>",environment="<e>"} 1] with the values of the
    globals.  The text is the content of a JSON response: the body is the
    text written as one JSON string, which is not the text and which
    [json.loads] reads back as the text.  1.234 s after the start of the
    sample process the body is the JSON string shown, with the gauge at
    1.2339999675750732. *)
Theorem metrics_response (g : Globals float) (clk : Clock float)
  (b : option (json float)) :
  let uptime := fsub (time_time clk) (APP_START_TIME g) in
  let text := metrics_output uptime (APP_VERSION g) (ENVIRONMENT g) in
  let response := JSONResponse 200 (JStr text) (lit "text/plain") in
  response_of g clk (request "GET" "/metrics" b)
  = Some (if sendable_config g then response
          else PlainTextResponse 500 (lit "Internal Server Error"))
  /\ contains (lit "app_uptime_seconds") text
  /\ contains (nl ++ lit "app_uptime_seconds " ++ Binary64.repr uptime ++ nl) text
  /\ contains (lit "app_info{version=" ++ dq ++ APP_VERSION g ++ dq
               ++ lit ",environment=" ++ dq ++ ENVIRONMENT g ++ dq ++ lit "} 1") text
  /\ render response = Some (Json.encode_basestring text)
  /\ JsonDecoder.loads_str (Json.encode_basestring text) = Some text
  /\ JsonDecoder.loads_str text = None
  /\ option_map render (response_of Sample.globals Sample.clock_1s (GET "/metrics"))
     = Some (Some
         (dq ++ lit "# HELP app_uptime_seconds Application uptime in seconds\n"
          ++ lit "# TYPE app_uptime_seconds gauge\n"
          ++ lit "app_uptime_seconds 1.2339999675750732\n\n"
          ++ lit "# HELP app_info Application information\n"
          ++ lit "# TYPE app_info gauge\n"
          ++ lit "app_info{version=\" ++ dq ++ lit "1.0.0\" ++ dq
          ++ lit ",environment=\" ++ dq ++ lit "development\" ++ dq
          ++ lit "} 1\n" ++ dq)).
Proof.
  intros uptime text response. split; [|split; [|split; [|split; [|split; [|split; [|split]]]]]].
  - unfold response_of. rewrite (handle_metrics g clk (Loaded b)). cbv zeta.
    rewrite renderable_metrics, b64_repr_encodable. reflexivity.
  - exact (metrics_contains_name uptime (APP_VERSION g) (ENVIRONMENT g)).
  - exact (metrics_gauge_line uptime (APP_VERSION g) (ENVIRONMENT g)).
  - exact (metrics_contains_info uptime (APP_VERSION g) (ENVIRONMENT g)).
  - reflexivity.
  - apply loads_encode_basestring.
  - reflexivity.
  - vm_compute. reflexivity.
Qed.

(** C10: /metrics writes the clock reading minus the start time as it is,
    while /health and /api/info report that difference rounded to 2
    decimals (all three when the version, the environment and the version
    of the interpreter can be encoded and the difference is finite); the two
    values can differ for one clock reading: 1.234 s after the start
    /metrics writes 1.2339999675750732 and the JSON endpoints report
    1.23. *)
Theorem metrics_uptime_unrounded (g : Globals float) (clk : Clock float)
  (b : option (json float)) :
  let raw := fsub (time_time clk) (APP_START_TIME g) in
  sendable_config g = true ->
  Utf8.encodable sys_version = true ->
  isfinite raw = true ->
  (response_of g clk (request "GET" "/metrics" b)
   = Some (JSONResponse 200
             (JStr (metrics_output raw (APP_VERSION g) (ENVIRONMENT g)))
             (lit "text/plain"))
   /\ contains (nl ++ lit "app_uptime_seconds " ++ frepr raw ++ nl)
        (metrics_output raw (APP_VERSION g) (ENVIRONMENT g))
   /\ uptime_seconds_of (response_of g clk (request "GET" "/health" b))
      = Some (round2 raw)
   /\ uptime_seconds_of (response_of g clk (request "GET" "/api/info" b))
      = Some (round2 raw))
  /\ (let raw := fsub (time_time Sample.clock_1s) (APP_START_TIME Sample.globals) in
      frepr raw = lit "1.2339999675750732"
      /\ frepr (round2 raw) = lit "1.23"
      /\ flt (round2 raw) raw = true).
Proof.
  intros raw Sc Sv Fr. split.
  - pose proof (b64_sendable_uptime raw Fr) as Su.
    split; [|split; [exact (metrics_gauge_line raw (APP_VERSION g) (ENVIRONMENT g))|split]].
    + unfold response_of. rewrite (handle_metrics g clk (Loaded b)). cbv zeta.
      rewrite renderable_metrics, b64_repr_encodable. fold (sendable_config g).
      now rewrite Sc.
    + unfold response_of. rewrite (handle_health g clk (Loaded b)). cbv zeta.
      rewrite renderable_health. fold raw.
      change (round2 raw) with (Binary64.round2 raw). now rewrite Su, Sc.
    + unfold response_of. rewrite (handle_info g clk (Loaded b)). cbv zeta.
      rewrite renderable_info. fold raw.
      change (round2 raw) with (Binary64.round2 raw). now rewrite Su, Sc, Sv.
  - vm_compute. repeat split.
Qed.

(** C5, as amended: within one process lifetime, when the clock reading of a
    later /health call is not below that of an earlier one, the later
    [uptime_seconds] is not below the earlier one; and it is larger when
    the later reading is at least 0.05 s after the earlier one, for a
    process that has been up for no more than [2 ^ 32] seconds.  (After a
    shorter sleep it need not be larger: the value is rounded to 2
    decimals.)  This is for a process whose version and environment can be
    encoded and for finite uptimes. *)
Theorem uptime_never_decreases (environ : str -> option str) (start : float)
  (reqs : list (Clock float * Request float)) (i j : nat)
  (clk_i clk_j : Clock float) (b_i b_j : option (json float)) :
  (i <= j)%nat ->
  nth_error reqs i = Some (clk_i, request "GET" "/health" b_i) ->
  nth_error reqs j = Some (clk_j, request "GET" "/health" b_j) ->
  sendable_config (import_main environ start) = true ->
  isfinite start = true ->
  isfinite (time_time clk_i) = true ->
  isfinite (time_time clk_j) = true ->
  isfinite (fsub (time_time clk_i) start) = true ->
  isfinite (fsub (time_time clk_j) start) = true ->
  fle (time_time clk_i) (time_time clk_j) = true ->
  exists r_i r_j u_i u_j,
    nth_error (snd (lifetime environ start reqs)) i = Some r_i
    /\ nth_error (snd (lifetime environ start reqs)) j = Some r_j
    /\ uptime_seconds_of r_i = Some u_i
    /\ uptime_seconds_of r_j = Some u_j
    /\ fle u_i u_j = true
    /\ (fle start (time_time clk_i) = true ->
        fle 0.05%float (fsub (time_time clk_j) (time_time clk_i)) = true ->
        fle (fsub (time_time clk_j) start) 0x1p32%float = true ->
        flt u_i u_j = true).
Proof.
  intros _ Ei Ej Sc Fs Fi Fj Fui Fuj Hle.
  pose proof (b64_sendable_uptime _ Fui) as Si.
  pose proof (b64_sendable_uptime _ Fuj) as Sj.
  assert (U : forall clk b,
             sendable_float (Binary64.round2 (fsub (time_time clk) start)) = true ->
             uptime_seconds_of
               (response_of (import_main environ start) clk (request "GET" "/health" b))
             = Some (round2 (fsub (time_time clk) start))).
  { intros clk b S. unfold response_of.
    rewrite (handle_health (import_main environ start) clk (Loaded b)). cbv zeta.
    rewrite renderable_health. cbn [APP_START_TIME import_main].
    change (round2 (fsub (time_time clk) start))
      with (Binary64.round2 (fsub (time_time clk) start)).
    now rewrite S, Sc. }
  do 2 eexists.
  exists (round2 (fsub (time_time clk_i) start)), (round2 (fsub (time_time clk_j) start)).
  split; [exact (lifetime_nth environ start reqs i _ _ Ei)|].
  split; [exact (lifetime_nth environ start reqs j _ _ Ej)|].
  split; [exact (U clk_i b_i Si)|]. split; [exact (U clk_j b_j Sj)|].
  split.
  - apply b64_round2_mono. now apply b64_sub_mono.
  - intros L Gap Up. now apply b64_uptime_strict.
Qed.

End ClaimsOnDoubles.

(** ** Where the claims fail as they were made *)

(** The claim C1 as stated fails: the message "\ud800" is a string that the
    validation accepts, and the response is the 500 page of the server,
    with no [processed], no [length] and no [original]. *)
Lemma surrogate_message_not_processed :
  read_body (Loaded (Some (JDict Sample.surrogate)))
  = Accepted {| MessageRequest.message := JStr [55296] |}
  /\ response_of Sample.globals Sample.clock_1s
       (POST "/api/process" (JDict Sample.surrogate))
     = Some (PlainTextResponse 500 (lit "Internal Server Error"))
  /\ field (lit "processed")
       (response_of Sample.globals Sample.clock_1s
          (POST "/api/process" (JDict Sample.surrogate)))
     = None.
Proof. vm_compute. repeat split. Qed.

(** The claim C2 as stated fails: in a process started with an
    [APP_VERSION] that is not UTF-8, GET /health answers 500. *)
Lemma health_unencodable_version :
  APP_VERSION (import_main Sample.environ_bytes 1704067200%float) = [56575]
  /\ option_map status_code
       (response_of (import_main Sample.environ_bytes 1704067200%float)
          Sample.clock_1min (GET "/health"))
     = Some 500.
Proof. vm_compute. split; reflexivity. Qed.


(** The claim C4 as stated fails: in a process started with an
    [APP_VERSION] that is not UTF-8, GET /metrics answers 500. *)
Lemma metrics_unencodable_version :
  option_map status_code
    (response_of (import_main Sample.environ_bytes 1704067200%float)
       Sample.clock_1min (GET "/metrics"))
  = Some 500.
Proof. vm_compute. reflexivity. Qed.

(** The claim C5 as stated fails: 1 ms and 2 ms after the start the clock
    has advanced, and /health reports 0.0 both times. *)
Lemma uptime_not_strictly_increasing :
  flt (time_time Sample.clock_1ms) (time_time Sample.clock_2ms) = true
  /\ uptime_seconds_of (response_of Sample.globals Sample.clock_1ms (GET "/health"))
     = Some 0%float
  /\ uptime_seconds_of (response_of Sample.globals Sample.clock_2ms (GET "/health"))
     = Some 0%float
  /\ flt 0%float 0%float = false.
Proof. vm_compute. repeat split. Qed.

(** The claim C7 as stated fails: when the file is run as a script the
    configuration is made twice, at two clock readings, and the server
    answers from the second one, not from the one made at process start. *)
Lemma config_made_twice :
  let made := fst (run_module (lit "__main__") Sample.environ
                     (1704067200%float, 1704067201%float) Cases.later_requests) in
  List.length made = 2%nat
  /\ map APP_START_TIME made = [1704067200%float; 1704067201%float]
  /\ option_map snd
       (snd (run_module (lit "__main__") Sample.environ
               (1704067200%float, 1704067201%float) Cases.later_requests))
     = Some (map (fun cr => response_of Cases.later_globals (fst cr) (snd cr))
               Cases.later_requests)
  /\ map uptime_seconds_of
       (map (fun cr => response_of Cases.later_globals (fst cr) (snd cr))
          Cases.later_requests)
     = [Some 0.23%float; Some 59%float]
  /\ map uptime_seconds_of
       (map (fun cr => response_of Sample.globals (fst cr) (snd cr))
          Cases.later_requests)
     = [Some 1.23%float; Some 60%float].
Proof. vm_compute. repeat split. Qed.

(** The claim C8 as stated fails: one minute after the start the clock
    reading has no microseconds, and the timestamp has no fraction. *)
Lemma timestamp_without_fraction :
  valid (utcnow Sample.clock_1min) = true
  /\ field (lit "timestamp")
       (response_of Sample.globals Sample.clock_1min (GET "/health"))
     = Some (JStr (lit "2024-01-01T00:01:00"))
  /\ matches shape_us (lit "2024-01-01T00:01:00") = false.
Proof. vm_compute. repeat split. Qed.

(** ** The theorems at concrete inputs *)

Lemma process_message_transforms_witness :
  Json.get (lit "message") Sample.hello = Some (JStr (lit "hello world"))
  /\ response_of Sample.globals Sample.clock_1s
       (POST "/api/process" (JDict Sample.hello))
     = Some (JSONResponse 200
               (JDict [(lit "original", JStr (lit "hello world"));
                       (lit "processed", JStr (lit "HELLO WORLD"));
                       (lit "length", JInt 11);
                       (lit "timestamp", JStr (lit "2024-01-01T00:00:01.234000"))])
               application_json).
Proof.
  split; [reflexivity|].
  exact (proj1 (process_message_transforms Sample.globals Sample.clock_1s
                  Sample.hello (lit "hello world") eq_refl)).
Defined.

Lemma process_message_never_faults_witness :
  Json.get (lit "message") Sample.surrogate = Some (JStr [55296])
  /\ exists logs r,
       handle Sample.globals Sample.clock_1s (POST "/api/process" (JDict Sample.surrogate))
       = Some (Sample.globals, logs, r)
       /\ Forall (fun record => level record = INFO) logs
       /\ r <> JSONResponse 500
                 (JDict [(lit "detail", JStr (lit "Internal server error"))])
                 application_json.
Proof.
  split; [reflexivity|].
  destruct (proj1 (proj2 (proj2 (process_message_never_faults Sample.globals
                                   Sample.clock_1s Sample.surrogate [55296] eq_refl))))
    as (logs & r & E & A & N & _).
  exists logs, r. split; [exact E|]. split; [exact A|exact N].
Defined.

Lemma timestamp_shape_witness :
  valid (utcnow Sample.clock_1s) = true
  /\ Json.get (lit "message") Sample.hello = Some (JStr (lit "hello world"))
  /\ Utf8.encodable (lit "hello world") = true
  /\ sendable_config Sample.globals = true
  /\ sendable_float (round2 (fsub (time_time Sample.clock_1s)
                               (APP_START_TIME Sample.globals))) = true
  /\ field (lit "timestamp")
       (response_of Sample.globals Sample.clock_1s (request "GET" "/health" None))
     = Some (JStr (lit "2024-01-01T00:00:01.234000"))
  /\ field (lit "timestamp")
       (response_of Sample.globals Sample.clock_1s (request "GET" "/ready" None))
     = Some (JStr (lit "2024-01-01T00:00:01.234000"))
  /\ matches shape_us (lit "2024-01-01T00:00:01.234000") = true.
Proof.
  split; [reflexivity|]. split; [reflexivity|]. split; [reflexivity|].
  split; [reflexivity|].
  assert (Sf : sendable_float (round2 (fsub (time_time Sample.clock_1s)
                                          (APP_START_TIME Sample.globals))) = true)
    by (apply b64_sendable_uptime; reflexivity).
  split; [exact Sf|].
  pose proof (timestamp_shape Sample.globals Sample.clock_1s None
                Sample.hello (lit "hello world") eq_refl eq_refl eq_refl eq_refl
                Sf) as T.
  split; [exact (proj1 T)|].
  split; [exact (proj1 (proj2 T))|exact (proj2 (proj2 (proj2 T)))].
Defined.

Lemma metrics_uptime_unrounded_witness :
  sendable_config Sample.globals = true
  /\ Utf8.encodable sys_version = true
  /\ isfinite (fsub (time_time Sample.clock_1s) (APP_START_TIME Sample.globals)) = true
  /\ uptime_seconds_of
       (response_of Sample.globals Sample.clock_1s (request "GET" "/health" None))
     = Some (round2 (fsub (time_time Sample.clock_1s) (APP_START_TIME Sample.globals)))
  /\ uptime_seconds_of
       (response_of Sample.globals Sample.clock_1s (request "GET" "/api/info" None))
     = Some (round2 (fsub (time_time Sample.clock_1s) (APP_START_TIME Sample.globals))).
Proof.
  split; [reflexivity|]. split; [reflexivity|]. split; [reflexivity|].
  destruct (proj1 (metrics_uptime_unrounded (H:=cpython) Sample.globals Sample.clock_1s None
                     eq_refl eq_refl eq_refl)) as (_ & _ & Hh & Hi).
  split; [exact Hh|exact Hi].
Defined.

Lemma uptime_never_decreases_witness :
  (0 <= 1)%nat
  /\ nth_error Sample.requests 0 = Some (Sample.clock_1ms, GET "/health")
  /\ nth_error Sample.requests 1 = Some (Sample.clock_1s, GET "/health")
  /\ sendable_config (import_main Sample.environ 1704067200%float) = true
  /\ isfinite 1704067200%float = true
  /\ isfinite (time_time Sample.clock_1ms) = true
  /\ isfinite (time_time Sample.clock_1s) = true
  /\ isfinite (fsub (time_time Sample.clock_1ms) 1704067200%float) = true
  /\ isfinite (fsub (time_time Sample.clock_1s) 1704067200%float) = true
  /\ fle (time_time Sample.clock_1ms) (time_time Sample.clock_1s) = true
  /\ fle 1704067200%float (time_time Sample.clock_1ms) = true
  /\ fle 0.05%float (fsub (time_time Sample.clock_1s) (time_time Sample.clock_1ms)) = true
  /\ fle (fsub (time_time Sample.clock_1s) 1704067200%float) 0x1p32%float = true
  /\ exists r_i r_j u_i u_j,
       nth_error (snd (lifetime Sample.environ 1704067200%float Sample.requests)) 0
       = Some r_i
       /\ nth_error (snd (lifetime Sample.environ 1704067200%float Sample.requests)) 1
          = Some r_j
       /\ uptime_seconds_of r_i = Some u_i
       /\ uptime_seconds_of r_j = Some u_j
       /\ fle u_i u_j = true
       /\ flt u_i u_j = true.
Proof.
  split; [apply le_S, le_n|]. do 12 (split; [reflexivity|]).
  destruct (uptime_never_decreases Sample.environ 1704067200%float
              Sample.requests 0 1 Sample.clock_1ms Sample.clock_1s
              None None (le_S _ _ (le_n 0)) eq_refl eq_refl eq_refl eq_refl eq_refl
              eq_refl eq_refl eq_refl eq_refl)
    as (r_i & r_j & u_i & u_j & Ei & Ej & Ui & Uj & Le & Lt).
  exists r_i, r_j, u_i, u_j.
  do 5 (split; [assumption|]). exact (Lt eq_refl eq_refl eq_refl).
Defined.

(** ** The service on sample requests *)

Example metrics_on_doubles :
  option_map render (response_of Sample.globals Sample.clock_1s (GET "/metrics"))
  = Some (Some (Json.encode_basestring
       (lit "# HELP app_uptime_seconds Application uptime in seconds" ++ nl
        ++ lit "# TYPE app_uptime_seconds gauge" ++ nl
        ++ lit "app_uptime_seconds 1.2339999675750732" ++ nl ++ nl
        ++ lit "# HELP app_info Application information" ++ nl
        ++ lit "# TYPE app_info gauge" ++ nl
        ++ lit "app_info{version=" ++ dq ++ lit "1.0.0" ++ dq
        ++ lit ",environment=" ++ dq ++ lit "development" ++ dq ++ lit "} 1" ++ nl))).
Proof. vm_compute. reflexivity. Qed.

Example health_on_doubles :
  option_map render (response_of Sample.globals Sample.clock_1s (GET "/health"))
  = Some (Some (lit "{" ++ dq ++ lit "status" ++ dq ++ lit ":" ++ dq ++ lit "healthy" ++ dq
       ++ lit "," ++ dq ++ lit "timestamp" ++ dq ++ lit ":"
       ++ dq ++ lit "2024-01-01T00:00:01.234000" ++ dq
       ++ lit "," ++ dq ++ lit "uptime_seconds" ++ dq ++ lit ":1.23"
       ++ lit "," ++ dq ++ lit "version" ++ dq ++ lit ":" ++ dq ++ lit "1.0.0" ++ dq
       ++ lit "," ++ dq ++ lit "environment" ++ dq ++ lit ":"
       ++ dq ++ lit "development" ++ dq ++ lit "}")).
Proof. vm_compute. reflexivity. Qed.

Example empty_body_rejected :
  option_map status_code
    (response_of Sample.globals Sample.clock_1s (POST "/api/process" (JDict [])))
  = Some 422.
Proof. reflexivity. Qed.

Example number_message_rejected :
  option_map status_code
    (response_of Sample.globals Sample.clock_1s
       (POST "/api/process" (JDict [(lit "message", JInt 123)])))
  = Some 422.
Proof. reflexivity. Qed.

(** A body that is the JSON text [null] is not a missing body. *)
Example null_body_rejected :
  response_of Sample.globals Sample.clock_1s (POST "/api/process" JNull)
  = Some (JSONResponse 422
            (JDict [(lit "detail",
                     JList [JDict [(lit "type", JStr (lit "model_attributes_type"));
                                   (lit "loc", JList [JStr (lit "body")]);
                                   (lit "msg", JStr (lit "Input should be a valid dictionary or object to extract fields from"));
                                   (lit "input", JNull)]])])
            application_json)
  /\ option_map status_code
       (response_of Sample.globals Sample.clock_1s (request "POST" "/api/process" None))
     = Some 422.
Proof. split; reflexivity. Qed.

(** A body that is not UTF-8 text, and one that is not JSON. *)
Example unreadable_body_rejected :
  response_of Sample.globals Sample.clock_1s
    {| method := lit "POST"; path := lit "/api/process"; body := UnicodeDecodeError |}
  = Some (JSONResponse 400
            (JDict [(lit "detail", JStr (lit "There was an error parsing the body"))])
            application_json)
  /\ option_map status_code
       (response_of Sample.globals Sample.clock_1s
          {| method := lit "POST"; path := lit "/api/process";
             body := JSONDecodeError 1 (lit "Expecting value") |})
     = Some 422.
Proof. split; reflexivity. Qed.

(** A version that cannot be sent: / answers 500, /ready answers 200. *)
Example unencodable_version_answers :
  map (fun p => option_map status_code
                  (response_of (import_main Sample.environ_bytes 1704067200%float)
                     Sample.clock_1min (GET p)))
    ["/"; "/health"; "/ready"; "/metrics"; "/api/info"; "/docs"]%string
  = [Some 500; Some 500; Some 200; Some 500; Some 500; None].
Proof. vm_compute. reflexivity. Qed.

(** Running the file as a script and importing it. *)
Example script_and_import :
  map APP_START_TIME
    (fst (run_module (lit "__main__") Sample.environ
            (1704067200%float, 1704067201%float) []))
  = [1704067200%float; 1704067201%float]
  /\ run_module (lit "main") Sample.environ (1704067200%float, 1704067201%float) []
     = ([Sample.globals], None).
Proof. split; reflexivity. Qed.

(** ** The runtime functions on sample values *)

Example upper_sharp_s : upper (lit "stra" ++ [223] ++ lit "e") = lit "STRASSE".
Proof. reflexivity. Qed.

Example isoformat_us :
  isoformat (Build_datetime 2024 3 9 7 5 1 42) = lit "2024-03-09T07:05:01.000042".
Proof. reflexivity. Qed.

Example b64_round2_half_even :
  map Binary64.round2 [1.234; 0.125; 0.375; 2.675; -0.001]%float
  = [1.23; 0.12; 0.38; 2.67; -0.0]%float.
Proof. vm_compute. reflexivity. Qed.

Example b64_repr :
  map Binary64.repr [0.1; 1.234; 1e22; 1e-05; 100; 0x1p-1074; -0.0]%float
  = map lit ["0.1"; "1.234"; "1e+22"; "1e-05"; "100.0"; "5e-324"; "-0.0"]%string.
Proof. vm_compute. reflexivity. Qed.

Example exact_round2_half_even :
  map Exact.round2 [1234 # 1000; 125 # 1000; 375 # 1000; - 1 # 1000]
  = [123 # 100; 3 # 25; 19 # 50; 0 # 1].
Proof. reflexivity. Qed.

Example format_0d_negative :
  map (Fmt.format_0d 4) [2024; 7; 0; -7; -12345] 
  = map lit ["2024"; "0007"; "0000"; "-007"; "-12345"]%string.
Proof. reflexivity. Qed.

Example utf8_encode :
  Utf8.encode (lit "a" ++ [233; 8364; 128512])
  = Some [97; 195; 169; 226; 130; 172; 240; 159; 152; 128]
  /\ Utf8.encode [55296] = None.
Proof. split; reflexivity. Qed.

(** * Further properties

    Properties of the handlers, of the log of a run and of a test of
    [test_app.py] that the code shows beyond the ones above. *)

(** ** Every answer of the six routes *)

Section Answers.

Context {F : Type} `{FloatOps F} `{FloatRepr F} `{Interpreter}.

(** A request with a route, written with its method and path. *)
Lemma request_eta (req : Request F) (m p : str) :
  method req = m -> path req = p ->
  req = {| method := m; path := p; body := body req |}.
Proof. intros <- <-. now destruct req. Qed.


(** What one request writes: one INFO record when /api/process accepts its
    body, nothing otherwise. *)
Lemma handle_logs (g g' : Globals F) (clk : Clock F) (req : Request F)
  (logs : list LogRecord) (r : Response F) :
  handle g clk req = Some (g', logs, r) ->
  (forall record, In record logs -> level record = INFO)
  /\ List.length logs = (if logs_message req then 1 else 0)%nat.
Proof.
  unfold logs_message. intros E.
  destruct (route_cases clk req) as [N|[[M P]|[M P]]].
  - unfold handle in E. rewrite N in E. discriminate E.
  - rewrite M. change (PyStr.eqb (lit "GET") (lit "POST")) with false. cbn [andb].
    rewrite (request_eta req _ _ M eq_refl) in E.
    destruct P as [P|[P|[P|[P|P]]]]; rewrite P in E.
    + rewrite (handle_root g clk (body req)) in E. injection E as _ <- _. split; [intros record I; exact (False_ind _ I)|reflexivity].
    + rewrite (handle_health g clk (body req)) in E. injection E as _ <- _. split; [intros record I; exact (False_ind _ I)|reflexivity].
    + rewrite (handle_ready g clk (body req)) in E. injection E as _ <- _. split; [intros record I; exact (False_ind _ I)|reflexivity].
    + rewrite (handle_metrics g clk (body req)) in E. injection E as _ <- _. split; [intros record I; exact (False_ind _ I)|reflexivity].
    + rewrite (handle_info g clk (body req)) in E. injection E as _ <- _. split; [intros record I; exact (False_ind _ I)|reflexivity].
  - rewrite M, P. rewrite !eqb_refl. cbn [andb].
    rewrite (request_eta req _ _ M P), handle_post in E. cbn [body] in E.
    injection E as _ <- _.
    destruct (message_field (loaded (body req))) as [[| | | |s| |]|];
      (split; [|reflexivity]); try (intros record I; exact (False_ind _ I)).
    intros record [<-|[]]. reflexivity.
Qed.

Lemma handle_none_logs (g : Globals F) (clk : Clock F) (req : Request F) :
  handle g clk req = None -> logs_message req = false.
Proof.
  unfold logs_message.
  destruct (PyStr.eqb (method req) (lit "POST")) eqn:M; [|reflexivity].
  destruct (PyStr.eqb (path req) (lit "/api/process")) eqn:P; [|reflexivity].
  apply eqb_eq in M, P. rewrite (request_eta req _ _ M P), handle_post. discriminate.
Qed.

Lemma serve_log_facts (reqs : list (Clock F * Request F)) (g : Globals F) :
  (forall record, In record (serve_log g reqs) -> level record = INFO)
  /\ List.length (serve_log g reqs)
     = List.length (filter (fun cr => logs_message (snd cr)) reqs).
Proof.
  revert g. induction reqs as [|[clk req] reqs IH]; intros g.
  - split; [intros record []|reflexivity].
  - cbn [serve_log filter snd].
    destruct (handle g clk req) as [[[g' logs] r]|] eqn:E.
    + destruct (handle_logs _ _ _ _ _ _ E) as [A L].
      destruct (IH g') as [A' L']. split.
      * intros record I. apply in_app_or in I. destruct I; [now apply A|now apply A'].
      * rewrite length_app, L, L'. destruct (logs_message req); reflexivity.
    + rewrite (handle_none_logs _ _ _ E). apply IH.
Qed.

End Answers.

(** ** More on /api/process *)

Section ProcessFacts.

Context {F : Type} `{FloatOps F} `{FloatRepr F} `{Interpreter}.

Lemma process_fields (g : Globals F) (clk : Clock F)
  (items : list (str * json F)) (message : str) :
  Json.get (lit "message") items = Some (JStr message) ->
  Utf8.encodable message = true ->
  let response := response_of g clk (POST "/api/process" (JDict items)) in
  field (lit "original") response = Some (JStr message)
  /\ field (lit "processed") response = Some (JStr (strip (upper message)))
  /\ field (lit "length") response = Some (JInt (len (strip (upper message)))).
Proof.
  intros E Em response. subst response. unfold response_of.
  rewrite (handle_process g clk items message E), Em.
  repeat split.
Qed.

(** A response of /api/process that has a member was made from a message
    that can be encoded. *)
Lemma process_field_encodable (g : Globals F) (clk : Clock F)
  (items : list (str * json F)) (message : str) (key : str) (v : json F) :
  Json.get (lit "message") items = Some (JStr message) ->
  field key (response_of g clk (POST "/api/process" (JDict items))) = Some v ->
  Utf8.encodable message = true.
Proof.
  intros E. unfold response_of. rewrite (handle_process g clk items message E).
  destruct (Utf8.encodable message); [reflexivity|discriminate].
Qed.

(** X1: for a message that can be encoded, [processed] is the upper case of
    the message without the whitespace at its two ends: the message is a
    whitespace prefix, a core that neither starts nor ends with whitespace,
    and a whitespace suffix, and [processed] is the upper case of the core,
    which neither starts nor ends with whitespace either.  Whitespace
    inside the core stays. *)
Theorem processed_is_trimmed (g : Globals F) (clk : Clock F)
  (items : list (str * json F)) (message : str) :
  Json.get (lit "message") items = Some (JStr message) ->
  Utf8.encodable message = true ->
  exists pre core post,
    message = pre ++ core ++ post
    /\ forallb isspace pre = true
    /\ forallb isspace post = true
    /\ trimmed core
    /\ field (lit "processed") (response_of g clk (POST "/api/process" (JDict items)))
       = Some (JStr (upper core))
    /\ trimmed (upper core).
Proof.
  intros E Em.
  destruct (strip_spec message) as (pre & post & Es & Hpre & Hpost & Tc).
  exists pre, (strip message), post.
  split; [exact Es|]. split; [exact Hpre|]. split; [exact Hpost|].
  split; [exact Tc|].
  rewrite <- upper_strip_commute. split.
  - exact (proj1 (proj2 (process_fields g clk items message E Em))).
  - destruct (strip_spec (upper message)) as (_ & _ & _ & _ & _ & T). exact T.
Qed.

(** X2: for a message that can be encoded, [processed] is the empty string,
    and [length] is 0, exactly when the message has nothing but whitespace
    (or nothing at all). *)
Theorem blank_message_gives_empty (g : Globals F) (clk : Clock F)
  (items : list (str * json F)) (message : str) :
  Json.get (lit "message") items = Some (JStr message) ->
  Utf8.encodable message = true ->
  exists processed length,
    field (lit "processed") (response_of g clk (POST "/api/process" (JDict items)))
    = Some (JStr processed)
    /\ field (lit "length") (response_of g clk (POST "/api/process" (JDict items)))
       = Some (JInt length)
    /\ (processed = [] <-> forallb isspace message = true)
    /\ (length = 0 <-> forallb isspace message = true).
Proof.
  intros E Em. destruct (process_fields g clk items message E Em) as (_ & P & L).
  exists (strip (upper message)), (len (strip (upper message))).
  split; [exact P|]. split; [exact L|].
  assert (Z : strip (upper message) = [] <-> forallb isspace message = true).
  { rewrite upper_strip_commute, upper_empty. apply strip_empty. }
  split; [exact Z|]. rewrite <- Z. unfold len.
  destruct (strip (upper message)); cbn [List.length]; split;
    try reflexivity; try discriminate; lia.
Qed.

(** X3: [length] counts the code points of [processed], not of the
    message: for a message that can be encoded it is at least the length of
    the stripped message and at most three times that length, since one
    code point can have up to three as its upper case.  For the sharp s it
    is 2. *)
Theorem processed_length_bounds (g : Globals F) (clk : Clock F)
  (items : list (str * json F)) (message : str) :
  Json.get (lit "message") items = Some (JStr message) ->
  Utf8.encodable message = true ->
  (exists length,
     field (lit "length") (response_of g clk (POST "/api/process" (JDict items)))
     = Some (JInt length)
     /\ len (strip message) <= length <= 3 * len (strip message)
     /\ length <= 3 * len message)
  /\ len (strip (upper [223])) = 2.
Proof.
  intros E Em. split; [|reflexivity].
  destruct (process_fields g clk items message E Em) as (_ & _ & L).
  exists (len (strip (upper message))). split; [exact L|].
  rewrite upper_strip_commute. unfold len.
  pose proof (upper_length (strip message)) as U.
  destruct (strip_spec message) as (pre & post & Es & _).
  apply (f_equal (@List.length _)) in Es. rewrite !length_app in Es.
  unfold codepoint in *. lia.
Qed.

(** X4: processing is idempotent: when the [processed] string of one
    response is sent as the message of another request, it comes back
    unchanged, as [original] and as [processed], with the same [length]. *)
Theorem process_message_idempotent (g : Globals F) (clk clk' : Clock F)
  (items items' : list (str * json F)) (message processed : str) :
  Json.get (lit "message") items = Some (JStr message) ->
  field (lit "processed") (response_of g clk (POST "/api/process" (JDict items)))
  = Some (JStr processed) ->
  Json.get (lit "message") items' = Some (JStr processed) ->
  let again := response_of g clk' (POST "/api/process" (JDict items')) in
  field (lit "original") again = Some (JStr processed)
  /\ field (lit "processed") again = Some (JStr processed)
  /\ field (lit "length") again
     = field (lit "length") (response_of g clk (POST "/api/process" (JDict items))).
Proof.
  intros E P E' again. subst again.
  pose proof (process_field_encodable g clk items message _ _ E P) as Em.
  destruct (process_fields g clk items message E Em) as (_ & P1 & L1).
  rewrite P1 in P. injection P as P.
  assert (Ep : Utf8.encodable processed = true)
    by (rewrite <- P; now apply encodable_processed).
  destruct (process_fields g clk' items' processed E' Ep) as (O2 & P2 & L2).
  assert (Fix : strip (upper processed) = processed).
  { rewrite <- P. rewrite (upper_strip_commute message) at 1.
    rewrite upper_idempotent, <- upper_strip_commute. apply strip_idempotent. }
  rewrite Fix in P2, L2. split; [exact O2|]. split; [exact P2|].
  rewrite L1, L2. now rewrite P.
Qed.

(** X5: on an ASCII message the handler moves the letters a to z to A to Z
    and changes no other character, so [length] is the length of the
    stripped message. *)
Theorem process_message_ascii (g : Globals F) (clk : Clock F)
  (items : list (str * json F)) (message : str) :
  Json.get (lit "message") items = Some (JStr message) ->
  isascii message = true ->
  let response := response_of g clk (POST "/api/process" (JDict items)) in
  field (lit "processed") response
  = Some (JStr (map ascii_upper (strip message)))
  /\ field (lit "length") response = Some (JInt (len (strip message))).
Proof.
  intros E A response. subst response.
  destruct (process_fields g clk items message E (isascii_encodable _ A)) as (_ & P & L).
  assert (U : strip (upper message) = map ascii_upper (strip message)).
  { rewrite upper_strip_commute. apply upper_ascii.
    unfold isascii in *. now apply strip_sublist. }
  rewrite U in P, L. split; [exact P|].
  rewrite L. unfold len. now rewrite length_map.
Qed.

(** X6: whatever the message, as long as it can be encoded, none of the
    letters a to z is left in [processed]. *)
Theorem processed_has_no_small_letter (g : Globals F) (clk : Clock F)
  (items : list (str * json F)) (message : str) :
  Json.get (lit "message") items = Some (JStr message) ->
  Utf8.encodable message = true ->
  exists processed,
    field (lit "processed") (response_of g clk (POST "/api/process" (JDict items)))
    = Some (JStr processed)
    /\ forall c, In c processed -> c < 97 \/ 122 < c.
Proof.
  intros E Em. exists (strip (upper message)). split.
  - exact (proj1 (proj2 (process_fields g clk items message E Em))).
  - intros c I.
    pose proof (strip_sublist _ _ (upper_no_small message)) as A.
    rewrite forallb_forall in A. specialize (A c I).
    apply negb_true_iff, andb_false_iff in A.
    destruct A as [A|A]; [left; apply Z.leb_gt in A|right; apply Z.leb_gt in A]; lia.
Qed.

(** X7: a call of /api/process writes at most one log record and never
    one of level ERROR; for a body with a string [message] it writes exactly
    the INFO record "Processed message: <message> -> <processed>", with the
    message as it came. *)
Theorem process_message_logs (g : Globals F) (clk : Clock F) (b : option (json F)) :
  exists logs r,
    handle g clk (request "POST" "/api/process" b) = Some (g, logs, r)
    /\ (List.length logs <= 1)%nat
    /\ (forall record, In record logs -> level record = INFO)
    /\ (forall message, message_field b = Some (JStr message) ->
          logs = [Build_LogRecord INFO
                    (lit "Processed message: " ++ message ++ lit " -> "
                     ++ strip (upper message))]).
Proof.
  do 2 eexists. split; [exact (handle_post g clk (Loaded b))|]. cbn [loaded].
  destruct (message_field b) as [[| | | |s| |]|].
  5:{ split; [cbn; lia|]. split.
      - intros record [<-|[]]. reflexivity.
      - intros message Es. injection Es as <-. reflexivity. }
  all: split; [cbn; lia|]; split;
    [intros record I; exact (False_ind _ I)|intros message Es; discriminate Es].
Qed.

End ProcessFacts.

(** ** The links the service gives *)

Section LinkFacts.

Context {F : Type} `{FloatOps F} `{FloatRepr F} `{Interpreter}.

(** X8: GET / answers 200, when the version can be encoded, with the four
    members [message], [version], [docs] and [health], all strings (as its
    response model [Dict[str, str]] asks), whatever the clock and the body;
    [message] is the welcome text, [version] is the global, and the path
    under [health] is the route of the health check: it answers 200
    whenever the body of /health can be sent. *)
Theorem root_links (g : Globals F) (clk : Clock F) (b : option (json F)) :
  Utf8.encodable (APP_VERSION g) = true ->
  exists items health,
    handle g clk (request "GET" "/" b)
    = Some (g, [], JSONResponse 200 (JDict items) application_json)
    /\ map fst items = [lit "message"; lit "version"; lit "docs"; lit "health"]
    /\ (forall k v, In (k, v) items -> exists s, v = JStr s)
    /\ Json.get (lit "message") items
       = Some (JStr (lit "Welcome to DevOps Pipeline Demo API"))
    /\ Json.get (lit "version") items = Some (JStr (APP_VERSION g))
    /\ Json.get (lit "docs") items = Some (JStr (lit "/docs"))
    /\ Json.get (lit "health") items = Some (JStr health)
    /\ (forall clk' payload,
          route clk' {| method := lit "GET"; path := health; body := payload |}
          = Some (serialize (@HealthResponse.to_json F) (health_check clk')))
    /\ (forall clk' payload,
          sendable_config g = true ->
          sendable_float (round2 (fsub (time_time clk') (APP_START_TIME g))) = true ->
          option_map status_code
            (response_of g clk' {| method := lit "GET"; path := health; body := payload |})
          = Some 200).
Proof.
  intros Ev. do 2 eexists. split.
  { rewrite (handle_root g clk (Loaded b)). cbv zeta. rewrite renderable_root, Ev.
    reflexivity. }
  split; [reflexivity|]. split.
  - intros k v [E|[E|[E|[E|[]]]]]; injection E as _ <-; eexists; reflexivity.
  - split; [reflexivity|]. split; [reflexivity|]. split; [reflexivity|].
    split; [reflexivity|]. split; [intros clk' payload; reflexivity|].
    intros clk' payload Sc Sf. unfold response_of.
    rewrite (handle_health g clk' payload). cbv zeta.
    rewrite renderable_health, Sc, Sf. reflexivity.
Qed.

(** X9: when the body of /api/info can be sent, its [endpoints] name
    [health], [ready], [metrics], [docs] and [process]; the paths under
    [health], [ready] and [metrics] are routes for GET, the path under
    [process] answers 200 to a POST with a string [message] that can be
    encoded, and [docs] and [health] are the links that GET / gives.
    [application] is the title of the application and [python_version] the
    version string of the interpreter. *)
Theorem app_info_endpoints (g : Globals F) (clk : Clock F) (b : option (json F)) :
  sendable_config g = true ->
  sendable_float (round2 (fsub (time_time clk) (APP_START_TIME g))) = true ->
  Utf8.encodable sys_version = true ->
  let info := response_of g clk (request "GET" "/api/info" b) in
  exists endpoints,
    field (lit "endpoints") info = Some (JDict endpoints)
    /\ map fst endpoints
       = [lit "health"; lit "ready"; lit "metrics"; lit "docs"; lit "process"]
    /\ (forall name, In name [lit "health"; lit "ready"; lit "metrics"] ->
          exists p,
            Json.get name endpoints = Some (JStr p)
            /\ forall clk' payload,
                 exists g' logs r,
                   handle g clk' {| method := lit "GET"; path := p; body := payload |}
                   = Some (g', logs, r))
    /\ (exists p,
          Json.get (lit "ready") endpoints = Some (JStr p)
          /\ forall clk' payload,
               option_map status_code
                 (response_of g clk' {| method := lit "GET"; path := p; body := payload |})
               = Some 200)
    /\ (exists p,
          Json.get (lit "process") endpoints = Some (JStr p)
          /\ forall clk' message,
               Utf8.encodable message = true ->
               option_map status_code
                 (response_of g clk'
                    {| method := lit "POST"; path := p;
                       body := Loaded (Some (JDict [(lit "message", JStr message)])) |})
               = Some 200)
    /\ Json.get (lit "docs") endpoints
       = field (lit "docs") (response_of g clk (request "GET" "/" b))
    /\ Json.get (lit "health") endpoints
       = field (lit "health") (response_of g clk (request "GET" "/" b))
    /\ field (lit "application") info = Some (JStr app_title)
    /\ field (lit "python_version") info = Some (JStr sys_version).
Proof.
  intros Sc Sf Sv info. subst info.
  assert (Ev : Utf8.encodable (APP_VERSION g) = true)
    by (unfold sendable_config in Sc; now apply andb_true_iff in Sc).
  assert (Ri : response_of g clk (request "GET" "/api/info" b)
               = Some (JSONResponse 200
                         (JDict [(lit "application", JStr app_title);
                                 (lit "version", JStr (APP_VERSION g));
                                 (lit "environment", JStr (ENVIRONMENT g));
                                 (lit "uptime_seconds",
                                  JFloat (round2 (fsub (time_time clk) (APP_START_TIME g))));
                                 (lit "python_version", JStr sys_version);
                                 (lit "endpoints",
                                  JDict [(lit "health", JStr (lit "/health"));
                                         (lit "ready", JStr (lit "/ready"));
                                         (lit "metrics", JStr (lit "/metrics"));
                                         (lit "docs", JStr (lit "/docs"));
                                         (lit "process", JStr (lit "/api/process"))])])
                         application_json)).
  { unfold response_of. rewrite (handle_info g clk (Loaded b)). cbv zeta.
    now rewrite renderable_info, Sc, Sf, Sv. }
  assert (Rr : response_of g clk (request "GET" "/" b)
               = Some (JSONResponse 200
                         (JDict [(lit "message",
                                  JStr (lit "Welcome to DevOps Pipeline Demo API"));
                                 (lit "version", JStr (APP_VERSION g));
                                 (lit "docs", JStr (lit "/docs"));
                                 (lit "health", JStr (lit "/health"))])
                         application_json)).
  { unfold response_of. rewrite (handle_root g clk (Loaded b)). cbv zeta.
    now rewrite renderable_root, Ev. }
  rewrite Ri, Rr. unfold response_of. cbn [field].
  eexists. split; [reflexivity|]. split; [reflexivity|]. split.
  { intros name [<-|[<-|[<-|[]]]]; eexists; (split; [reflexivity|]);
      intros clk' payload.
    - rewrite (handle_health g clk' payload). do 3 eexists. reflexivity.
    - rewrite (handle_ready g clk' payload). do 3 eexists. reflexivity.
    - rewrite (handle_metrics g clk' payload). do 3 eexists. reflexivity. }
  split.
  { eexists. split; [reflexivity|]. intros clk' payload.
    now rewrite (handle_ready g clk' payload). }
  split.
  { eexists. split; [reflexivity|]. intros clk' message Em.
    rewrite (handle_process g clk' [(lit "message", JStr message)] message eq_refl), Em.
    reflexivity. }
  repeat split.
Qed.


End LinkFacts.

(** ** The log of a run *)

Section LogFacts.

Context {F : Type} `{FloatOps F} `{FloatRepr F} `{Interpreter}.

(** X11: no run of the server writes a log record of level ERROR, whatever
    the environment and the requests: the two [logger.error] calls are in
    branches that are never entered. *)
Theorem run_never_logs_error (environ : str -> option str) (start : F)
  (reqs : list (Clock F * Request F)) :
  Forall (fun record => level record = INFO) (fst (run environ start reqs)).
Proof.
  apply Forall_forall. intros record.
  unfold run. cbn [startup_event].
  set (g0 := import_main environ start).
  change (startup_event g0)
    with (g0,
          [Build_LogRecord INFO
             ([128640] ++ lit " Starting " ++ app_title ++ lit " v" ++ APP_VERSION g0);
           Build_LogRecord INFO ([128205] ++ lit " Environment: " ++ ENVIRONMENT g0);
           Build_LogRecord INFO ([9989] ++ lit " Application started successfully")],
          Return tt).
  cbv iota. destruct (serve g0 reqs) as [g2 resps]. cbn [shutdown_event log fst].
  intros I. apply in_app_or in I. destruct I as [I|I].
  - destruct I as [<-|[<-|[<-|[]]]]; reflexivity.
  - apply in_app_or in I. destruct I as [I|I].
    + now apply (proj1 (serve_log_facts reqs g0)).
    + destruct I as [<-|[]]. reflexivity.
Qed.

(** X12: the log of a run is the three startup records, which give the
    title, the version and the environment the process was started with,
    then one record for each request that /api/process accepted, then the
    shutdown record; the responses are those of the lifetime. *)
Theorem run_log_accounting (environ : str -> option str) (start : F)
  (reqs : list (Clock F * Request F)) :
  let g0 := import_main environ start in
  exists served,
    fst (run environ start reqs)
    = [Build_LogRecord INFO
         ([128640] ++ lit " Starting DevOps Pipeline Demo API v" ++ APP_VERSION g0);
       Build_LogRecord INFO ([128205] ++ lit " Environment: " ++ ENVIRONMENT g0);
       Build_LogRecord INFO ([9989] ++ lit " Application started successfully")]
      ++ served
      ++ [Build_LogRecord INFO ([128721] ++ lit " Shutting down application")]
    /\ List.length served
       = List.length (filter (fun cr => logs_message (snd cr)) reqs)
    /\ snd (run environ start reqs) = snd (lifetime environ start reqs).
Proof.
  intros g0. exists (serve_log g0 reqs). unfold run, lifetime. fold g0.
  change (startup_event g0)
    with (g0,
          [Build_LogRecord INFO
             ([128640] ++ lit " Starting " ++ app_title ++ lit " v" ++ APP_VERSION g0);
           Build_LogRecord INFO ([128205] ++ lit " Environment: " ++ ENVIRONMENT g0);
           Build_LogRecord INFO ([9989] ++ lit " Application started successfully")],
          Return tt).
  cbv iota. destruct (serve g0 reqs) as [g2 resps]. cbn [shutdown_event log fst snd].
  split; [reflexivity|]. split; [|reflexivity].
  apply (proj2 (serve_log_facts reqs g0)).
Qed.

End LogFacts.

(** ** The body of /metrics read back *)

Section MetricsFacts.

Context {F : Type} `{FloatOps F} `{FloatRepr F} `{Interpreter}.

(** X13: [test_metrics_format] passes in every state of the process and at
    every clock reading, when the version, the environment and the printed
    uptime are texts that UTF-8 can encode (no surrogate code point).  The
    body of /metrics is the exposition text written as one JSON string;
    sent as UTF-8 and read back with [response.json()] it is the exposition
    text itself, which contains both names the test looks for. *)
Theorem metrics_body_reads_back (g : Globals F) (clk : Clock F) :
  let uptime := fsub (time_time clk) (APP_START_TIME g) in
  let text := metrics_output uptime (APP_VERSION g) (ENVIRONMENT g) in
  Utf8.encodable (frepr uptime) = true ->
  Utf8.encodable (APP_VERSION g) = true ->
  Utf8.encodable (ENVIRONMENT g) = true ->
  option_map render (response_of g clk (GET "/metrics"))
  = Some (Some (Json.encode_basestring text))
  /\ TestApp.json_str (response_of g clk (GET "/metrics")) = Some text
  /\ TestApp.test_metrics_format g clk = true.
Proof.
  intros uptime text Eu Ev Ee.
  assert (R : response_of g clk (GET "/metrics")
              = Some (JSONResponse 200 (JStr text) (lit "text/plain"))).
  { unfold response_of. rewrite (handle_metrics g clk (Loaded None)). cbv zeta.
    fold uptime. rewrite renderable_metrics, Eu, Ev, Ee. reflexivity. }
  assert (J : TestApp.json_str (response_of g clk (GET "/metrics")) = Some text).
  { unfold TestApp.json_str. rewrite R. cbn [render Json.dumps].
    assert (E : Utf8.encodable (Json.encode_basestring text) = true)
      by (apply encodable_encode_basestring; now apply encodable_metrics_output).
    unfold Utf8.encode at 1. rewrite E.
    rewrite (decode_encode (Json.encode_basestring text)
               (flat_map Utf8.encode_char (Json.encode_basestring text)))
      by (unfold Utf8.encode; now rewrite E).
    apply loads_encode_basestring. }
  split; [now rewrite R|]. split; [exact J|].
  unfold TestApp.test_metrics_format. cbv zeta. rewrite J.
  apply andb_true_iff. split; apply isin_contains.
  - apply metrics_contains_name.
  - apply metrics_contains_app_info.
Qed.

End MetricsFacts.

(** ** The uptime that /health and /api/info report *)

Section UptimeFacts.

Context {F : Type} `{FloatOps F} `{FloatRepr F} `{Interpreter}.

Lemma uptime_of_health (g : Globals F) (clk : Clock F) (payload : Payload F) :
  sendable_config g = true ->
  sendable_float (round2 (fsub (time_time clk) (APP_START_TIME g))) = true ->
  response_of g clk {| method := lit "GET"; path := lit "/health"; body := payload |}
  = Some (JSONResponse 200
            (JDict [(lit "status", JStr (lit "healthy"));
                    (lit "timestamp", JStr (isoformat (utcnow clk)));
                    (lit "uptime_seconds",
                     JFloat (round2 (fsub (time_time clk) (APP_START_TIME g))));
                    (lit "version", JStr (APP_VERSION g));
                    (lit "environment", JStr (ENVIRONMENT g))])
            application_json).
Proof.
  intros Sc Sf. unfold response_of. rewrite (handle_health g clk payload). cbv zeta.
  now rewrite renderable_health, Sc, Sf.
Qed.

Lemma uptime_of_health_info (g : Globals F) (clk : Clock F) (p : string)
  (b : option (json F)) :
  p = "/health"%string \/ p = "/api/info"%string ->
  sendable_config g = true ->
  sendable_float (round2 (fsub (time_time clk) (APP_START_TIME g))) = true ->
  Utf8.encodable sys_version = true ->
  uptime_seconds_of (response_of g clk (request "GET" p b))
  = Some (round2 (fsub (time_time clk) (APP_START_TIME g))).
Proof.
  intros [-> | ->] Sc Sf Sv.
  - unfold request. cbn [lit]. fold (lit "/health"). fold (lit "GET").
    now rewrite (uptime_of_health g clk (Loaded b) Sc Sf).
  - unfold response_of. rewrite (handle_info g clk (Loaded b)). cbv zeta.
    now rewrite renderable_info, Sc, Sf, Sv.
Qed.

End UptimeFacts.

(** In exact arithmetic a sleep of more than a hundredth of a second is
    enough for /health to report a larger uptime. *)
Lemma exact_uptime_increases (g : Globals Q) (clk1 clk2 : Clock Q) :
  sendable_config g = true ->
  (time_time clk1 + (1 # 100) < time_time clk2)%Q ->
  exists u1 u2,
    uptime_seconds_of (response_of g clk1 (GET "/health")) = Some u1
    /\ uptime_seconds_of (response_of g clk2 (GET "/health")) = Some u2
    /\ flt u1 u2 = true.
Proof.
  intros Sc Hlt.
  assert (S : forall x : Q, sendable_float x = true)
    by (intros x; unfold sendable_float; now rewrite exact_repr_encodable).
  do 2 eexists.
  split; [unfold GET, request; now rewrite (uptime_of_health g clk1 _ Sc (S _))|].
  split; [unfold GET, request; now rewrite (uptime_of_health g clk2 _ Sc (S _))|].
  cbn [flt fsub round2 Exact.ops]. apply negb_true_iff.
  destruct (Qle_bool _ _) eqn:E; [|reflexivity]. exfalso.
  apply Qle_bool_iff in E. revert E. apply Qlt_not_le.
  apply exact_round2_strict. rewrite !Qred_correct.
  unfold Qminus. rewrite <- Qplus_assoc, (Qplus_comm (- _)), Qplus_assoc.
  now apply Qplus_lt_l.
Qed.

Section TimestampReading.

Context {F : Type} `{FloatOps F} `{FloatRepr F} `{Interpreter}.

(** X14: the [timestamp] of a response tells the clock reading: two
    responses of /health that can be sent, or two of /ready, carry the same
    [timestamp] exactly when [datetime.utcnow()] gave the same reading, to
    the microsecond, in both calls. *)
Theorem timestamp_identifies_reading (g g' : Globals F) (clk clk' : Clock F)
  (b b' : option (json F)) :
  valid (utcnow clk) = true -> valid (utcnow clk') = true ->
  sendable_config g = true -> sendable_config g' = true ->
  sendable_float (round2 (fsub (time_time clk) (APP_START_TIME g))) = true ->
  sendable_float (round2 (fsub (time_time clk') (APP_START_TIME g'))) = true ->
  (field (lit "timestamp") (response_of g clk (request "GET" "/health" b))
   = field (lit "timestamp") (response_of g' clk' (request "GET" "/health" b'))
   <-> utcnow clk = utcnow clk')
  /\ (field (lit "timestamp") (response_of g clk (request "GET" "/ready" b))
      = field (lit "timestamp") (response_of g' clk' (request "GET" "/ready" b'))
      <-> utcnow clk = utcnow clk')
  /\ exists ts,
       field (lit "timestamp") (response_of g clk (request "GET" "/health" b))
       = Some (JStr ts)
       /\ field (lit "timestamp") (response_of g clk (request "GET" "/ready" b))
          = Some (JStr ts).
Proof.
  intros V V' Sc Sc' Sf Sf'.
  assert (Hh : forall g0 clk0 b0,
             sendable_config g0 = true ->
             sendable_float (round2 (fsub (time_time clk0) (APP_START_TIME g0))) = true ->
             field (lit "timestamp") (response_of g0 clk0 (request "GET" "/health" b0))
             = Some (JStr (isoformat (utcnow clk0)))).
  { intros g0 clk0 b0 S1 S2. unfold request. cbn [lit].
    fold (lit "/health"). fold (lit "GET").
    now rewrite (uptime_of_health g0 clk0 (Loaded b0) S1 S2). }
  assert (Hr : forall g0 clk0 b0,
             field (lit "timestamp") (response_of g0 clk0 (request "GET" "/ready" b0))
             = Some (JStr (isoformat (utcnow clk0)))).
  { intros g0 clk0 b0. unfold response_of.
    now rewrite (handle_ready g0 clk0 (Loaded b0)). }
  rewrite !Hh, !Hr by assumption. split; [|split].
  - split; [|now intros ->]. intros E. injection E as E. now apply isoformat_injective.
  - split; [|now intros ->]. intros E. injection E as E. now apply isoformat_injective.
  - eexists. split; reflexivity.
Qed.

End TimestampReading.

(** ** The uptime on doubles *)

Section UptimeDoubleFacts.

Context `{Interpreter}.

(** X15: on doubles, when the clock reading is not before the start time
    and their difference is finite, the [uptime_seconds] of /health and of
    /api/info, which are the same value, are not negative, and neither is
    the unrounded uptime that /metrics writes.  (The responses are those of
    a process whose version and environment can be encoded.) *)
Theorem uptime_not_negative (g : Globals float) (clk : Clock float)
  (b b' : option (json float)) :
  sendable_config g = true ->
  Utf8.encodable sys_version = true ->
  isfinite (APP_START_TIME g) = true ->
  isfinite (time_time clk) = true ->
  isfinite (fsub (time_time clk) (APP_START_TIME g)) = true ->
  fle (APP_START_TIME g) (time_time clk) = true ->
  exists u,
    uptime_seconds_of (response_of g clk (request "GET" "/health" b)) = Some u
    /\ uptime_seconds_of (response_of g clk (request "GET" "/api/info" b')) = Some u
    /\ fle 0%float u = true
    /\ fle 0%float (fsub (time_time clk) (APP_START_TIME g)) = true.
Proof.
  intros Sc Sv Fs Ft Fd L. exists (round2 (fsub (time_time clk) (APP_START_TIME g))).
  pose proof (b64_sendable_uptime _ Fd) as Su.
  split; [exact (uptime_of_health_info g clk "/health" b (or_introl eq_refl) Sc Su Sv)|].
  split; [exact (uptime_of_health_info g clk "/api/info" b' (or_intror eq_refl) Sc Su Sv)|].
  cbn [fle fsub round2 isfinite Binary64.ops] in *.
  set (s := APP_START_TIME g) in *. set (t := time_time clk) in *.
  destruct (b64_sub_self s Fs) as [z Z].
  pose proof (b64_sub_mono s t s Fs Ft Fs L) as M.
  pose proof (b64_round2_mono _ _ M) as R.
  rewrite leb_spec in M, R |- *. rewrite !b64_round2_spec in R. rewrite Z in M, R.
  cbn [SFround2] in R. split.
  - rewrite b64_round2_spec.
    change (Prim2SF 0) with (S754_zero false).
    now rewrite (SFleb_zero_sign false z).
  - rewrite leb_spec. change (Prim2SF 0) with (S754_zero false).
    now rewrite (SFleb_zero_sign false z).
Qed.

(** X17: the [uptime_seconds] that /health and /api/info report (for a
    finite uptime, in a process whose version and environment can be
    encoded) is a value with two decimals: rounding it to two decimals
    again gives the same double. *)
Theorem uptime_rounded_once (g : Globals float) (clk : Clock float)
  (b : option (json float)) :
  sendable_config g = true ->
  Utf8.encodable sys_version = true ->
  isfinite (fsub (time_time clk) (APP_START_TIME g)) = true ->
  exists u,
    uptime_seconds_of (response_of g clk (request "GET" "/health" b)) = Some u
    /\ uptime_seconds_of (response_of g clk (request "GET" "/api/info" b)) = Some u
    /\ round2 u = u.
Proof.
  intros Sc Sv Fd. exists (round2 (fsub (time_time clk) (APP_START_TIME g))).
  pose proof (b64_sendable_uptime _ Fd) as Su.
  split; [exact (uptime_of_health_info g clk "/health" b (or_introl eq_refl) Sc Su Sv)|].
  split; [exact (uptime_of_health_info g clk "/api/info" b (or_intror eq_refl) Sc Su Sv)|].
  cbn [round2 fsub Binary64.ops]. apply Prim2SF_inj.
  rewrite !b64_round2_spec. apply SFround2_idempotent.
Qed.

(** X18: on doubles, when the clock reading minus the start time is a
    finite double and the version and the environment can be encoded, the
    [uptime_seconds] of /health is finite and the body of /health is
    sent: its text is the JSON object of the five members of
    [HealthResponse] in the order of the model, its bytes are the UTF-8
    encoding of that text, and the text is what a client decodes from
    them. *)
Theorem health_renders (g : Globals float) (clk : Clock float)
  (b : option (json float)) :
  sendable_config g = true ->
  isfinite (fsub (time_time clk) (APP_START_TIME g)) = true ->
  exists u text,
    uptime_seconds_of (response_of g clk (request "GET" "/health" b)) = Some u
    /\ isfinite u = true
    /\ text = lit "{"
              ++ Json.encode_basestring (lit "status") ++ lit ":"
              ++ Json.encode_basestring (lit "healthy") ++ lit ","
              ++ Json.encode_basestring (lit "timestamp") ++ lit ":"
              ++ Json.encode_basestring (isoformat (utcnow clk)) ++ lit ","
              ++ Json.encode_basestring (lit "uptime_seconds") ++ lit ":"
              ++ frepr u ++ lit ","
              ++ Json.encode_basestring (lit "version") ++ lit ":"
              ++ Json.encode_basestring (APP_VERSION g) ++ lit ","
              ++ Json.encode_basestring (lit "environment") ++ lit ":"
              ++ Json.encode_basestring (ENVIRONMENT g)
              ++ lit "}"
    /\ option_map render (response_of g clk (request "GET" "/health" b))
       = Some (Some text)
    /\ option_map body_bytes (response_of g clk (request "GET" "/health" b))
       = Some (Some (flat_map Utf8.encode_char text))
    /\ Utf8.decode (flat_map Utf8.encode_char text) = Some text.
Proof.
  intros Sc Fd. exists (round2 (fsub (time_time clk) (APP_START_TIME g))).
  eexists.
  assert (Su : sendable_float (round2 (fsub (time_time clk) (APP_START_TIME g))) = true)
    by exact (b64_sendable_uptime _ Fd).
  assert (Fu : isfinite (round2 (fsub (time_time clk) (APP_START_TIME g))) = true).
  { unfold sendable_float in Su. now apply andb_true_iff in Su. }
  assert (R : response_of g clk (request "GET" "/health" b)
              = Some (JSONResponse 200
                        (JDict [(lit "status", JStr (lit "healthy"));
                                (lit "timestamp", JStr (isoformat (utcnow clk)));
                                (lit "uptime_seconds",
                                 JFloat (round2 (fsub (time_time clk) (APP_START_TIME g))));
                                (lit "version", JStr (APP_VERSION g));
                                (lit "environment", JStr (ENVIRONMENT g))])
                        application_json))
    by exact (uptime_of_health g clk (Loaded b) Sc Su).
  rewrite R.
  split; [reflexivity|]. split; [exact Fu|]. split; [reflexivity|].
  assert (T : render (JSONResponse (F:=float) 200
                        (JDict [(lit "status", JStr (lit "healthy"));
                                (lit "timestamp", JStr (isoformat (utcnow clk)));
                                (lit "uptime_seconds",
                                 JFloat (round2 (fsub (time_time clk) (APP_START_TIME g))));
                                (lit "version", JStr (APP_VERSION g));
                                (lit "environment", JStr (ENVIRONMENT g))])
                        application_json)
              = Some (lit "{"
              ++ Json.encode_basestring (lit "status") ++ lit ":"
              ++ Json.encode_basestring (lit "healthy") ++ lit ","
              ++ Json.encode_basestring (lit "timestamp") ++ lit ":"
              ++ Json.encode_basestring (isoformat (utcnow clk)) ++ lit ","
              ++ Json.encode_basestring (lit "uptime_seconds") ++ lit ":"
              ++ frepr (round2 (fsub (time_time clk) (APP_START_TIME g))) ++ lit ","
              ++ Json.encode_basestring (lit "version") ++ lit ":"
              ++ Json.encode_basestring (APP_VERSION g) ++ lit ","
              ++ Json.encode_basestring (lit "environment") ++ lit ":"
              ++ Json.encode_basestring (ENVIRONMENT g)
              ++ lit "}")).
  { cbn [render Json.dumps map fst snd]. rewrite Fu.
    cbn [Json.sequence option_map Json.join]. rewrite <- !app_assoc. reflexivity. }
  assert (En : Utf8.encodable
                 (lit "{"
              ++ Json.encode_basestring (lit "status") ++ lit ":"
              ++ Json.encode_basestring (lit "healthy") ++ lit ","
              ++ Json.encode_basestring (lit "timestamp") ++ lit ":"
              ++ Json.encode_basestring (isoformat (utcnow clk)) ++ lit ","
              ++ Json.encode_basestring (lit "uptime_seconds") ++ lit ":"
              ++ frepr (round2 (fsub (time_time clk) (APP_START_TIME g))) ++ lit ","
              ++ Json.encode_basestring (lit "version") ++ lit ":"
              ++ Json.encode_basestring (APP_VERSION g) ++ lit ","
              ++ Json.encode_basestring (lit "environment") ++ lit ":"
              ++ Json.encode_basestring (ENVIRONMENT g)
              ++ lit "}") = true).
  { pose proof (dumps_renderable
                  (JDict [(lit "status", JStr (lit "healthy"));
                          (lit "timestamp", JStr (isoformat (utcnow clk)));
                          (lit "uptime_seconds",
                           JFloat (round2 (fsub (time_time clk) (APP_START_TIME g))));
                          (lit "version", JStr (APP_VERSION g));
                          (lit "environment", JStr (ENVIRONMENT g))])) as D.
    cbn [render] in T. rewrite T in D. rewrite D, renderable_health, Su, Sc. reflexivity. }
  split; [cbn [option_map]; now rewrite T|]. split.
  - cbn [option_map]. unfold body_bytes. rewrite T. unfold Utf8.encode. now rewrite En.
  - apply decode_encode. unfold Utf8.encode. now rewrite En.
Qed.

End UptimeDoubleFacts.

(** ** The uptime over the two endpoints that report it *)

Section UptimeOrder.

Context {F : Type} `{FloatOps F} `{FloatRepr F} `{Interpreter}.

Context {order : FloatOrder F}.

(** X19: within one process lifetime the [uptime_seconds] values of /health
    and of /api/info, in any mix, never decrease from one call to a later
    one, as long as the clock readings are finite and do not go backwards
    (and the two responses can be sent). *)
Theorem uptime_never_decreases_across_endpoints
  (environ : str -> option str) (start : F)
  (reqs : list (Clock F * Request F)) (i j : nat) (clk_i clk_j : Clock F)
  (p_i p_j : string) (b_i b_j : option (json F)) :
  (i <= j)%nat ->
  p_i = "/health"%string \/ p_i = "/api/info"%string ->
  p_j = "/health"%string \/ p_j = "/api/info"%string ->
  nth_error reqs i = Some (clk_i, request "GET" p_i b_i) ->
  nth_error reqs j = Some (clk_j, request "GET" p_j b_j) ->
  sendable_config (import_main environ start) = true ->
  Utf8.encodable sys_version = true ->
  sendable_float (round2 (fsub (time_time clk_i) start)) = true ->
  sendable_float (round2 (fsub (time_time clk_j) start)) = true ->
  isfinite start = true ->
  isfinite (time_time clk_i) = true ->
  isfinite (time_time clk_j) = true ->
  fle (time_time clk_i) (time_time clk_j) = true ->
  exists r_i r_j u_i u_j,
    nth_error (snd (lifetime environ start reqs)) i = Some r_i
    /\ nth_error (snd (lifetime environ start reqs)) j = Some r_j
    /\ uptime_seconds_of r_i = Some u_i
    /\ uptime_seconds_of r_j = Some u_j
    /\ fle u_i u_j = true.
Proof.
  intros _ Pi Pj Ei Ej Sc Sv Si Sj Fs Fi Fj Hle.
  do 2 eexists.
  exists (round2 (fsub (time_time clk_i) start)), (round2 (fsub (time_time clk_j) start)).
  split; [exact (lifetime_nth environ start reqs i _ _ Ei)|].
  split; [exact (lifetime_nth environ start reqs j _ _ Ej)|].
  split; [exact (uptime_of_health_info (import_main environ start) clk_i p_i b_i Pi Sc Si Sv)|].
  split; [exact (uptime_of_health_info (import_main environ start) clk_j p_j b_j Pj Sc Sj Sv)|].
  apply round2_mono. now apply fsub_mono.
Qed.

End UptimeOrder.

(** ** The further properties at concrete inputs *)

Lemma processed_is_trimmed_witness :
  Json.get (lit "message") (Cases.body Cases.padded) = Some (JStr Cases.padded)
  /\ Utf8.encodable Cases.padded = true
  /\ exists pre core post,
       Cases.padded = pre ++ core ++ post
       /\ forallb isspace pre = true
       /\ forallb isspace post = true
       /\ trimmed core
       /\ field (lit "processed")
            (response_of Sample.globals Sample.clock_1s
               (POST "/api/process" (JDict (Cases.body Cases.padded))))
          = Some (JStr (upper core))
       /\ trimmed (upper core).
Proof.
  split; [reflexivity|]. split; [reflexivity|].
  exact (processed_is_trimmed Sample.globals Sample.clock_1s
           (Cases.body Cases.padded) Cases.padded eq_refl eq_refl).
Defined.

Lemma blank_message_gives_empty_witness :
  Json.get (lit "message") (Cases.body Cases.blank) = Some (JStr Cases.blank)
  /\ Utf8.encodable Cases.blank = true
  /\ exists processed length,
       field (lit "processed")
         (response_of Sample.globals Sample.clock_1s
            (POST "/api/process" (JDict (Cases.body Cases.blank))))
       = Some (JStr processed)
       /\ field (lit "length")
            (response_of Sample.globals Sample.clock_1s
               (POST "/api/process" (JDict (Cases.body Cases.blank))))
          = Some (JInt length)
       /\ (processed = [] <-> forallb isspace Cases.blank = true)
       /\ (length = 0 <-> forallb isspace Cases.blank = true).
Proof.
  split; [reflexivity|]. split; [reflexivity|].
  exact (blank_message_gives_empty Sample.globals Sample.clock_1s
           (Cases.body Cases.blank) Cases.blank eq_refl eq_refl).
Defined.

Lemma processed_length_bounds_witness :
  Json.get (lit "message") (Cases.body Cases.strasse) = Some (JStr Cases.strasse)
  /\ Utf8.encodable Cases.strasse = true
  /\ exists length,
       field (lit "length")
         (response_of Sample.globals Sample.clock_1s
            (POST "/api/process" (JDict (Cases.body Cases.strasse))))
       = Some (JInt length)
       /\ len (strip Cases.strasse) <= length <= 3 * len (strip Cases.strasse)
       /\ length <= 3 * len Cases.strasse.
Proof.
  split; [reflexivity|]. split; [reflexivity|].
  exact (proj1 (processed_length_bounds Sample.globals Sample.clock_1s
                  (Cases.body Cases.strasse) Cases.strasse eq_refl eq_refl)).
Defined.

Lemma process_message_idempotent_witness :
  Json.get (lit "message") (Cases.body Cases.strasse) = Some (JStr Cases.strasse)
  /\ field (lit "processed")
       (response_of Sample.globals Sample.clock_1ms
          (POST "/api/process" (JDict (Cases.body Cases.strasse))))
     = Some (JStr (lit "STRASSE"))
  /\ Json.get (lit "message") (Cases.body (lit "STRASSE")) = Some (JStr (lit "STRASSE"))
  /\ field (lit "processed")
       (response_of Sample.globals Sample.clock_1s
          (POST "/api/process" (JDict (Cases.body (lit "STRASSE")))))
     = Some (JStr (lit "STRASSE")).
Proof.
  split; [reflexivity|]. split; [reflexivity|]. split; [reflexivity|].
  exact (proj1 (proj2 (process_message_idempotent Sample.globals
                         Sample.clock_1ms Sample.clock_1s
                         (Cases.body Cases.strasse) (Cases.body (lit "STRASSE"))
                         Cases.strasse (lit "STRASSE") eq_refl eq_refl eq_refl))).
Defined.

Lemma process_message_ascii_witness :
  Json.get (lit "message") (Cases.body Cases.padded) = Some (JStr Cases.padded)
  /\ isascii Cases.padded = true
  /\ field (lit "processed")
       (response_of Sample.globals Sample.clock_1s
          (POST "/api/process" (JDict (Cases.body Cases.padded))))
     = Some (JStr (map ascii_upper (strip Cases.padded)))
  /\ field (lit "length")
       (response_of Sample.globals Sample.clock_1s
          (POST "/api/process" (JDict (Cases.body Cases.padded))))
     = Some (JInt (len (strip Cases.padded))).
Proof.
  split; [reflexivity|]. split; [reflexivity|].
  exact (process_message_ascii Sample.globals Sample.clock_1s
           (Cases.body Cases.padded) Cases.padded eq_refl eq_refl).
Defined.

Lemma processed_has_no_small_letter_witness :
  Json.get (lit "message") (Cases.body Cases.strasse) = Some (JStr Cases.strasse)
  /\ Utf8.encodable Cases.strasse = true
  /\ exists processed,
       field (lit "processed")
         (response_of Sample.globals Sample.clock_1s
            (POST "/api/process" (JDict (Cases.body Cases.strasse))))
       = Some (JStr processed)
       /\ forall c, In c processed -> c < 97 \/ 122 < c.
Proof.
  split; [reflexivity|]. split; [reflexivity|].
  exact (processed_has_no_small_letter Sample.globals Sample.clock_1s
           (Cases.body Cases.strasse) Cases.strasse eq_refl eq_refl).
Defined.

Lemma root_links_witness :
  Utf8.encodable (APP_VERSION Sample.globals) = true
  /\ exists items,
       handle Sample.globals Sample.clock_1s (request "GET" "/" None)
       = Some (Sample.globals, [], JSONResponse 200 (JDict items) application_json)
       /\ Json.get (lit "version") items = Some (JStr (lit "1.0.0")).
Proof.
  split; [reflexivity|].
  destruct (root_links Sample.globals Sample.clock_1s None eq_refl)
    as (items & health & E & _ & _ & _ & V & _).
  exists items. split; [exact E|exact V].
Defined.

Lemma app_info_endpoints_witness :
  sendable_config Sample.globals = true
  /\ sendable_float (round2 (fsub (time_time Sample.clock_1s)
                               (APP_START_TIME Sample.globals))) = true
  /\ Utf8.encodable sys_version = true
  /\ exists endpoints,
       field (lit "endpoints")
         (response_of Sample.globals Sample.clock_1s (request "GET" "/api/info" None))
       = Some (JDict endpoints)
       /\ map fst endpoints
          = [lit "health"; lit "ready"; lit "metrics"; lit "docs"; lit "process"].
Proof.
  assert (Sf : sendable_float (round2 (fsub (time_time Sample.clock_1s)
                                          (APP_START_TIME Sample.globals))) = true)
    by (apply b64_sendable_uptime; reflexivity).
  split; [reflexivity|]. split; [exact Sf|].
  split; [reflexivity|].
  destruct (app_info_endpoints (H1:=cpython) Sample.globals Sample.clock_1s None eq_refl
              Sf eq_refl)
    as (endpoints & E & K & _).
  exists endpoints. split; [exact E|exact K].
Defined.


(** One clock reading seen by two processes: the timestamps are equal. *)
Lemma timestamp_identifies_reading_witness :
  valid (utcnow Sample.clock_1min) = true
  /\ sendable_config Sample.globals = true
  /\ sendable_config Cases.later_globals = true
  /\ sendable_float (round2 (fsub (time_time Sample.clock_1min)
                               (APP_START_TIME Sample.globals))) = true
  /\ sendable_float (round2 (fsub (time_time Sample.clock_1min)
                               (APP_START_TIME Cases.later_globals))) = true
  /\ field (lit "timestamp")
       (response_of Sample.globals Sample.clock_1min (request "GET" "/health" None))
     = field (lit "timestamp")
         (response_of Cases.later_globals Sample.clock_1min (request "GET" "/health" None)).
Proof.
  assert (Sf : sendable_float (round2 (fsub (time_time Sample.clock_1min)
                                          (APP_START_TIME Sample.globals))) = true)
    by (apply b64_sendable_uptime; reflexivity).
  assert (Sf' : sendable_float (round2 (fsub (time_time Sample.clock_1min)
                                           (APP_START_TIME Cases.later_globals))) = true)
    by (apply b64_sendable_uptime; reflexivity).
  split; [reflexivity|]. split; [reflexivity|]. split; [reflexivity|].
  split; [exact Sf|]. split; [exact Sf'|].
  exact (proj2 (proj1 (timestamp_identifies_reading Sample.globals Cases.later_globals
                         Sample.clock_1min Sample.clock_1min None None
                         eq_refl eq_refl eq_refl eq_refl Sf Sf')) eq_refl).
Defined.

Lemma uptime_not_negative_witness :
  sendable_config Sample.globals = true
  /\ Utf8.encodable sys_version = true
  /\ isfinite (APP_START_TIME Sample.globals) = true
  /\ isfinite (time_time Sample.clock_1s) = true
  /\ isfinite (fsub (time_time Sample.clock_1s) (APP_START_TIME Sample.globals)) = true
  /\ fle (APP_START_TIME Sample.globals) (time_time Sample.clock_1s) = true
  /\ exists u,
       uptime_seconds_of (response_of Sample.globals Sample.clock_1s
                            (request "GET" "/health" None)) = Some u
       /\ uptime_seconds_of (response_of Sample.globals Sample.clock_1s
                               (request "GET" "/api/info" None)) = Some u
       /\ fle 0%float u = true
       /\ fle 0%float (fsub (time_time Sample.clock_1s)
                         (APP_START_TIME Sample.globals)) = true.
Proof.
  do 6 (split; [reflexivity|]).
  exact (uptime_not_negative (H:=cpython) Sample.globals Sample.clock_1s None None
           eq_refl eq_refl eq_refl eq_refl eq_refl eq_refl).
Defined.

Lemma uptime_rounded_once_witness :
  sendable_config Sample.globals = true
  /\ Utf8.encodable sys_version = true
  /\ isfinite (fsub (time_time Sample.clock_1s) (APP_START_TIME Sample.globals)) = true
  /\ exists u,
       uptime_seconds_of (response_of Sample.globals Sample.clock_1s
                            (request "GET" "/health" None)) = Some u
       /\ round2 u = u.
Proof.
  do 3 (split; [reflexivity|]).
  destruct (uptime_rounded_once (H:=cpython) Sample.globals Sample.clock_1s None
              eq_refl eq_refl eq_refl) as (u & E & _ & R).
  exists u. split; [exact E|exact R].
Defined.

Lemma health_renders_witness :
  sendable_config Sample.globals = true
  /\ isfinite (fsub (time_time Sample.clock_1s) (APP_START_TIME Sample.globals)) = true
  /\ exists u text,
       uptime_seconds_of (response_of Sample.globals Sample.clock_1s
                            (request "GET" "/health" None)) = Some u
       /\ isfinite u = true
       /\ option_map body_bytes
            (response_of Sample.globals Sample.clock_1s (request "GET" "/health" None))
          = Some (Some (flat_map Utf8.encode_char text)).
Proof.
  split; [reflexivity|]. split; [reflexivity|].
  destruct (health_renders Sample.globals Sample.clock_1s None eq_refl eq_refl)
    as (u & text & E & Fu & _ & _ & B & _).
  exists u, text. split; [exact E|]. split; [exact Fu|exact B].
Defined.

Lemma metrics_body_reads_back_witness :
  Utf8.encodable
    (frepr (fsub (time_time Sample.exact_clock_1s)
              (APP_START_TIME (import_main Sample.environ Sample.exact_start)))) = true
  /\ Utf8.encodable
       (APP_VERSION (import_main Sample.environ Sample.exact_start)) = true
  /\ Utf8.encodable
       (ENVIRONMENT (import_main Sample.environ Sample.exact_start)) = true
  /\ TestApp.test_metrics_format (import_main Sample.environ Sample.exact_start)
       Sample.exact_clock_1s = true.
Proof.
  split; [reflexivity|]. split; [reflexivity|]. split; [reflexivity|].
  exact (proj2 (proj2 (metrics_body_reads_back
                         (import_main Sample.environ Sample.exact_start)
                         Sample.exact_clock_1s eq_refl eq_refl eq_refl))).
Defined.

Lemma uptime_never_decreases_across_endpoints_witness :
  (0 <= 1)%nat
  /\ nth_error Cases.mixed 0 = Some (Sample.clock_1ms, request "GET" "/api/info" None)
  /\ nth_error Cases.mixed 1 = Some (Sample.clock_1s, request "GET" "/health" None)
  /\ sendable_config (import_main Sample.environ 1704067200%float) = true
  /\ Utf8.encodable sys_version = true
  /\ sendable_float (round2 (fsub (time_time Sample.clock_1ms) 1704067200%float)) = true
  /\ sendable_float (round2 (fsub (time_time Sample.clock_1s) 1704067200%float)) = true
  /\ isfinite 1704067200%float = true
  /\ isfinite (time_time Sample.clock_1ms) = true
  /\ isfinite (time_time Sample.clock_1s) = true
  /\ fle (time_time Sample.clock_1ms) (time_time Sample.clock_1s) = true
  /\ exists r_i r_j u_i u_j,
       nth_error (snd (lifetime Sample.environ 1704067200%float Cases.mixed)) 0
       = Some r_i
       /\ nth_error (snd (lifetime Sample.environ 1704067200%float Cases.mixed)) 1
          = Some r_j
       /\ uptime_seconds_of r_i = Some u_i
       /\ uptime_seconds_of r_j = Some u_j
       /\ fle u_i u_j = true.
Proof.
  assert (Si : sendable_float (round2 (fsub (time_time Sample.clock_1ms)
                                          1704067200%float)) = true)
    by (apply b64_sendable_uptime; reflexivity).
  assert (Sj : sendable_float (round2 (fsub (time_time Sample.clock_1s)
                                          1704067200%float)) = true)
    by (apply b64_sendable_uptime; reflexivity).
  split; [apply le_S, le_n|]. do 4 (split; [reflexivity|]).
  split; [exact Si|]. split; [exact Sj|].
  do 4 (split; [reflexivity|]).
  exact (uptime_never_decreases_across_endpoints (H1:=cpython) Sample.environ 1704067200%float
           Cases.mixed 0 1 Sample.clock_1ms Sample.clock_1s
           "/api/info" "/health" None None (le_S _ _ (le_n 0))
           (or_intror eq_refl) (or_introl eq_refl)
           eq_refl eq_refl eq_refl eq_refl Si Sj
           eq_refl eq_refl eq_refl eq_refl).
Defined.
